(** * Spanner CRM backend: status pipelines, duplicate detection, batch ingestion

    A shallow embedding of the service layer of the backend
    ([app/services/company_service.py], [app/services/contact_service.py],
    [app/services/upload_service.py]), of the request schemas they rely on
    ([app/schemas/company.py], [app/schemas/contact.py]), of the two
    approval handlers ([app/routers/companies.py], [app/routers/contacts.py])
    and of the two upload handlers ([app/routers/uploads.py]) with the role
    check they depend on ([app/core/deps.py]), followed by the properties
    the specification states about them and by further properties of the
    services and handlers.

    Conventions of the embedding.
    - The relational store is a record of tables; a table is the list of its
      rows in insertion order and the primary key of a row (a UUID in the
      source) is its position in the table.  No service function deletes a
      row.  A query returns row references (the ORM hands out the identity
      mapped objects), so that a write through a reference is seen by every
      later read.
    - Service functions are computations in a state-and-exception monad over
      the store.  A Python exception leaves the store as mutated so far.
    - Strings are [string]; [len], [lower] and [strip] are modelled on the
      ASCII range.
    - The store enforces neither the uniqueness nor the foreign-key
      constraints of the schema: the theorems describe the runs in which
      [flush] is accepted by the database.  A null written to a NOT NULL
      column is refused.
    - The eager-loading options of the queries and the [refresh] calls do not
      change the data and are left out.
    - The offset and the limit of a listing are natural numbers; among the
      rows with the same creation time a listing is free in its order, and
      the theorems on listings do not depend on it.
    - The column [error_report_url] of a batch is not carried by the store;
      the upload handlers compute its value for their answer. *)

From Stdlib Require Import ZArith String Ascii DecimalString.
From stdpp Require Import base option list sorting strings gmap pretty.

Open Scope string_scope.
Open Scope list_scope.

(** ** Python strings *)

Module pystr.

(** [str.isspace] on the ASCII range: TAB, LF, VT, FF, CR, the four
    separators FS, GS, RS, US and the space. *)
Definition isspace (a : ascii) : bool :=
  let n := nat_of_ascii a in
  (Nat.leb 9 n && Nat.leb n 13) || (Nat.leb 28 n && Nat.leb n 32).

Definition lower_char (a : ascii) : ascii :=
  let n := nat_of_ascii a in
  if Nat.leb 65 n && Nat.leb n 90 then ascii_of_nat (n + 32) else a.

(** [s.lower()] *)
Fixpoint lower (s : string) : string :=
  match s with
  | EmptyString => EmptyString
  | String a s' => String (lower_char a) (lower s')
  end.

(** [s.lstrip()] *)
Fixpoint lstrip (s : string) : string :=
  match s with
  | EmptyString => EmptyString
  | String a s' => if isspace a then lstrip s' else s
  end.

(** [s.rstrip()] *)
Fixpoint rstrip (s : string) : string :=
  match s with
  | EmptyString => EmptyString
  | String a s' =>
      match rstrip s' with
      | EmptyString => if isspace a then EmptyString else String a EmptyString
      | r => String a r
      end
  end.

(** [s.strip()] *)
Definition strip (s : string) : string := rstrip (lstrip s).

(** Truth value of a [str]: the empty string is falsy. *)
Definition truthy (s : string) : bool :=
  match s with EmptyString => false | _ => true end.

(** Truth value of a [str | None]. *)
Definition truthy_opt (o : option string) : bool :=
  match o with Some s => truthy s | None => false end.

(** [len(s)] is [String.length]. *)
Definition len (s : string) : nat := String.length s.

(** [s.replace(old, new)] for a one-character [old]. *)
Fixpoint replace_char (old : ascii) (new : string) (s : string) : string :=
  match s with
  | EmptyString => EmptyString
  | String a s' =>
      if decide (a = old) then new +:+ replace_char old new s'
      else String a (replace_char old new s')
  end.


End pystr.

(** ** Identifiers and time *)

(** Primary keys.  A row's key is its position in its table; keys of tables
    that are not modelled (users, segments) are opaque numbers. *)
Abbreviation UUID := nat (only parsing).

(** [datetime] values, as an instant on a discrete time line. *)
Abbreviation Time := nat (only parsing).

(** ** ORM models ([app/models]) *)

Module company_model.

Inductive CompanyStatusEnum : Type := PENDING | APPROVED | REJECTED.

#[global] Instance CompanyStatusEnum_eq_dec : EqDecision CompanyStatusEnum.
Proof. solve_decision. Defined.

(** The value of the enumeration member, as stored and as sent over JSON. *)
Definition value (s : CompanyStatusEnum) : string :=
  match s with
  | PENDING => "pending"
  | APPROVED => "approved"
  | REJECTED => "rejected"
  end.

(** [CompanyStatusEnum(raw)]: lookup of a member by value. *)
Definition of_value (raw : string) : option CompanyStatusEnum :=
  if decide (raw = "pending") then Some PENDING
  else if decide (raw = "approved") then Some APPROVED
  else if decide (raw = "rejected") then Some REJECTED
  else None.

(** The descriptive columns, which are also the fields of the schema class
    [CompanyBase]; they are grouped in one record. *)
Record CompanyBase : Type := {
  company_name : string;
  company_website : option string;
  company_phone : option string;
  company_description : option string;
  company_linkedin_url : option string;
  company_industry : option string;
  company_sub_industry : option string;
  street : option string;
  city : option string;
  state_province : option string;
  country_region : option string;
  zip_postal_code : option string;
  founded_year : option Z;
  revenue_range : option string;
  employee_size_range : option string
}.

Record Company : Type := {
  data : CompanyBase;
  segment_id : UUID;
  status : CompanyStatusEnum;
  rejection_reason : option string;
  is_duplicate : bool;
  batch_id : option UUID;
  created_by : UUID;
  approved_by : option UUID;
  approved_at : option Time;
  created_at : Time
}.

(** [company.is_duplicate = b] *)
Definition set_is_duplicate (b : bool) (c : Company) : Company :=
  {| data := data c; segment_id := segment_id c; status := status c;
     rejection_reason := rejection_reason c; is_duplicate := b;
     batch_id := batch_id c; created_by := created_by c;
     approved_by := approved_by c; approved_at := approved_at c;
     created_at := created_at c |}.

(** [company.status = s; company.rejection_reason = r] *)
Definition set_decision (s : CompanyStatusEnum) (r : option string)
    (c : Company) : Company :=
  {| data := data c; segment_id := segment_id c; status := s;
     rejection_reason := r; is_duplicate := is_duplicate c;
     batch_id := batch_id c; created_by := created_by c;
     approved_by := approved_by c; approved_at := approved_at c;
     created_at := created_at c |}.

(** [company.approved_by = u; company.approved_at = t] *)
Definition set_approver (u : UUID) (t : Time) (c : Company) : Company :=
  {| data := data c; segment_id := segment_id c; status := status c;
     rejection_reason := rejection_reason c; is_duplicate := is_duplicate c;
     batch_id := batch_id c; created_by := created_by c;
     approved_by := Some u; approved_at := Some t;
     created_at := created_at c |}.

(** The columns a [CompanyUpdate] can write. *)
Definition set_data (d : CompanyBase) (seg : UUID) (c : Company) : Company :=
  {| data := d; segment_id := seg; status := status c;
     rejection_reason := rejection_reason c; is_duplicate := is_duplicate c;
     batch_id := batch_id c; created_by := created_by c;
     approved_by := approved_by c; approved_at := approved_at c;
     created_at := created_at c |}.

End company_model.

Module contact_model.

Inductive ContactStatusEnum : Type :=
  UPLOADED | APPROVED | ASSIGNED_TO_SDR | MEETING_SCHEDULED.

#[global] Instance ContactStatusEnum_eq_dec : EqDecision ContactStatusEnum.
Proof. solve_decision. Defined.

Definition value (s : ContactStatusEnum) : string :=
  match s with
  | UPLOADED => "uploaded"
  | APPROVED => "approved"
  | ASSIGNED_TO_SDR => "assigned_to_sdr"
  | MEETING_SCHEDULED => "meeting_scheduled"
  end.

Definition of_value (raw : string) : option ContactStatusEnum :=
  if decide (raw = "uploaded") then Some UPLOADED
  else if decide (raw = "approved") then Some APPROVED
  else if decide (raw = "assigned_to_sdr") then Some ASSIGNED_TO_SDR
  else if decide (raw = "meeting_scheduled") then Some MEETING_SCHEDULED
  else None.

(** Position of a status in the pipeline
    uploaded -> approved -> assigned_to_sdr -> meeting_scheduled. *)
Definition stage (s : ContactStatusEnum) : nat :=
  match s with
  | UPLOADED => 0
  | APPROVED => 1
  | ASSIGNED_TO_SDR => 2
  | MEETING_SCHEDULED => 3
  end.

(** The descriptive columns, the fields of the schema class [ContactBase]. *)
Record ContactBase : Type := {
  first_name : string;
  last_name : string;
  email : string;
  mobile_phone : option string;
  job_title : option string;
  direct_phone_number : option string;
  email_address_2 : option string;
  email_active_status : option string;
  lead_source_global : option string;
  management_level : option string;
  street : option string;
  city : option string;
  state_province : option string;
  country_region : option string;
  zip_postal_code : option string;
  primary_time_zone : option string;
  contact_linkedin_url : option string;
  linkedin_summary : option string;
  data_requester_details : option string
}.

Record Contact : Type := {
  data : ContactBase;
  company_id : UUID;
  segment_id : UUID;
  status : ContactStatusEnum;
  assigned_sdr_id : option UUID;
  is_duplicate : bool;
  batch_id : option UUID;
  created_by : UUID;
  created_at : Time
}.

Definition set_is_duplicate (b : bool) (c : Contact) : Contact :=
  {| data := data c; company_id := company_id c; segment_id := segment_id c;
     status := status c; assigned_sdr_id := assigned_sdr_id c;
     is_duplicate := b; batch_id := batch_id c; created_by := created_by c;
     created_at := created_at c |}.

Definition set_status (s : ContactStatusEnum) (c : Contact) : Contact :=
  {| data := data c; company_id := company_id c; segment_id := segment_id c;
     status := s; assigned_sdr_id := assigned_sdr_id c;
     is_duplicate := is_duplicate c; batch_id := batch_id c;
     created_by := created_by c; created_at := created_at c |}.

Definition set_assigned_sdr_id (u : UUID) (c : Contact) : Contact :=
  {| data := data c; company_id := company_id c; segment_id := segment_id c;
     status := status c; assigned_sdr_id := Some u;
     is_duplicate := is_duplicate c; batch_id := batch_id c;
     created_by := created_by c; created_at := created_at c |}.

(** The columns a [ContactUpdate] can write. *)
Definition set_data (d : ContactBase) (cid : UUID) (c : Contact) : Contact :=
  {| data := d; company_id := cid; segment_id := segment_id c;
     status := status c; assigned_sdr_id := assigned_sdr_id c;
     is_duplicate := is_duplicate c; batch_id := batch_id c;
     created_by := created_by c; created_at := created_at c |}.

End contact_model.

Module upload_batch_model.

Inductive UploadTypeEnum : Type := COMPANY | CONTACT.

Inductive BatchStatusEnum : Type := PROCESSING | COMPLETED | FAILED.

#[global] Instance BatchStatusEnum_eq_dec : EqDecision BatchStatusEnum.
Proof. solve_decision. Defined.

Record UploadBatch : Type := {
  upload_type : UploadTypeEnum;
  file_name : string;
  file_size_bytes : nat;
  total_rows : nat;
  valid_rows : nat;
  invalid_rows : nat;
  status : BatchStatusEnum;
  uploaded_by : UUID;
  created_at : Time
}.

(** The four assignments that close a batch. *)
Definition set_statistics (t v i : nat) (s : BatchStatusEnum)
    (b : UploadBatch) : UploadBatch :=
  {| upload_type := upload_type b; file_name := file_name b;
     file_size_bytes := file_size_bytes b; total_rows := t;
     valid_rows := v; invalid_rows := i; status := s;
     uploaded_by := uploaded_by b; created_at := created_at b |}.

End upload_batch_model.

(** ** The store, exceptions and the monad of service functions *)

Record DB : Type := {
  companies : list company_model.Company;
  contacts : list contact_model.Contact;
  upload_batches : list upload_batch_model.UploadBatch
}.

Definition empty_db : DB :=
  {| companies := []; contacts := []; upload_batches := [] |}.

Definition with_companies (l : list company_model.Company) (db : DB) : DB :=
  {| companies := l; contacts := contacts db;
     upload_batches := upload_batches db |}.

Definition with_contacts (l : list contact_model.Contact) (db : DB) : DB :=
  {| companies := companies db; contacts := l;
     upload_batches := upload_batches db |}.

Definition with_upload_batches (l : list upload_batch_model.UploadBatch)
    (db : DB) : DB :=
  {| companies := companies db; contacts := contacts db;
     upload_batches := l |}.

(** The texts of the [ValueError]s raised by the services.  The f-strings
    interpolate an identifier or a status, kept here as an argument. *)
Inductive ErrorMessage : Type :=
  | company_not_found (company_id : UUID)
      (* f"Company with id {company_id} not found" *)
  | cannot_approve_reject_company (s : company_model.CompanyStatusEnum)
      (* f"Cannot approve/reject company with status {company.status}. Only
         pending companies can be approved or rejected." *)
  | contact_not_found (contact_id : UUID)
      (* f"Contact with ID {contact_id} not found" *)
  | contact_company_not_found (company_id : UUID)
      (* f"Company with ID {data.company_id} not found" *)
  | approval_status_must_be_approved
      (* "Approval status must be 'approved'" *)
  | cannot_approve_contact (s : contact_model.ContactStatusEnum)
      (* f"Cannot approve contact with status '{contact.status}'. Contact
         must be in 'uploaded' status." *)
  | cannot_assign_contact (s : contact_model.ContactStatusEnum)
      (* f"Cannot assign contact with status '{contact.status}'. Contact
         must be in 'approved' status." *)
  | cannot_mark_meeting_scheduled (s : contact_model.ContactStatusEnum)
      (* f"Cannot mark meeting scheduled for contact with status
         '{contact.status}'. Contact must be in 'assigned_to_sdr' status." *).

Inductive Exception : Type :=
  | ValueError (msg : ErrorMessage)
  | TypeError (msg : string)
  | AttributeError (msg : string)
  | IntegrityError (msg : string).

(** The errors that report an illegal status change. *)
Definition is_invalid_transition (e : Exception) : bool :=
  match e with
  | ValueError (cannot_approve_reject_company _)
  | ValueError (cannot_approve_contact _)
  | ValueError (cannot_assign_contact _)
  | ValueError (cannot_mark_meeting_scheduled _) => true
  | _ => false
  end.

(** The errors that report an absent row. *)
Definition is_not_found (e : Exception) : bool :=
  match e with
  | ValueError (company_not_found _)
  | ValueError (contact_not_found _)
  | ValueError (contact_company_not_found _) => true
  | _ => false
  end.

Inductive Result (A : Type) : Type :=
  | Return (a : A)
  | Raise (e : Exception).
Arguments Return {A} a.
Arguments Raise {A} e.

Definition M (A : Type) : Type := DB -> Result A * DB.

Definition ret {A} (a : A) : M A := fun db => (Return a, db).

Definition raise {A} (e : Exception) : M A := fun db => (Raise e, db).

Definition bind {A B} (m : M A) (k : A -> M B) : M B :=
  fun db =>
    match m db with
    | (Return a, db') => k a db'
    | (Raise e, db') => (Raise e, db')
    end.

Definition get_db : M DB := fun db => (Return db, db).

Definition put_db (db' : DB) : M unit := fun _ => (Return tt, db').

(** A read of the store. *)
Definition reads {A} (f : DB -> A) : M A := fun db => (Return (f db), db).

Declare Scope py_scope.
Delimit Scope py_scope with py.
Notation "x <- m ;; k" := (bind m (fun x => k))
  (at level 100, m at next level, right associativity) : py_scope.
Notation "m ;; k" := (bind m (fun _ => k))
  (at level 100, right associativity) : py_scope.

(** ** Request validation ([app/schemas])

    The schema classes are pydantic models.  Validation of a model visits the
    fields in declaration order and collects one error per failing field;
    the model is built only when no field failed. *)

Module pydantic.

(** One item of [ValidationError.errors()]: the location and the message. *)
Record ErrorDetails : Type := { loc : list string; msg : string }.

Definition Validated (A : Type) : Type := (list ErrorDetails + A)%type.

Definition pure {A} (a : A) : Validated A := inr a.

(** Applies a constructor to one more validated field, accumulating the
    errors of both sides. *)
Definition ap {A B} (f : Validated (A -> B)) (x : Validated A) : Validated B :=
  match f, x with
  | inr g, inr a => inr (g a)
  | inl e, inr _ => inl e
  | inr _, inl e => inl e
  | inl e1, inl e2 => inl (e1 ++ e2)%list
  end.

Definition fail {A} (field message : string) : Validated A :=
  inl [ {| loc := [field]; msg := message |} ].

Definition characters (n : nat) : string :=
  pretty n +:+ (if decide (n = 1) then " character" else " characters").

(** The keyword arguments of a model constructor: a value is a string or
    [None]; a field can also be absent. *)
Definition Kwargs : Type := gmap string (option string).

(** A field [str = Field(min_length=lo, max_length=hi)]. *)
Definition required_str (kw : Kwargs) (field : string) (lo hi : nat)
    : Validated string :=
  match kw !! field with
  | None => fail field "Field required"
  | Some None => fail field "Input should be a valid string"
  | Some (Some v) =>
      if decide (pystr.len v < lo)
      then fail field ("String should have at least " +:+ characters lo)
      else if decide (hi < pystr.len v)
      then fail field ("String should have at most " +:+ characters hi)
      else inr v
  end.

(** A field [str | None = Field(None, max_length=hi)]. *)
Definition optional_str (kw : Kwargs) (field : string) (hi : nat)
    : Validated (option string) :=
  match kw !! field with
  | None | Some None => inr None
  | Some (Some v) =>
      if decide (hi < pystr.len v)
      then fail field ("String should have at most " +:+ characters hi)
      else inr (Some v)
  end.

(** A field [int | None = Field(None, ge=lo, le=hi)] given as a string;
    [int_of_str] is the library's coercion of a string to an integer. *)
Definition optional_int (int_of_str : string -> option Z) (kw : Kwargs)
    (field : string) (lo hi : Z) : Validated (option Z) :=
  match kw !! field with
  | None | Some None => inr None
  | Some (Some v) =>
      match int_of_str v with
      | None =>
          fail field
            "Input should be a valid integer, unable to parse string as an integer"
      | Some n =>
          if decide (n < lo)%Z
          then fail field ("Input should be greater than or equal to " +:+ pretty lo)
          else if decide (hi < n)%Z
          then fail field ("Input should be less than or equal to " +:+ pretty hi)
          else inr (Some n)
      end
  end.

(** A field [EmailStr]; [validate_email] is the library's check, which
    returns the normalised address. *)
Definition required_email (validate_email : string -> option string)
    (kw : Kwargs) (field : string) : Validated string :=
  match kw !! field with
  | None => fail field "Field required"
  | Some None => fail field "Input should be a valid string"
  | Some (Some v) =>
      match validate_email v with
      | Some e => inr e
      | None => fail field "value is not a valid email address"
      end
  end.

(** A field [EmailStr | None = None]. *)
Definition optional_email (validate_email : string -> option string)
    (kw : Kwargs) (field : string) : Validated (option string) :=
  match kw !! field with
  | None | Some None => inr None
  | Some (Some v) =>
      match validate_email v with
      | Some e => inr (Some e)
      | None => fail field "value is not a valid email address"
      end
  end.

End pydantic.

Module company_schema.

Import pydantic.

Record CompanyCreate : Type := {
  base : company_model.CompanyBase;
  segment_id : UUID
}.

(** The constructor [CompanyCreate] on the keyword arguments built from a
    CSV row.
    The [segment_id] argument is [str(segment_id)] of a UUID and always
    validates; it is passed here as the UUID itself. *)
Definition validate_create (int_of_str : string -> option Z) (kw : Kwargs)
    (seg : UUID) : Validated CompanyCreate :=
  ap (ap (ap (ap (ap (ap (ap (ap (ap (ap (ap (ap (ap (ap (ap (ap
    (pure (fun n w p d l i si st c sp cr z fy rr es sg =>
             {| base := company_model.Build_CompanyBase
                          n w p d l i si st c sp cr z fy rr es;
                segment_id := sg |}))
    (required_str kw "company_name" 1 500))
    (optional_str kw "company_website" 2048))
    (optional_str kw "company_phone" 50))
    (optional_str kw "company_description" 5000))
    (optional_str kw "company_linkedin_url" 2048))
    (optional_str kw "company_industry" 200))
    (optional_str kw "company_sub_industry" 200))
    (optional_str kw "street" 500))
    (optional_str kw "city" 200))
    (optional_str kw "state_province" 200))
    (optional_str kw "country_region" 200))
    (optional_str kw "zip_postal_code" 50))
    (optional_int int_of_str kw "founded_year" 1800 2100))
    (optional_str kw "revenue_range" 200))
    (optional_str kw "employee_size_range" 200))
    (pure seg).

(** [CompanyUpdate]: every field is optional.  [None] is a field that was
    not set in the request, which [model_dump(exclude_unset=True)] leaves
    out; [Some v] is a field that was set, possibly to null. *)
Record CompanyUpdate : Type := {
  u_company_name : option (option string);
  u_company_website : option (option string);
  u_company_phone : option (option string);
  u_company_description : option (option string);
  u_company_linkedin_url : option (option string);
  u_company_industry : option (option string);
  u_company_sub_industry : option (option string);
  u_street : option (option string);
  u_city : option (option string);
  u_state_province : option (option string);
  u_country_region : option (option string);
  u_zip_postal_code : option (option string);
  u_founded_year : option (option Z);
  u_revenue_range : option (option string);
  u_employee_size_range : option (option string);
  u_segment_id : option (option UUID)
}.

(** [CompanyApproval]: the validated decision. *)
Record CompanyApproval : Type := {
  status : company_model.CompanyStatusEnum;
  rejection_reason : option string
}.

(** The JSON body of an approval request, before validation. *)
Record ApprovalBody : Type := {
  body_status : option string;
  body_rejection_reason : option string
}.

(** [CompanyApproval.model_post_init]: the three checks, in order. *)
Definition model_post_init (a : CompanyApproval) : Validated CompanyApproval :=
  if decide (status a = company_model.PENDING)
  then inl [ {| loc := []; msg := "Value error, Cannot set status back to 'pending'" |} ]
  else if bool_decide (status a = company_model.REJECTED)
          && negb (pystr.truthy_opt (rejection_reason a))
  then inl [ {| loc := [];
                msg := "Value error, rejection_reason is required when status is 'rejected'" |} ]
  else if negb (bool_decide (status a = company_model.REJECTED))
          && pystr.truthy_opt (rejection_reason a)
  then inl [ {| loc := [];
                msg := "Value error, rejection_reason should only be provided when status is 'rejected'" |} ]
  else inr a.

(** The field [status: CompanyStatusEnum]. *)
Definition status_field (raw : option string)
    : Validated company_model.CompanyStatusEnum :=
  match raw with
  | None => fail "status" "Field required"
  | Some v =>
      match company_model.of_value v with
      | Some s => inr s
      | None => fail "status" "Input should be 'pending', 'approved' or 'rejected'"
      end
  end.

(** The field [rejection_reason: str | None = Field(None, max_length=5000)]. *)
Definition rejection_reason_field (raw : option string)
    : Validated (option string) :=
  match raw with
  | None => inr None
  | Some v =>
      if decide (5000 < pystr.len v)
      then fail "rejection_reason" ("String should have at most " +:+ characters 5000)
      else inr (Some v)
  end.

(** Validation of a request body into a [CompanyApproval]: the fields, then
    [model_post_init]. *)
Definition validate_approval (body : ApprovalBody) : Validated CompanyApproval :=
  match ap (ap (pure Build_CompanyApproval) (status_field (body_status body)))
           (rejection_reason_field (body_rejection_reason body)) with
  | inl e => inl e
  | inr a => model_post_init a
  end.

End company_schema.

Module contact_schema.

Import pydantic.

Record ContactCreate : Type := {
  base : contact_model.ContactBase;
  company_id : UUID
}.

(** The constructor [ContactCreate] on the keyword arguments built from a
    CSV row;
    [company_id] is [str(contact_company_id)] of a UUID. *)
Definition validate_create (validate_email : string -> option string)
    (kw : Kwargs) (cid : UUID) : Validated ContactCreate :=
  ap (ap (ap (ap (ap (ap (ap (ap (ap (ap (ap (ap (ap (ap (ap (ap (ap (ap (ap (ap
    (pure (fun fn ln em mp jt dp e2 ea ls ml st c sp cr z tz lu su dr ci =>
             {| base := contact_model.Build_ContactBase
                          fn ln em mp jt dp e2 ea ls ml st c sp cr z tz lu su dr;
                company_id := ci |}))
    (required_str kw "first_name" 1 200))
    (required_str kw "last_name" 1 200))
    (required_email validate_email kw "email"))
    (optional_str kw "mobile_phone" 50))
    (optional_str kw "job_title" 500))
    (optional_str kw "direct_phone_number" 50))
    (optional_email validate_email kw "email_address_2"))
    (optional_str kw "email_active_status" 100))
    (optional_str kw "lead_source_global" 200))
    (optional_str kw "management_level" 200))
    (optional_str kw "street" 500))
    (optional_str kw "city" 200))
    (optional_str kw "state_province" 200))
    (optional_str kw "country_region" 200))
    (optional_str kw "zip_postal_code" 50))
    (optional_str kw "primary_time_zone" 100))
    (optional_str kw "contact_linkedin_url" 2048))
    (optional_str kw "linkedin_summary" 5000))
    (optional_str kw "data_requester_details" 500))
    (pure cid).

(** [ContactUpdate]: as [CompanyUpdate], a field is unset ([None]) or set,
    possibly to null.  The class has no [status] field. *)
Record ContactUpdate : Type := {
  u_first_name : option (option string);
  u_last_name : option (option string);
  u_email : option (option string);
  u_mobile_phone : option (option string);
  u_job_title : option (option string);
  u_direct_phone_number : option (option string);
  u_email_address_2 : option (option string);
  u_email_active_status : option (option string);
  u_lead_source_global : option (option string);
  u_management_level : option (option string);
  u_street : option (option string);
  u_city : option (option string);
  u_state_province : option (option string);
  u_country_region : option (option string);
  u_zip_postal_code : option (option string);
  u_primary_time_zone : option (option string);
  u_contact_linkedin_url : option (option string);
  u_linkedin_summary : option (option string);
  u_data_requester_details : option (option string);
  u_company_id : option (option UUID)
}.

(** [ContactApproval]: one field, a member of the status enumeration. *)
Record ContactApproval : Type := {
  status : contact_model.ContactStatusEnum
}.

(** [ContactAssignment]: the SDR is a required UUID. *)
Record ContactAssignment : Type := {
  assigned_sdr_id : UUID
}.

End contact_schema.

(** ** The session ([AsyncSession]) *)

Module session.

(** The rows of a table paired with their primary keys. *)
Definition rows {A} (table : list A) : list (UUID * A) :=
  imap (fun i x => (i, x)) table.

(** [select(T).where(P)]: the matching rows, in storage order. *)
Definition select_where {A} (P : A -> Prop) `{forall x, Decision (P x)}
    (table : list A) : list (UUID * A) :=
  filter (fun r => P r.2) (rows table).

(** Insertion of a row into a list sorted by [key], after the rows with the
    same key. *)
Fixpoint insert_sorted {A} (key : A -> Time) (r : UUID * A)
    (l : list (UUID * A)) : list (UUID * A) :=
  match l with
  | [] => [r]
  | r' :: l' =>
      if decide (key r'.2 <= key r.2) then r' :: insert_sorted key r l'
      else r :: l
  end.

(** [.order_by(key.asc())]: rows with equal keys keep their storage order. *)
Definition order_by_asc {A} (key : A -> Time) (l : list (UUID * A))
    : list (UUID * A) :=
  foldl (fun acc r => insert_sorted key r acc) [] l.

(** [select(T).where(P).order_by(key.asc())] *)
Definition query {A} (P : A -> Prop) `{forall x, Decision (P x)}
    (key : A -> Time) (table : list A) : list (UUID * A) :=
  order_by_asc key (select_where P table).

(** Insertion of a row into a list sorted by decreasing [key], after the
    rows with the same key. *)
Fixpoint insert_sorted_desc {A} (key : A -> nat) (r : nat * A)
    (l : list (nat * A)) : list (nat * A) :=
  match l with
  | [] => [r]
  | r' :: l' =>
      if decide (key r.2 <= key r'.2) then r' :: insert_sorted_desc key r l'
      else r :: l
  end.

(** [.order_by(key.desc())] *)
Definition order_by_desc {A} (key : A -> nat) (l : list (nat * A))
    : list (nat * A) :=
  foldl (fun acc r => insert_sorted_desc key r acc) [] l.

(** [.offset(skip).limit(limit)] *)
Definition offset_limit {A} (skip limit : nat) (l : list A) : list A :=
  take limit (drop skip l).

(** [select(func.count(...)).where(P)] *)
Definition count_where {A} (P : A -> Prop) `{forall x, Decision (P x)}
    (table : list A) : nat :=
  length (select_where P table).

(** [db.add(row)]: the row is appended and its primary key returned. *)
Definition add_company (c : company_model.Company) : M UUID :=
  fun db =>
    (Return (length (companies db)), with_companies (companies db ++ [c]) db).

Definition add_contact (c : contact_model.Contact) : M UUID :=
  fun db =>
    (Return (length (contacts db)), with_contacts (contacts db ++ [c]) db).

Definition add_upload_batch (b : upload_batch_model.UploadBatch) : M UUID :=
  fun db =>
    (Return (length (upload_batches db)),
     with_upload_batches (upload_batches db ++ [b]) db).

(** An attribute assignment on a loaded row, written through its reference. *)
Definition store_company (ref : UUID) (c : company_model.Company) : M unit :=
  fun db => (Return tt, with_companies (<[ref := c]> (companies db)) db).

Definition store_contact (ref : UUID) (c : contact_model.Contact) : M unit :=
  fun db => (Return tt, with_contacts (<[ref := c]> (contacts db)) db).

Definition store_upload_batch (ref : UUID)
    (b : upload_batch_model.UploadBatch) : M unit :=
  fun db =>
    (Return tt, with_upload_batches (<[ref := b]> (upload_batches db)) db).

End session.

(** The effect of [setattr(row, field, value)] for one field of an update:
    a field that was not set keeps the stored value. *)
Definition updated {A} (u : option A) (old : A) : A :=
  match u with Some v => v | None => old end.

(** The same for a NOT NULL column: writing null is refused by the store. *)
Definition updated_not_null {A} (u : option (option A)) (old : A) : option A :=
  match u with Some v => v | None => Some old end.

(** ** [app/services/company_service.py] *)

Module company_service.

Import company_model.
Open Scope py_scope.

Definition create_company (data : company_schema.CompanyCreate)
    (created_by : UUID) (now : Time) : M UUID :=
  session.add_company
    {| data := company_schema.base data;
       segment_id := company_schema.segment_id data;
       status := PENDING;
       rejection_reason := None;
       is_duplicate := false;
       batch_id := None;
       created_by := created_by;
       approved_by := None;
       approved_at := None;
       created_at := now |}.

Definition get_company (company_id : UUID) : M (option Company) :=
  fun db => (Return (companies db !! company_id), db).

(** The assignments of [update_company], one per field of [CompanyUpdate];
    [None] when a null reaches a NOT NULL column. *)
Definition apply_update (u : company_schema.CompanyUpdate) (c : Company)
    : option Company :=
  let d := data c in
  match updated_not_null (company_schema.u_company_name u) (company_name d),
        updated_not_null (company_schema.u_segment_id u) (segment_id c) with
  | Some name, Some seg =>
      Some (set_data
        {| company_name := name;
           company_website := updated (company_schema.u_company_website u) (company_website d);
           company_phone := updated (company_schema.u_company_phone u) (company_phone d);
           company_description := updated (company_schema.u_company_description u) (company_description d);
           company_linkedin_url := updated (company_schema.u_company_linkedin_url u) (company_linkedin_url d);
           company_industry := updated (company_schema.u_company_industry u) (company_industry d);
           company_sub_industry := updated (company_schema.u_company_sub_industry u) (company_sub_industry d);
           street := updated (company_schema.u_street u) (street d);
           city := updated (company_schema.u_city u) (city d);
           state_province := updated (company_schema.u_state_province u) (state_province d);
           country_region := updated (company_schema.u_country_region u) (country_region d);
           zip_postal_code := updated (company_schema.u_zip_postal_code u) (zip_postal_code d);
           founded_year := updated (company_schema.u_founded_year u) (founded_year d);
           revenue_range := updated (company_schema.u_revenue_range u) (revenue_range d);
           employee_size_range := updated (company_schema.u_employee_size_range u) (employee_size_range d) |}
        seg c)
  | _, _ => None
  end.

Definition update_company (company_id : UUID)
    (data : company_schema.CompanyUpdate) : M UUID :=
  company <- get_company company_id;;
  match company with
  | None => raise (ValueError (company_not_found company_id))
  | Some c =>
      match apply_update data c with
      | Some c' => session.store_company company_id c';; ret company_id
      | None => raise (IntegrityError "null value violates not-null constraint")
      end
  end.

Definition approve_company (company_id : UUID)
    (approval : company_schema.CompanyApproval) (approved_by : option UUID)
    (now : Time) : M UUID :=
  company <- get_company company_id;;
  match company with
  | None => raise (ValueError (company_not_found company_id))
  | Some c =>
      if decide (status c <> PENDING)
      then raise (ValueError (cannot_approve_reject_company (status c)))
      else
        let c1 := set_decision (company_schema.status approval)
                    (company_schema.rejection_reason approval) c in
        let c2 := match approved_by with
                  | Some u => set_approver u now c1
                  | None => c1
                  end in
        session.store_company company_id c2;;
        ret company_id
  end.

Definition mark_duplicate (company_id : UUID) (is_duplicate : bool) : M UUID :=
  company <- get_company company_id;;
  match company with
  | None => raise (ValueError (company_not_found company_id))
  | Some c =>
      session.store_company company_id (set_is_duplicate is_duplicate c);;
      ret company_id
  end.

(** The [where] clauses shared by [list_companies] and [count_companies],
    once the status filter has been resolved to a member of the
    enumeration.  [ilike] is the operator of the database, applied to a
    column value and a pattern. *)
Definition company_filters (ilike : string -> string -> bool)
    (segment_id : option nat) (status_enum : option CompanyStatusEnum)
    (search : option string) (is_duplicate : option bool) (c : Company)
    : bool :=
  match segment_id with
  | Some s => bool_decide (company_model.segment_id c = s)
  | None => true
  end
  && match status_enum with
     | Some s => bool_decide (status c = s)
     | None => true
     end
  && match search with
     | Some q =>
         if pystr.truthy (pystr.strip q)
         then
           let escaped :=
             pystr.replace_char "_" "\_" (pystr.replace_char "%" "\%" q) in
           ilike (company_name (data c)) ("%" +:+ escaped +:+ "%")
         else true
     | None => true
     end
  && match is_duplicate with
     | Some b => bool_decide (company_model.is_duplicate c = b)
     | None => true
     end.


(** An invalid status filter makes [count_companies] return 0. *)
Definition count_companies (ilike : string -> string -> bool)
    (segment_id : option nat) (status_filter : option string)
    (search : option string) (is_duplicate : option bool) : M nat :=
  match status_filter with
  | Some raw =>
      match of_value raw with
      | Some s =>
          reads (fun db =>
            session.count_where
              (fun c => company_filters ilike segment_id (Some s) search
                          is_duplicate c = true)
              (companies db))
      | None => ret 0
      end
  | None =>
      reads (fun db =>
        session.count_where
          (fun c => company_filters ilike segment_id None search
                      is_duplicate c = true)
          (companies db))
  end.



Definition get_companies_by_segment (segment_id : nat) (skip limit : nat)
    : M (list (nat * Company)) :=
  reads (fun db =>
    session.offset_limit skip limit
      (session.order_by_desc created_at
         (session.select_where
            (fun c => company_model.segment_id c = segment_id) (companies db)))).

Definition get_company_contact_count (company_id : nat) : M nat :=
  reads (fun db =>
    session.count_where
      (fun c => contact_model.company_id c = company_id) (contacts db)).

End company_service.

(** ** [app/services/contact_service.py] *)

Module contact_service.

Import contact_model.
Open Scope py_scope.

Definition create_contact (data : contact_schema.ContactCreate)
    (created_by : UUID) (now : Time) : M UUID :=
  company <- company_service.get_company (contact_schema.company_id data);;
  match company with
  | None =>
      raise (ValueError (contact_company_not_found (contact_schema.company_id data)))
  | Some company =>
      session.add_contact
        {| data := contact_schema.base data;
           company_id := contact_schema.company_id data;
           segment_id := company_model.segment_id company;
           status := UPLOADED;
           assigned_sdr_id := None;
           is_duplicate := false;
           batch_id := None;
           created_by := created_by;
           created_at := now |}
  end.

Definition get_contact (contact_id : UUID) : M (option Contact) :=
  fun db => (Return (contacts db !! contact_id), db).

(** The assignments of [update_contact]; every field of [ContactUpdate] is
    an attribute of the row, so the [hasattr] test always passes. *)
Definition apply_update (u : contact_schema.ContactUpdate) (c : Contact)
    : option Contact :=
  let d := data c in
  match updated_not_null (contact_schema.u_first_name u) (first_name d),
        updated_not_null (contact_schema.u_last_name u) (last_name d),
        updated_not_null (contact_schema.u_email u) (email d),
        updated_not_null (contact_schema.u_company_id u) (company_id c) with
  | Some fn, Some ln, Some em, Some cid =>
      Some (set_data
        {| first_name := fn;
           last_name := ln;
           email := em;
           mobile_phone := updated (contact_schema.u_mobile_phone u) (mobile_phone d);
           job_title := updated (contact_schema.u_job_title u) (job_title d);
           direct_phone_number := updated (contact_schema.u_direct_phone_number u) (direct_phone_number d);
           email_address_2 := updated (contact_schema.u_email_address_2 u) (email_address_2 d);
           email_active_status := updated (contact_schema.u_email_active_status u) (email_active_status d);
           lead_source_global := updated (contact_schema.u_lead_source_global u) (lead_source_global d);
           management_level := updated (contact_schema.u_management_level u) (management_level d);
           street := updated (contact_schema.u_street u) (street d);
           city := updated (contact_schema.u_city u) (city d);
           state_province := updated (contact_schema.u_state_province u) (state_province d);
           country_region := updated (contact_schema.u_country_region u) (country_region d);
           zip_postal_code := updated (contact_schema.u_zip_postal_code u) (zip_postal_code d);
           primary_time_zone := updated (contact_schema.u_primary_time_zone u) (primary_time_zone d);
           contact_linkedin_url := updated (contact_schema.u_contact_linkedin_url u) (contact_linkedin_url d);
           linkedin_summary := updated (contact_schema.u_linkedin_summary u) (linkedin_summary d);
           data_requester_details := updated (contact_schema.u_data_requester_details u) (data_requester_details d) |}
        cid c)
  | _, _, _, _ => None
  end.

Definition update_contact (contact_id : UUID)
    (data : contact_schema.ContactUpdate) : M UUID :=
  contact <- get_contact contact_id;;
  match contact with
  | None => raise (ValueError (contact_not_found contact_id))
  | Some c =>
      match apply_update data c with
      | Some c' => session.store_contact contact_id c';; ret contact_id
      | None => raise (IntegrityError "null value violates not-null constraint")
      end
  end.

Definition approve_contact (contact_id : UUID)
    (approval : contact_schema.ContactApproval) : M UUID :=
  contact <- get_contact contact_id;;
  match contact with
  | None => raise (ValueError (contact_not_found contact_id))
  | Some c =>
      if decide (contact_schema.status approval <> APPROVED)
      then raise (ValueError approval_status_must_be_approved)
      else if decide (status c <> UPLOADED)
      then raise (ValueError (cannot_approve_contact (status c)))
      else
        session.store_contact contact_id (set_status APPROVED c);;
        ret contact_id
  end.

Definition assign_to_sdr (contact_id : UUID) (sdr_id : UUID) : M UUID :=
  contact <- get_contact contact_id;;
  match contact with
  | None => raise (ValueError (contact_not_found contact_id))
  | Some c =>
      if decide (status c <> APPROVED)
      then raise (ValueError (cannot_assign_contact (status c)))
      else
        session.store_contact contact_id
          (set_status ASSIGNED_TO_SDR (set_assigned_sdr_id sdr_id c));;
        ret contact_id
  end.

(** The loop of [bulk_assign_to_sdr], with the list built so far. *)
Fixpoint bulk_assign_loop (contact_ids : list UUID) (sdr_id : UUID)
    (updated_contacts : list UUID) : M (list UUID) :=
  match contact_ids with
  | [] => ret updated_contacts
  | contact_id :: rest =>
      contact <- assign_to_sdr contact_id sdr_id;;
      bulk_assign_loop rest sdr_id (updated_contacts ++ [contact])
  end.

Definition bulk_assign_to_sdr (contact_ids : list UUID) (sdr_id : UUID)
    : M (list UUID) :=
  bulk_assign_loop contact_ids sdr_id [].

Definition mark_meeting_scheduled (contact_id : UUID) : M UUID :=
  contact <- get_contact contact_id;;
  match contact with
  | None => raise (ValueError (contact_not_found contact_id))
  | Some c =>
      if decide (status c <> ASSIGNED_TO_SDR)
      then raise (ValueError (cannot_mark_meeting_scheduled (status c)))
      else
        session.store_contact contact_id (set_status MEETING_SCHEDULED c);;
        ret contact_id
  end.

Definition mark_duplicate (contact_id : UUID) (is_duplicate : bool) : M UUID :=
  contact <- get_contact contact_id;;
  match contact with
  | None => raise (ValueError (contact_not_found contact_id))
  | Some c =>
      session.store_contact contact_id (set_is_duplicate is_duplicate c);;
      ret contact_id
  end.

(** The [where] clauses shared by [list_contacts] and [count_contacts].  A
    filter that is null, or falsy for the filters tested by truth value, is
    not applied; a status filter that names no member of the enumeration is
    ignored. *)
Definition contact_filters (ilike : string -> string -> bool)
    (company_id segment_id : option nat) (status_filter search : option string)
    (assigned_sdr_id : option nat) (is_duplicate : option bool) (c : Contact)
    : bool :=
  match company_id with
  | Some x => bool_decide (contact_model.company_id c = x)
  | None => true
  end
  && match segment_id with
     | Some x => bool_decide (contact_model.segment_id c = x)
     | None => true
     end
  && match status_filter with
     | Some raw =>
         if pystr.truthy raw then
           match of_value raw with
           | Some s => bool_decide (status c = s)
           | None => true
           end
         else true
     | None => true
     end
  && match assigned_sdr_id with
     | Some x => bool_decide (contact_model.assigned_sdr_id c = Some x)
     | None => true
     end
  && match is_duplicate with
     | Some b => bool_decide (contact_model.is_duplicate c = b)
     | None => true
     end
  && match search with
     | Some q =>
         if pystr.truthy q then
           let search_pattern := "%" +:+ q +:+ "%" in
           ilike (first_name (data c)) search_pattern
           || ilike (last_name (data c)) search_pattern
           || ilike (email (data c)) search_pattern
         else true
     | None => true
     end.

Definition list_contacts (ilike : string -> string -> bool)
    (skip limit : nat) (company_id segment_id : option nat)
    (status_filter search : option string) (assigned_sdr_id : option nat)
    (is_duplicate : option bool) : M (list (nat * Contact)) :=
  reads (fun db =>
    session.offset_limit skip limit
      (session.order_by_desc created_at
         (session.select_where
            (fun c => contact_filters ilike company_id segment_id status_filter
                        search assigned_sdr_id is_duplicate c = true)
            (contacts db)))).

Definition count_contacts (ilike : string -> string -> bool)
    (company_id segment_id : option nat)
    (status_filter search : option string) (assigned_sdr_id : option nat)
    (is_duplicate : option bool) : M nat :=
  reads (fun db =>
    session.count_where
      (fun c => contact_filters ilike company_id segment_id status_filter
                  search assigned_sdr_id is_duplicate c = true)
      (contacts db)).

Definition get_contacts_by_company (ilike : string -> string -> bool)
    (company_id : nat) (skip limit : nat) : M (list (nat * Contact)) :=
  list_contacts ilike skip limit (Some company_id) None None None None None.

Definition get_contacts_by_sdr (ilike : string -> string -> bool)
    (sdr_id : nat) (skip limit : nat) : M (list (nat * Contact)) :=
  list_contacts ilike skip limit None None None None (Some sdr_id) None.

End contact_service.

(** ** [app/services/upload_service.py] *)

Module upload_service.

Import upload_batch_model.
Open Scope py_scope.

Record UploadError : Type := {
  row_number : nat;
  field : string;
  error : string
}.

(** One row produced by [csv.DictReader]: a dictionary from the column
    names of the header to the cell, [None] for a cell that the line is too
    short to have. *)
Definition CsvRow : Type := gmap string (option string).

(** The uploaded file: its name, the length of its content and the rows
    that [csv.DictReader] yields for the decoded content. *)
Record UploadFile : Type := {
  filename : option string;
  size : nat;
  csv_rows : list CsvRow
}.

(** [file.filename or "unknown.csv"] *)
Definition file_name_or_unknown (file : UploadFile) : string :=
  match filename file with
  | Some n => if pystr.truthy n then n else "unknown.csv"
  | None => "unknown.csv"
  end.

Definition create_batch (upload_type : UploadTypeEnum) (file_name : string)
    (file_size_bytes : nat) (uploaded_by : UUID) (now : Time) : M UUID :=
  session.add_upload_batch
    {| upload_type := upload_type;
       file_name := file_name;
       file_size_bytes := file_size_bytes;
       total_rows := 0;
       valid_rows := 0;
       invalid_rows := 0;
       status := PROCESSING;
       uploaded_by := uploaded_by;
       created_at := now |}.

Definition company_schema_fields : list string :=
  [ "company_name"; "company_website"; "company_phone"; "company_description";
    "company_linkedin_url"; "company_industry"; "company_sub_industry";
    "street"; "city"; "state_province"; "country_region"; "zip_postal_code";
    "founded_year"; "revenue_range"; "employee_size_range" ].

Definition contact_schema_fields : list string :=
  [ "first_name"; "last_name"; "email"; "mobile_phone"; "job_title";
    "direct_phone_number"; "email_address_2"; "email_active_status";
    "lead_source_global"; "management_level"; "street"; "city";
    "state_province"; "country_region"; "zip_postal_code"; "primary_time_zone";
    "contact_linkedin_url"; "linkedin_summary"; "data_requester_details" ].

(** A cell after [value.strip()] and the conversion of [''] to [None]. *)
Definition clean_cell (value : option string) : option string :=
  match value with
  | Some v =>
      let v' := pystr.strip v in
      if decide (v' = "") then None else Some v'
  | None => None
  end.

(** [filtered_row]: the cells of the schema's columns, cleaned. *)
Definition filtered_row (schema_fields : list string) (row : CsvRow)
    : pydantic.Kwargs :=
  clean_cell <$> filter (fun kv => kv.1 ∈ schema_fields) row.

(** [error['loc'][0] if error['loc'] else 'unknown'] *)
Definition error_field (e : pydantic.ErrorDetails) : string :=
  match pydantic.loc e with
  | f :: _ => f
  | [] => "unknown"
  end.

Definition row_errors (row_number : nat) (errs : list pydantic.ErrorDetails)
    : list UploadError :=
  map (fun e => {| row_number := row_number; field := error_field e;
                   error := pydantic.msg e |}) errs.

(** The local variables of the ingestion loops. *)
Record Counters : Type := {
  errors : list UploadError;
  n_total : nat;
  n_valid : nat;
  n_invalid : nat
}.

Definition no_rows : Counters :=
  {| errors := []; n_total := 0; n_valid := 0; n_invalid := 0 |}.

(** [total_rows += 1] *)
Definition count_row (st : Counters) : Counters :=
  {| errors := errors st; n_total := S (n_total st); n_valid := n_valid st;
     n_invalid := n_invalid st |}.

(** [valid_rows += 1] *)
Definition count_valid (st : Counters) : Counters :=
  {| errors := errors st; n_total := n_total st; n_valid := S (n_valid st);
     n_invalid := n_invalid st |}.

(** [invalid_rows += 1], then the [errors.append] calls of the branch. *)
Definition count_invalid (errs : list UploadError) (st : Counters) : Counters :=
  {| errors := errors st ++ errs; n_total := n_total st;
     n_valid := n_valid st; n_invalid := S (n_invalid st) |}.

(** The assignments to the batch that follow an ingestion loop. *)
Definition close_batch (batch : UUID) (st : Counters) : M unit :=
  db <- get_db;;
  match upload_batches db !! batch with
  | Some b =>
      session.store_upload_batch batch
        (set_statistics (n_total st) (n_valid st) (n_invalid st)
           (if decide (n_invalid st = 0) then COMPLETED else FAILED) b)
  | None => ret tt
  end.

(** *** Duplicate detection

    [detect_company_duplicates] and [detect_contact_duplicates] are the same
    loop over two tables; the loop is written once, over the table, the key
    and the flag. *)

Section detection_loop.

Context {A : Type}.
Variable key_of : A -> string.
Variable flag : A -> bool.
Variable set_flag : bool -> A -> A.

(** The body of the loop for the row behind [ref].  The state is the table,
    the dictionary [seen] and the counter [duplicates_marked]. *)
Definition detect_step (st : list A * gmap string UUID * nat) (ref : UUID)
    : list A * gmap string UUID * nat :=
  let '(table, seen, duplicates_marked) := st in
  match table !! ref with
  | None => st
  | Some x =>
      let key := key_of x in
      if decide (is_Some (seen !! key)) then
        if negb (flag x)
        then (<[ref := set_flag true x]> table, seen, S duplicates_marked)
        else st
      else
        let seen' := <[key := ref]> seen in
        if flag x
        then (<[ref := set_flag false x]> table, seen', duplicates_marked)
        else (table, seen', duplicates_marked)
  end.

Definition detect_loop (refs : list UUID) (table : list A)
    : list A * gmap string UUID * nat :=
  foldl detect_step (table, ∅, 0) refs.

End detection_loop.

(** [x.lower().strip() if x else ''] for a [str]. *)
Definition normalized (x : string) : string :=
  if pystr.truthy x then pystr.strip (pystr.lower x) else "".

(** The same for a [str | None]. *)
Definition normalized_opt (x : option string) : string :=
  match x with Some v => normalized v | None => "" end.

(** [f"{name_key}||{website_key}"] *)
Definition company_key (c : company_model.Company) : string :=
  let name_key := normalized (company_model.company_name (company_model.data c)) in
  let website_key :=
    normalized_opt (company_model.company_website (company_model.data c)) in
  name_key +:+ "||" +:+ website_key.

Definition contact_key (c : contact_model.Contact) : string :=
  normalized (contact_model.email (contact_model.data c)).

(** The companies of a segment, oldest first. *)
Definition companies_of_segment (segment_id : UUID)
    (table : list company_model.Company) : list UUID :=
  (session.query (fun c => company_model.segment_id c = segment_id)
     company_model.created_at table).*1.

(** The contacts of a company, oldest first. *)
Definition contacts_of_company (company_id : UUID)
    (table : list contact_model.Contact) : list UUID :=
  (session.query (fun c => contact_model.company_id c = company_id)
     contact_model.created_at table).*1.

Definition detect_company_duplicates (segment_id : UUID) : M nat :=
  db <- get_db;;
  let table := companies db in
  let companies := companies_of_segment segment_id table in
  let '(table', _, duplicates_marked) :=
    detect_loop company_key company_model.is_duplicate
      company_model.set_is_duplicate companies table in
  put_db (with_companies table' db);;
  ret duplicates_marked.

Definition detect_contact_duplicates (company_id : UUID) : M nat :=
  db <- get_db;;
  let table := contacts db in
  let contacts := contacts_of_company company_id table in
  let '(table', _, duplicates_marked) :=
    detect_loop contact_key contact_model.is_duplicate
      contact_model.set_is_duplicate contacts table in
  put_db (with_contacts table' db);;
  ret duplicates_marked.

(** *** Company ingestion *)

(** The body of the loop of [process_company_csv] for one row.  [now] is
    the creation time the row receives when it is inserted.  The handler
    [except Exception] of the source is not reachable: the constructor of
    the schema raises nothing but [ValidationError]. *)
Definition company_row (int_of_str : string -> option Z)
    (segment_id created_by batch : UUID) (now : Time)
    (row_number : nat) (row : CsvRow) (st : Counters) : M Counters :=
  let st := count_row st in
  let filtered_row := filtered_row company_schema_fields row in
  match company_schema.validate_create int_of_str filtered_row segment_id with
  | inr company_data =>
      session.add_company
        {| company_model.data := company_schema.base company_data;
           company_model.segment_id := segment_id;
           company_model.status := company_model.PENDING;
           company_model.rejection_reason := None;
           company_model.is_duplicate := false;
           company_model.batch_id := Some batch;
           company_model.created_by := created_by;
           company_model.approved_by := None;
           company_model.approved_at := None;
           company_model.created_at := now |};;
      ret (count_valid st)
  | inl e =>
      ret (count_invalid (row_errors row_number e) st)
  end.

(** [for row_number, row in enumerate(csv_reader, start=...)]; [clock n] is
    the reading of the clock when the row numbered [n] is inserted. *)
Fixpoint company_rows (int_of_str : string -> option Z)
    (segment_id created_by batch : UUID) (clock : nat -> Time)
    (row_number : nat) (rows : list CsvRow) (st : Counters) : M Counters :=
  match rows with
  | [] => ret st
  | row :: rest =>
      st' <- company_row int_of_str segment_id created_by batch
               (clock row_number) row_number row st;;
      company_rows int_of_str segment_id created_by batch clock
        (S row_number) rest st'
  end.

(** [process_company_csv]; the result is the batch and the row errors.
    Line 1 of the file is the header: [clock 1] stamps the batch record. *)
Definition process_company_csv (int_of_str : string -> option Z)
    (file : UploadFile) (segment_id created_by : UUID) (clock : nat -> Time)
    : M (UUID * list UploadError) :=
  batch <- create_batch COMPANY (file_name_or_unknown file) (size file)
             created_by (clock 1);;
  st <- company_rows int_of_str segment_id created_by batch clock 2
          (csv_rows file) no_rows;;
  close_batch batch st;;
  if decide (0 < n_valid st)
  then detect_company_duplicates segment_id;; ret (batch, errors st)
  else ret (batch, errors st).

(** *** Contact ingestion *)

(** [company_lookup]: the companies of the segment by normalised name; the
    query has no ordering and is read in storage order, a later company
    replacing an earlier one of the same name. *)
Definition build_company_lookup (segment_id : UUID)
    (table : list company_model.Company) : gmap string UUID :=
  foldl
    (fun lookup r =>
       <[pystr.strip (pystr.lower
           (company_model.company_name (company_model.data r.2))) := r.1]>
         lookup)
    ∅
    (session.select_where
       (fun c => company_model.segment_id c = segment_id) table).

(** The local variables of the loop of [process_contact_csv]: the counters
    and [contact_company_id], which survives the loop. *)
Record ContactLoop : Type := {
  counters : Counters;
  contact_company_id : option UUID
}.

(** The validation and staging of a contact row once its company is known.
    A contact staged without a segment is refused by the store (the column
    is NOT NULL). *)
Definition stage_contact (validate_email : string -> option string)
    (created_by batch : UUID) (now : Time) (row_number : nat)
    (filtered_row : pydantic.Kwargs)
    (contact_company_id : UUID) (contact_segment_id : option UUID)
    (st : Counters) : M ContactLoop :=
  match contact_schema.validate_create validate_email filtered_row
          contact_company_id with
  | inr contact_data =>
      match contact_segment_id with
      | Some seg =>
          session.add_contact
            {| contact_model.data := contact_schema.base contact_data;
               contact_model.company_id := contact_company_id;
               contact_model.segment_id := seg;
               contact_model.status := contact_model.UPLOADED;
               contact_model.assigned_sdr_id := None;
               contact_model.is_duplicate := false;
               contact_model.batch_id := Some batch;
               contact_model.created_by := created_by;
               contact_model.created_at := now |};;
          ret {| counters := count_valid st;
                 contact_company_id := Some contact_company_id |}
      | None =>
          raise (IntegrityError "null value in column segment_id")
      end
  | inl e =>
      ret {| counters := count_invalid (row_errors row_number e) st;
             contact_company_id := Some contact_company_id |}
  end.

(** The body of the loop of [process_contact_csv] for one row. *)
Definition contact_row (validate_email : string -> option string)
    (company_id segment_id : option UUID) (company_lookup : gmap string UUID)
    (created_by batch : UUID) (now : Time)
    (row_number : nat) (row : CsvRow) (st : Counters) : M ContactLoop :=
  let st := count_row st in
  let filtered_row := filtered_row contact_schema_fields row in
  match company_id with
  | Some contact_company_id =>
      stage_contact validate_email created_by batch now row_number
        filtered_row contact_company_id segment_id st
  | None =>
      match default (Some "") (row !! "company_name") with
      | None =>
          raise (AttributeError "'NoneType' object has no attribute 'strip'")
      | Some cell =>
          let company_name_raw := pystr.strip cell in
          if pystr.truthy company_name_raw then
            let company_name_key := pystr.lower company_name_raw in
            match company_lookup !! company_name_key with
            | Some matched_company =>
                db <- get_db;;
                stage_contact validate_email created_by batch now row_number
                  filtered_row matched_company
                  (company_model.segment_id <$> companies db !! matched_company)
                  st
            | None =>
                ret {| counters :=
                         count_invalid
                           [ {| row_number := row_number;
                                field := "company_name";
                                error := "Company '" +:+ company_name_raw
                                           +:+ "' not found in segment" |} ] st;
                       contact_company_id := None |}
            end
          else
            ret {| counters :=
                     count_invalid
                       [ {| row_number := row_number;
                            field := "company_name";
                            error := "company_name is required when company_id is not provided" |} ]
                       st;
                   contact_company_id := None |}
      end
  end.

Fixpoint contact_rows (validate_email : string -> option string)
    (company_id segment_id : option UUID) (company_lookup : gmap string UUID)
    (created_by batch : UUID) (clock : nat -> Time)
    (row_number : nat) (rows : list CsvRow) (st : ContactLoop)
    : M ContactLoop :=
  match rows with
  | [] => ret st
  | row :: rest =>
      st' <- contact_row validate_email company_id segment_id company_lookup
               created_by batch (clock row_number) row_number row
               (counters st);;
      contact_rows validate_email company_id segment_id company_lookup
        created_by batch clock (S row_number) rest st'
  end.

Definition process_contact_csv (validate_email : string -> option string)
    (file : UploadFile) (company_id segment_id : option UUID)
    (created_by : UUID) (clock : nat -> Time)
    : M (UUID * list UploadError) :=
  batch <- create_batch CONTACT (file_name_or_unknown file) (size file)
             created_by (clock 1);;
  db <- get_db;;
  let segment_id :=
    match company_id, segment_id with
    | Some cid, None => company_model.segment_id <$> companies db !! cid
    | _, _ => segment_id
    end in
  let company_lookup :=
    match segment_id, company_id with
    | Some seg, None => build_company_lookup seg (companies db)
    | _, _ => ∅
    end in
  st <- contact_rows validate_email company_id segment_id company_lookup
          created_by batch clock 2 (csv_rows file)
          {| counters := no_rows; contact_company_id := None |};;
  close_batch batch (counters st);;
  match decide (0 < n_valid (counters st)), contact_company_id st with
  | left _, Some cid =>
      detect_contact_duplicates cid;; ret (batch, errors (counters st))
  | _, _ => ret (batch, errors (counters st))
  end.

(** *** Reading the batches *)

#[global] Instance UploadTypeEnum_eq_dec : EqDecision UploadTypeEnum.
Proof. solve_decision. Defined.

Definition get_batch (batch_id : UUID) : M (option UploadBatch) :=
  reads (fun db => upload_batches db !! batch_id).

(** The [where] clauses shared by [list_batches] and [count_batches]. *)
Definition batch_filters (upload_type : option UploadTypeEnum)
    (status : option BatchStatusEnum) (b : UploadBatch) : bool :=
  match upload_type with
  | Some t => bool_decide (upload_batch_model.upload_type b = t)
  | None => true
  end
  && match status with
     | Some s => bool_decide (upload_batch_model.status b = s)
     | None => true
     end.

Definition list_batches (skip limit : nat)
    (upload_type : option UploadTypeEnum) (status : option BatchStatusEnum)
    : M (list (UUID * UploadBatch)) :=
  reads (fun db =>
    session.offset_limit skip limit
      (session.order_by_desc created_at
         (session.select_where
            (fun b => batch_filters upload_type status b = true)
            (upload_batches db)))).

Definition count_batches (upload_type : option UploadTypeEnum)
    (status : option BatchStatusEnum) : M nat :=
  reads (fun db =>
    session.count_where
      (fun b => batch_filters upload_type status b = true)
      (upload_batches db)).

End upload_service.

(** ** Calls and handlers ([app/routers]) *)

Module pycall.

(** The parameters of a [def], all positional-or-keyword, and how many of
    them have no default value. *)
Record Signature : Type := {
  params : list string;
  required : nat
}.

(** The binding of the arguments of a call to the parameters of the callee:
    the message of the [TypeError] when the call is refused. *)
Definition bind_arguments (f : string) (sg : Signature) (n_positional : nat)
    (keywords : list string) : option string :=
  if decide (length (params sg) < n_positional)
  then Some (f +:+ "() takes " +:+ pretty (length (params sg))
               +:+ " positional arguments but " +:+ pretty n_positional
               +:+ " were given")
  else
    match list_find (fun k => k ∉ params sg) keywords with
    | Some (_, k) =>
        Some (f +:+ "() got an unexpected keyword argument '" +:+ k +:+ "'")
    | None =>
        match list_find (fun k => k ∈ take n_positional (params sg)) keywords with
        | Some (_, k) =>
            Some (f +:+ "() got multiple values for argument '" +:+ k +:+ "'")
        | None =>
            match list_find (fun q => q ∉ keywords)
                    (drop n_positional (take (required sg) (params sg))) with
            | Some (_, q) =>
                Some (f +:+ "() missing 1 required positional argument: '"
                        +:+ q +:+ "'")
            | None => None
            end
        end
    end.

(** A call: the body runs only when the arguments bind. *)
Definition call {A} (f : string) (sg : Signature) (n_positional : nat)
    (keywords : list string) (body : M A) : M A :=
  match bind_arguments f sg n_positional keywords with
  | Some message => raise (TypeError message)
  | None => body
  end.

End pycall.

Inductive Response (A : Type) : Type :=
  | OK (body : A)
  | HTTPException (status_code : nat).
Arguments OK {A} body.
Arguments HTTPException {A} status_code.

(** The dictionary returned by [get_current_user]; its ["id"] entry is the
    text of a UUID read from the store, which [UUID(...)] parses back. *)
Record CurrentUser : Type := {
  user_id : UUID;
  user_email : string;
  user_roles : list string
}.

Module contacts_router.

(** [def approve_contact(db, contact_id, approval)] of the service. *)
Definition service_approve_contact : pycall.Signature :=
  {| pycall.params := ["db"; "contact_id"; "approval"]; pycall.required := 3 |}.

(** The handler of [POST /contacts/{contact_id}/approve].  The service is
    called with three positional arguments and [approved_by=user_id]. *)
Definition approve_contact (contact_id : UUID)
    (approval : contact_schema.ContactApproval) (current_user : CurrentUser)
    : DB -> Response UUID * DB :=
  fun db =>
    match pycall.call "approve_contact" service_approve_contact 3
            ["approved_by"]
            (contact_service.approve_contact contact_id approval) db with
    | (Return contact, db') => (OK contact, db')
    | (Raise (ValueError _), db') => (HTTPException 400, db')
    | (Raise _, db') => (HTTPException 500, db')
    end.

End contacts_router.

Module companies_router.

(** [def approve_company(db, company_id, approval, approved_by=None)]. *)
Definition service_approve_company : pycall.Signature :=
  {| pycall.params := ["db"; "company_id"; "approval"; "approved_by"];
     pycall.required := 3 |}.

(** The handler of [POST /companies/{company_id}/approve].  The framework
    validates the body into a [CompanyApproval] before the handler runs and
    answers 422 when that fails; the handler calls the service with the
    keywords [db], [company_id] and [approval]. *)
Definition approve_company (company_id : UUID)
    (body : company_schema.ApprovalBody) (now : Time)
    : DB -> Response UUID * DB :=
  fun db =>
    match company_schema.validate_approval body with
    | inl _ => (HTTPException 422, db)
    | inr approval =>
        match pycall.call "approve_company" service_approve_company 0
                ["db"; "company_id"; "approval"]
                (company_service.approve_company company_id approval None now)
                db with
        | (Return company, db') => (OK company, db')
        | (Raise (ValueError m), db') =>
            if is_not_found (ValueError m)
            then (HTTPException 404, db')
            else (HTTPException 400, db')
        | (Raise _, db') => (HTTPException 500, db')
        end
    end.

End companies_router.

(** ** [app/core/deps.py]

    The dictionary that [get_current_user] builds from the token and the
    [users] table is an input here; the two checks that the handlers depend
    on are functions of it. *)

Module deps.




End deps.

(** ** [app/routers/uploads.py] *)

Module uploads_router.







End uploads_router.

(** ** Operations on the store

    The operations that the specification quantifies over, and the store
    that each leaves behind (whether it returns or raises). *)

Inductive Operation : Type :=
  | create_company (data : company_schema.CompanyCreate) (created_by : UUID)
      (now : Time)
  | update_company (company_id : UUID) (data : company_schema.CompanyUpdate)
  | approve_company (company_id : UUID) (body : company_schema.ApprovalBody)
      (approved_by : option UUID) (now : Time)
  | mark_company_duplicate (company_id : UUID) (is_duplicate : bool)
  | process_company_csv (file : upload_service.UploadFile)
      (segment_id created_by : UUID) (clock : nat -> Time)
  | detect_company_duplicates (segment_id : UUID)
  | create_contact (data : contact_schema.ContactCreate) (created_by : UUID)
      (now : Time)
  | update_contact (contact_id : UUID) (data : contact_schema.ContactUpdate)
  | approve_contact (contact_id : UUID)
      (approval : contact_schema.ContactApproval)
  | assign_to_sdr (contact_id sdr_id : UUID)
  | bulk_assign_to_sdr (contact_ids : list UUID) (sdr_id : UUID)
  | mark_meeting_scheduled (contact_id : UUID)
  | mark_contact_duplicate (contact_id : UUID) (is_duplicate : bool)
  | process_contact_csv (file : upload_service.UploadFile)
      (company_id segment_id : option UUID) (created_by : UUID)
      (clock : nat -> Time)
  | detect_contact_duplicates (company_id : UUID).

(** The store after a computation. *)
Definition exec {A} (m : M A) (db : DB) : DB := (m db).2.

(** The result of a computation. *)
Definition eval {A} (m : M A) (db : DB) : Result A := (m db).1.

(** An approval reaches the service only as a validated [CompanyApproval]. *)
Definition run (int_of_str : string -> option Z)
    (validate_email : string -> option string) (op : Operation) (db : DB)
    : DB :=
  match op with
  | create_company data created_by now =>
      exec (company_service.create_company data created_by now) db
  | update_company company_id data =>
      exec (company_service.update_company company_id data) db
  | approve_company company_id body approved_by now =>
      match company_schema.validate_approval body with
      | inr approval =>
          exec (company_service.approve_company company_id approval
                  approved_by now) db
      | inl _ => db
      end
  | mark_company_duplicate company_id is_duplicate =>
      exec (company_service.mark_duplicate company_id is_duplicate) db
  | process_company_csv file segment_id created_by clock =>
      exec (upload_service.process_company_csv int_of_str file segment_id
              created_by clock) db
  | detect_company_duplicates segment_id =>
      exec (upload_service.detect_company_duplicates segment_id) db
  | create_contact data created_by now =>
      exec (contact_service.create_contact data created_by now) db
  | update_contact contact_id data =>
      exec (contact_service.update_contact contact_id data) db
  | approve_contact contact_id approval =>
      exec (contact_service.approve_contact contact_id approval) db
  | assign_to_sdr contact_id sdr_id =>
      exec (contact_service.assign_to_sdr contact_id sdr_id) db
  | bulk_assign_to_sdr contact_ids sdr_id =>
      exec (contact_service.bulk_assign_to_sdr contact_ids sdr_id) db
  | mark_meeting_scheduled contact_id =>
      exec (contact_service.mark_meeting_scheduled contact_id) db
  | mark_contact_duplicate contact_id is_duplicate =>
      exec (contact_service.mark_duplicate contact_id is_duplicate) db
  | process_contact_csv file company_id segment_id created_by clock =>
      exec (upload_service.process_contact_csv validate_email file company_id
              segment_id created_by clock) db
  | detect_contact_duplicates company_id =>
      exec (upload_service.detect_contact_duplicates company_id) db
  end.

(** The store after a sequence of operations. *)
Definition run_all (int_of_str : string -> option Z)
    (validate_email : string -> option string) (ops : list Operation)
    (db : DB) : DB :=
  foldl (fun db op => run int_of_str validate_email op db) db ops.

(** ** Vocabulary of the statements *)

(** The flags that a scan gives to the keys of [keys], in order, when it
    starts with the keys of [seen] already met: a key is flagged when it was
    met before. *)
Fixpoint expected_flags (seen : gset string) (keys : list string) : list bool :=
  match keys with
  | [] => []
  | k :: keys' =>
      bool_decide (k ∈ seen) :: expected_flags ({[k]} ∪ seen) keys'
  end.

(** The order that [order_by] establishes on rows. *)
Definition by_key {A} (key : A -> Time) : relation (UUID * A) :=
  fun r1 r2 => key r1.2 <= key r2.2.

(** Two loaded rows that are the same row and differ at most in the flag. *)
Definition reflagged {A} (set_flag : bool -> A -> A) : relation (UUID * A) :=
  fun r r' => r'.1 = r.1 /\ exists b, r'.2 = set_flag b r.2.

(** A detection run over a table: the query, then the loop over its rows. *)
Definition scan {A} (P : A -> Prop) `{forall x, Decision (P x)}
    (key : A -> Time) (key_of : A -> string) (flag : A -> bool)
    (set_flag : bool -> A -> A) (table : list A)
    : list A * gmap string UUID * nat :=
  upload_service.detect_loop key_of flag set_flag
    (session.query P key table).*1 table.

(** Errors that belong to the rows numbered from [lo] up to, and not
    including, [hi], listed in the order of the rows. *)
Definition errors_in_row_order (lo hi : nat)
    (errs : list upload_service.UploadError) : Prop :=
  Forall (fun e => lo <= upload_service.row_number e < hi) errs
  /\ StronglySorted
       (fun a b => upload_service.row_number a <= upload_service.row_number b)
       errs.

(** What the specification promises of a closed batch and of the errors
    returned with it. *)
Definition batch_consistent (file : upload_service.UploadFile)
    (b : upload_batch_model.UploadBatch)
    (errs : list upload_service.UploadError) : Prop :=
  upload_batch_model.total_rows b
  = upload_batch_model.valid_rows b + upload_batch_model.invalid_rows b
  /\ upload_batch_model.total_rows b = length (upload_service.csv_rows file)
  /\ (upload_batch_model.status b = upload_batch_model.COMPLETED
      <-> upload_batch_model.invalid_rows b = 0)
  /\ (upload_batch_model.status b = upload_batch_model.FAILED
      <-> 0 < upload_batch_model.invalid_rows b)
  /\ errors_in_row_order 2 (2 + length (upload_service.csv_rows file)) errs.

(** The invariant of the company table: a company is rejected exactly when
    it has a non-empty rejection reason; it is pending or approved exactly
    when it has none. *)
Definition company_invariant (c : company_model.Company) : Prop :=
  (company_model.status c = company_model.REJECTED
   <-> pystr.truthy_opt (company_model.rejection_reason c) = true)
  /\ (company_model.status c = company_model.PENDING
      \/ company_model.status c = company_model.APPROVED
      <-> pystr.truthy_opt (company_model.rejection_reason c) = false).

(** A status that is the same or the next stage of the pipeline. *)
Definition advances (s s' : contact_model.ContactStatusEnum) : Prop :=
  contact_model.stage s <= contact_model.stage s'
  /\ contact_model.stage s' <= S (contact_model.stage s).

(** Every contact of [db] is still in [db'], its status the same or later. *)
Definition contacts_progress (db db' : DB) : Prop :=
  forall i c,
    contacts db !! i = Some c ->
    exists c',
      contacts db' !! i = Some c'
      /\ contact_model.stage (contact_model.status c)
         <= contact_model.stage (contact_model.status c').

(** The same, with at most one stage gained. *)
Definition contacts_step (db db' : DB) : Prop :=
  forall i c,
    contacts db !! i = Some c ->
    exists c',
      contacts db' !! i = Some c'
      /\ advances (contact_model.status c) (contact_model.status c').

(** The order that [order_by(... .desc())] establishes on rows. *)
Definition newest_first {A} (key : A -> nat) : relation (nat * A) :=
  fun r1 r2 => key r2.2 <= key r1.2.

(** What an operation may do to the decision on the company stored under
    [i]: nothing, or, when the operation is a validated decision of
    [approve_company] for a company that is pending, record that decision. *)
Definition decision_step (op : Operation) (i : nat)
    (c c' : company_model.Company) : Prop :=
  (company_model.status c' = company_model.status c
   /\ company_model.rejection_reason c' = company_model.rejection_reason c)
  \/ (company_model.status c = company_model.PENDING
      /\ company_model.status c' <> company_model.PENDING
      /\ exists body approved_by now a,
           op = approve_company i body approved_by now
           /\ company_schema.validate_approval body = inr a
           /\ company_model.status c' = company_schema.status a
           /\ company_model.rejection_reason c'
              = company_schema.rejection_reason a).


Definition contact_update_unset : contact_schema.ContactUpdate :=
  {| contact_schema.u_first_name := None;
     contact_schema.u_last_name := None;
     contact_schema.u_email := None;
     contact_schema.u_mobile_phone := None;
     contact_schema.u_job_title := None;
     contact_schema.u_direct_phone_number := None;
     contact_schema.u_email_address_2 := None;
     contact_schema.u_email_active_status := None;
     contact_schema.u_lead_source_global := None;
     contact_schema.u_management_level := None;
     contact_schema.u_street := None;
     contact_schema.u_city := None;
     contact_schema.u_state_province := None;
     contact_schema.u_country_region := None;
     contact_schema.u_zip_postal_code := None;
     contact_schema.u_primary_time_zone := None;
     contact_schema.u_contact_linkedin_url := None;
     contact_schema.u_linkedin_summary := None;
     contact_schema.u_data_requester_details := None;
     contact_schema.u_company_id := None |}.

(** A value that is null or consists of white space only. *)
Definition blank (x : option string) : Prop :=
  match x with
  | Some v => pystr.strip v = ""
  | None => True
  end.

(** ** Sample rows *)

(** A company with the given name, website, segment, status, rejection
    reason and creation time, and no other column filled in. *)
Definition sample_company (name : string) (website : option string)
    (segment_id : UUID) (status : company_model.CompanyStatusEnum)
    (rejection_reason : option string) (created_at : Time)
    : company_model.Company :=
  {| company_model.data :=
       {| company_model.company_name := name;
          company_model.company_website := website;
          company_model.company_phone := None;
          company_model.company_description := None;
          company_model.company_linkedin_url := None;
          company_model.company_industry := None;
          company_model.company_sub_industry := None;
          company_model.street := None;
          company_model.city := None;
          company_model.state_province := None;
          company_model.country_region := None;
          company_model.zip_postal_code := None;
          company_model.founded_year := None;
          company_model.revenue_range := None;
          company_model.employee_size_range := None |};
     company_model.segment_id := segment_id;
     company_model.status := status;
     company_model.rejection_reason := rejection_reason;
     company_model.is_duplicate := false;
     company_model.batch_id := None;
     company_model.created_by := 0;
     company_model.approved_by := None;
     company_model.approved_at := None;
     company_model.created_at := created_at |}.

(** A contact with the given email, company, segment, status and creation
    time. *)
Definition sample_contact (email : string) (company_id segment_id : UUID)
    (status : contact_model.ContactStatusEnum) (created_at : Time)
    : contact_model.Contact :=
  {| contact_model.data :=
       {| contact_model.first_name := "Ann";
          contact_model.last_name := "Lee";
          contact_model.email := email;
          contact_model.mobile_phone := None;
          contact_model.job_title := None;
          contact_model.direct_phone_number := None;
          contact_model.email_address_2 := None;
          contact_model.email_active_status := None;
          contact_model.lead_source_global := None;
          contact_model.management_level := None;
          contact_model.street := None;
          contact_model.city := None;
          contact_model.state_province := None;
          contact_model.country_region := None;
          contact_model.zip_postal_code := None;
          contact_model.primary_time_zone := None;
          contact_model.contact_linkedin_url := None;
          contact_model.linkedin_summary := None;
          contact_model.data_requester_details := None |};
     contact_model.company_id := company_id;
     contact_model.segment_id := segment_id;
     contact_model.status := status;
     contact_model.assigned_sdr_id := None;
     contact_model.is_duplicate := false;
     contact_model.batch_id := None;
     contact_model.created_by := 0;
     contact_model.created_at := created_at |}.

(** Segment 7 holds Acme twice, in different letter case, around Globex;
    company 0 holds the same address twice. *)
Definition sample_db : DB :=
  {| companies :=
       [ sample_company "Acme" (Some "acme.com") 7 company_model.PENDING None 1;
         sample_company "Globex" None 7 company_model.PENDING None 2;
         sample_company " ACME " (Some "ACME.com") 7 company_model.PENDING None 3 ];
     contacts :=
       [ sample_contact "ann@acme.com" 0 7 contact_model.UPLOADED 4;
         sample_contact "Ann@Acme.com" 0 7 contact_model.UPLOADED 5 ];
     upload_batches := [] |}.

(** Stand-ins for the two coercions of the validation library, used to run
    the ingestion on sample files: a decimal numeral, and an address that
    contains an at sign. *)
Definition sample_int_of_str (s : string) : option Z :=
  Z.of_int <$> NilEmpty.int_of_string s.

Definition sample_validate_email (s : string) : option string :=
  match String.index 0 "@" s with
  | Some _ => Some s
  | None => None
  end.

(** A company file of three rows, the first and the third for the same
    company; the second file has a row without a name and a row whose year
    is out of range. *)
Definition sample_company_file : upload_service.UploadFile :=
  {| upload_service.filename := Some "companies.csv";
     upload_service.size := 120;
     upload_service.csv_rows :=
       [ list_to_map [("company_name", Some "Acme"); ("company_website", Some "acme.com")];
         list_to_map [("company_name", Some "Globex"); ("company_website", Some "")];
         list_to_map [("company_name", Some "Acme"); ("company_website", Some "acme.com")] ] |}.

Definition sample_company_file_with_errors : upload_service.UploadFile :=
  {| upload_service.filename := Some "companies.csv";
     upload_service.size := 120;
     upload_service.csv_rows :=
       [ list_to_map [("company_name", Some "  "); ("founded_year", Some "1999")];
         list_to_map [("company_name", Some "Initech"); ("founded_year", Some "1999")];
         list_to_map [("company_name", None); ("founded_year", Some "1492")] ] |}.

(** Segment 7 with the companies Acme (0) and Globex (1); Acme already has
    the contact ann@acme.com. *)
Definition sample_db_two_companies : DB :=
  {| companies :=
       [ sample_company "Acme" (Some "acme.com") 7 company_model.APPROVED None 1;
         sample_company "Globex" None 7 company_model.APPROVED None 2 ];
     contacts :=
       [ sample_contact "ann@acme.com" 0 7 contact_model.UPLOADED 3 ];
     upload_batches := [] |}.

Definition sample_contact_row (company_name email : string)
    : upload_service.CsvRow :=
  list_to_map
    [ ("first_name", Some "Ann"); ("last_name", Some "Lee");
      ("email", Some email); ("company_name", Some company_name) ].

(** A contact file for the segment: a contact of Acme whose address differs
    from an existing one in letter case only, then a contact of Globex. *)
Definition sample_contact_file : upload_service.UploadFile :=
  {| upload_service.filename := Some "contacts.csv";
     upload_service.size := 150;
     upload_service.csv_rows :=
       [ sample_contact_row "Acme" "Ann@Acme.com";
         sample_contact_row "Globex" "bob@globex.com" ] |}.

(** The same contact of Acme, followed by a row for an unknown company. *)
Definition sample_contact_file_unmatched : upload_service.UploadFile :=
  {| upload_service.filename := Some "contacts.csv";
     upload_service.size := 150;
     upload_service.csv_rows :=
       [ sample_contact_row "Acme" "Ann@Acme.com";
         sample_contact_row "Initrode" "carl@initrode.com" ] |}.

(** * Theorems *)

(** ** Queries *)

Section query_facts.

Context {A : Type} (P : A -> Prop) `{!forall x, Decision (P x)}.
Variable key : A -> Time.

Lemma rows_lookup (table : list A) (i : nat) :
  session.rows table !! i = (fun x => (i, x)) <$> table !! i.
Proof. unfold session.rows. by rewrite list_lookup_imap. Qed.

Lemma elem_of_rows (table : list A) (r : UUID * A) :
  r ∈ session.rows table <-> table !! r.1 = Some r.2.
Proof.
  unfold session.rows. rewrite elem_of_lookup_imap. split.
  - intros (i & x & -> & Hx). done.
  - intros Hr. exists r.1, r.2. by destruct r.
Qed.

Lemma rows_fst (table : list A) :
  (session.rows table).*1 = seq 0 (length table).
Proof.
  unfold session.rows. rewrite fmap_imap.
  transitivity (id <$> seq 0 (length table)); [|apply list_fmap_id].
  rewrite <- imap_seq_0. by apply imap_ext.
Qed.

Lemma insert_sorted_perm (r : UUID * A) (l : list (UUID * A)) :
  session.insert_sorted key r l ≡ₚ r :: l.
Proof.
  induction l as [|r' l IH]; simpl; [done|].
  case_decide; [|done]. rewrite IH. apply Permutation_swap.
Qed.

Lemma order_by_asc_perm_acc (l acc : list (UUID * A)) :
  foldl (fun acc r => session.insert_sorted key r acc) acc l ≡ₚ acc ++ l.
Proof.
  revert acc. induction l as [|r l IH]; intros acc; simpl.
  - by rewrite app_nil_r.
  - rewrite IH, insert_sorted_perm. simpl. apply Permutation_middle.
Qed.

Lemma order_by_asc_perm (l : list (UUID * A)) :
  session.order_by_asc key l ≡ₚ l.
Proof. apply (order_by_asc_perm_acc l []). Qed.

Lemma insert_sorted_sorted (r : UUID * A) (l : list (UUID * A)) :
  StronglySorted (by_key key) l -> StronglySorted (by_key key) (session.insert_sorted key r l).
Proof.
  induction 1 as [|r' l Hl IH Hall]; simpl.
  - repeat constructor.
  - case_decide as Hle.
    + constructor; [done|].
      eapply Forall_forall. intros y Hy.
      rewrite insert_sorted_perm in Hy.
      apply elem_of_cons in Hy as [->|Hy]; [done|].
      by eapply Forall_forall in Hall.
    + constructor; [by constructor|].
      constructor; [unfold by_key; lia|].
      eapply Forall_impl; [exact Hall|]. unfold by_key. intros; simpl in *. lia.
Qed.

Lemma order_by_asc_sorted_acc (l acc : list (UUID * A)) :
  StronglySorted (by_key key) acc ->
  StronglySorted (by_key key)
    (foldl (fun acc r => session.insert_sorted key r acc) acc l).
Proof.
  revert acc. induction l as [|r l IH]; intros acc Hacc; simpl; [done|].
  apply IH. by apply insert_sorted_sorted.
Qed.

Lemma order_by_asc_sorted (l : list (UUID * A)) :
  StronglySorted (by_key key) (session.order_by_asc key l).
Proof. apply order_by_asc_sorted_acc. constructor. Qed.

Lemma elem_of_query (table : list A) (r : UUID * A) :
  r ∈ session.query P key table <-> table !! r.1 = Some r.2 /\ P r.2.
Proof.
  unfold session.query, session.select_where.
  rewrite order_by_asc_perm, list_elem_of_filter, elem_of_rows. tauto.
Qed.

Lemma query_resolves (table : list A) :
  Forall (fun r => table !! r.1 = Some r.2) (session.query P key table).
Proof. apply Forall_forall. intros r Hr. by apply elem_of_query in Hr as [? _]. Qed.

Lemma query_NoDup (table : list A) : NoDup (session.query P key table).*1.
Proof.
  unfold session.query. rewrite order_by_asc_perm. unfold session.select_where.
  apply (sublist_NoDup _ (session.rows table).*1).
  - rewrite rows_fst. apply NoDup_seq.
  - apply fmap_sublist, sublist_filter.
Qed.

Lemma query_sorted (table : list A) (p q : nat) (r1 r2 : UUID * A) :
  session.query P key table !! p = Some r1 ->
  session.query P key table !! q = Some r2 -> p < q ->
  key r1.2 <= key r2.2.
Proof.
  intros Hp Hq Hlt.
  pose proof (order_by_asc_sorted (session.select_where P table)) as Hs.
  fold (session.query P key table) in Hs.
  rewrite <- (take_drop_middle _ _ _ Hq) in Hs, Hp.
  apply StronglySorted_app_1_elem_of with (x1 := r1) (x2 := r2) in Hs; [done| |left].
  rewrite lookup_app_l in Hp.
  - by eapply list_elem_of_lookup_2.
  - rewrite length_take. apply lookup_lt_Some in Hq. lia.
Qed.

End query_facts.

(** ** The detection loop *)

Lemma expected_flags_length (seen : gset string) (keys : list string) :
  length (expected_flags seen keys) = length keys.
Proof. revert seen. induction keys as [|k keys IH]; intros seen; simpl; auto. Qed.

Lemma expected_flags_lookup (seen : gset string) (keys : list string)
    (p : nat) (k : string) :
  keys !! p = Some k ->
  expected_flags seen keys !! p = Some (bool_decide (k ∈ seen \/ k ∈ take p keys)).
Proof.
  revert seen p. induction keys as [|k0 keys IH]; intros seen p Hp; [done|].
  destruct p as [|p]; simpl in *.
  - simplify_eq. f_equal. apply bool_decide_ext.
    rewrite elem_of_nil. tauto.
  - rewrite (IH _ _ Hp). f_equal. apply bool_decide_ext.
    rewrite elem_of_union, elem_of_singleton, elem_of_cons. tauto.
Qed.

Section detection_facts.

Context {A : Type}.
Variable key_of : A -> string.
Variable flag : A -> bool.
Variable set_flag : bool -> A -> A.
Hypothesis key_of_set_flag : forall b x, key_of (set_flag b x) = key_of x.
Hypothesis flag_set_flag : forall b x, flag (set_flag b x) = b.
Hypothesis set_flag_flag : forall x, set_flag (flag x) x = x.

Lemma detect_step_eq (table : list A) (seen : gmap string UUID) (n : nat)
    (ref : UUID) (x : A) :
  table !! ref = Some x ->
  exists seen',
    upload_service.detect_step key_of flag set_flag (table, seen, n) ref
    = (<[ref := set_flag (bool_decide (key_of x ∈ dom seen)) x]> table, seen',
       if negb (flag x) && bool_decide (key_of x ∈ dom seen) then S n else n)
    /\ dom seen' = {[key_of x]} ∪ dom seen.
Proof.
  intros Hx. unfold upload_service.detect_step. rewrite Hx.
  destruct (decide (is_Some (seen !! key_of x))) as [Hin|Hnin].
  - apply elem_of_dom in Hin. rewrite (bool_decide_eq_true_2 _ Hin).
    exists seen. split; [|symmetry; apply subseteq_union_1_L; by apply singleton_subseteq_l].
    destruct (flag x) eqn:Hf; simpl; [|done].
    rewrite <- Hf, set_flag_flag. by rewrite list_insert_id.
  - rewrite <- elem_of_dom in Hnin. rewrite (bool_decide_eq_false_2 _ Hnin).
    exists (<[key_of x := ref]> seen). split; [|by rewrite dom_insert_L].
    rewrite andb_false_r.
    destruct (flag x) eqn:Hf; simpl; [done|].
    rewrite <- Hf, set_flag_flag. by rewrite list_insert_id.
Qed.

Lemma detect_loop_spec (rs : list (UUID * A)) (table : list A)
    (seen : gmap string UUID) (n : nat) :
  NoDup rs.*1 ->
  Forall (fun r => table !! r.1 = Some r.2) rs ->
  exists table' seen' n',
    foldl (upload_service.detect_step key_of flag set_flag) (table, seen, n) rs.*1
    = (table', seen', n')
    /\ length table' = length table
    /\ (forall i, i ∉ rs.*1 -> table' !! i = table !! i)
    /\ (forall p r, rs !! p = Some r ->
          exists b,
            expected_flags (dom seen) ((fun r => key_of r.2) <$> rs) !! p = Some b
            /\ table' !! r.1 = Some (set_flag b r.2)).
Proof.
  revert table seen n.
  induction rs as [|[ref x] rs IH]; intros table seen n Hnd Hres.
  - exists table, seen, n. repeat split; auto. intros p r Hp. done.
  - simpl in Hnd. apply NoDup_cons in Hnd as [Hnotin Hnd].
    apply Forall_cons in Hres as [Hx Hres]. simpl in Hx.
    destruct (detect_step_eq table seen n ref x Hx) as (seen1 & Hstep & Hdom).
    set (b := bool_decide (key_of x ∈ dom seen)) in *.
    assert (Hres1 : Forall (fun r => <[ref := set_flag b x]> table !! r.1 = Some r.2) rs).
    { apply Forall_forall. intros r Hr.
      rewrite list_lookup_insert_ne.
      - by eapply Forall_forall in Hres.
      - intros ->. apply Hnotin. apply list_elem_of_fmap. by exists r. }
    destruct (IH _ seen1 (if negb (flag x) && b then S n else n) Hnd Hres1)
      as (table' & seen' & n' & Hloop & Hlen & Hout & Hin).
    exists table', seen', n'. rewrite fmap_cons. cbn [foldl fst].
    rewrite Hstep. split; [done|].
    split; [by rewrite Hlen, length_insert|].
    split.
    + intros i Hi. apply not_elem_of_cons in Hi as [Hne Hi].
      rewrite (Hout i Hi). by apply list_lookup_insert_ne.
    + intros [|p] r Hp; simpl in *.
      * simplify_eq. exists b. split; [done|]. simpl.
        rewrite (Hout ref Hnotin). apply list_lookup_insert_eq.
        by eapply lookup_lt_Some.
      * rewrite <- Hdom. by apply Hin.
Qed.

Lemma detect_loop_fixed (rs : list (UUID * A)) (table : list A)
    (seen : gmap string UUID) (n : nat) :
  Forall (fun r => table !! r.1 = Some r.2) rs ->
  (fun r => flag r.2) <$> rs
  = expected_flags (dom seen) ((fun r => key_of r.2) <$> rs) ->
  exists seen',
    foldl (upload_service.detect_step key_of flag set_flag) (table, seen, n) rs.*1
    = (table, seen', n).
Proof.
  revert seen. induction rs as [|[ref x] rs IH]; intros seen Hres Hflags.
  - by exists seen.
  - apply Forall_cons in Hres as [Hx Hres]. simpl in Hx, Hflags.
    injection Hflags as Hb Hflags.
    destruct (detect_step_eq table seen n ref x Hx) as (seen1 & Hstep & Hdom).
    rewrite <- Hb in Hstep. rewrite set_flag_flag in Hstep.
    rewrite list_insert_id in Hstep by done.
    rewrite andb_negb_l in Hstep. rewrite <- Hdom in Hflags.
    destruct (IH seen1 Hres Hflags) as (seen' & Hloop).
    exists seen'. rewrite fmap_cons. cbn [foldl fst]. by rewrite Hstep.
Qed.

End detection_facts.

(** ** A query after the flags have changed *)

Section requery_facts.

Context {A : Type} (P : A -> Prop) `{!forall x, Decision (P x)}.
Variable key : A -> Time.
Variable set_flag : bool -> A -> A.
Hypothesis P_set_flag : forall b x, P (set_flag b x) <-> P x.
Hypothesis key_set_flag : forall b x, key (set_flag b x) = key x.

Lemma rows_reflagged (table table' : list A) :
  length table' = length table ->
  (forall i x, table !! i = Some x -> exists b, table' !! i = Some (set_flag b x)) ->
  Forall2 (reflagged set_flag) (session.rows table) (session.rows table').
Proof.
  intros Hlen Hrows. apply Forall2_same_length_lookup_2.
  - unfold session.rows. by rewrite !length_imap.
  - intros i r r'. rewrite !rows_lookup. intros Hr Hr'.
    destruct (table !! i) as [x|] eqn:Hx; [|done].
    destruct (Hrows i x Hx) as [b Hb]. rewrite Hb in Hr'.
    simplify_eq/=. split; [done|]. by exists b.
Qed.

Lemma filter_reflagged (l l' : list (UUID * A)) :
  Forall2 (reflagged set_flag) l l' ->
  Forall2 (reflagged set_flag)
    (filter (fun r => P r.2) l) (filter (fun r => P r.2) l').
Proof.
  induction 1 as [|r r' l l' [Hfst [b Hsnd]] Hl IH]; [constructor|].
  rewrite !filter_cons. rewrite Hsnd.
  destruct (decide (P r.2)) as [HP|HP].
  - rewrite decide_True by by apply P_set_flag.
    constructor; [|done]. split; [done|]. by exists b.
  - rewrite decide_False by by rewrite P_set_flag. done.
Qed.

Lemma insert_sorted_reflagged (r r' : UUID * A) (l l' : list (UUID * A)) :
  reflagged set_flag r r' ->
  Forall2 (reflagged set_flag) l l' ->
  Forall2 (reflagged set_flag)
    (session.insert_sorted key r l) (session.insert_sorted key r' l').
Proof.
  intros Hr. induction 1 as [|r0 r0' l l' Hr0 Hl IH]; simpl.
  - constructor; [done|constructor].
  - assert (key r0'.2 = key r0.2) as ->.
    { destruct Hr0 as [_ [b ->]]. apply key_set_flag. }
    assert (key r'.2 = key r.2) as ->.
    { destruct Hr as [_ [b ->]]. apply key_set_flag. }
    case_decide.
    + constructor; [done|]. by apply IH.
    + constructor; [done|]. by constructor.
Qed.

Lemma order_by_asc_reflagged (l l' acc acc' : list (UUID * A)) :
  Forall2 (reflagged set_flag) l l' ->
  Forall2 (reflagged set_flag) acc acc' ->
  Forall2 (reflagged set_flag)
    (foldl (fun acc r => session.insert_sorted key r acc) acc l)
    (foldl (fun acc r => session.insert_sorted key r acc) acc' l').
Proof.
  intros Hl. revert acc acc'.
  induction Hl as [|r r' l l' Hr Hl IH]; intros acc acc' Hacc; simpl; [done|].
  apply IH. by apply insert_sorted_reflagged.
Qed.

Lemma query_reflagged (table table' : list A) :
  length table' = length table ->
  (forall i x, table !! i = Some x -> exists b, table' !! i = Some (set_flag b x)) ->
  Forall2 (reflagged set_flag)
    (session.query P key table) (session.query P key table').
Proof.
  intros Hlen Hrows. unfold session.query, session.order_by_asc.
  apply order_by_asc_reflagged; [|constructor].
  apply filter_reflagged. by apply rows_reflagged.
Qed.

Lemma reflagged_fst (l l' : list (UUID * A)) :
  Forall2 (reflagged set_flag) l l' -> l'.*1 = l.*1.
Proof.
  induction 1 as [|r r' l l' [Hfst _] Hl IH]; [done|].
  rewrite !fmap_cons. by rewrite Hfst, IH.
Qed.

End requery_facts.

(** ** A detection run *)

Section scan_facts.

Context {A : Type} (P : A -> Prop) `{!forall x, Decision (P x)}.
Variable key : A -> Time.
Variable key_of : A -> string.
Variable flag : A -> bool.
Variable set_flag : bool -> A -> A.
Hypothesis key_of_set_flag : forall b x, key_of (set_flag b x) = key_of x.
Hypothesis flag_set_flag : forall b x, flag (set_flag b x) = b.
Hypothesis set_flag_flag : forall x, set_flag (flag x) x = x.
Hypothesis P_set_flag : forall b x, P (set_flag b x) <-> P x.
Hypothesis key_set_flag : forall b x, key (set_flag b x) = key x.

Lemma scan_run (table : list A) :
  exists table' seen' n',
    scan P key key_of flag set_flag table = (table', seen', n')
    /\ length table' = length table
    /\ (forall i, i ∉ (session.query P key table).*1 -> table' !! i = table !! i)
    /\ (forall p r, session.query P key table !! p = Some r ->
          exists b,
            expected_flags ∅ ((fun r => key_of r.2) <$> session.query P key table) !! p
            = Some b
            /\ table' !! r.1 = Some (set_flag b r.2)).
Proof.
  destruct (detect_loop_spec key_of flag set_flag set_flag_flag
              (session.query P key table) table ∅ 0
              (query_NoDup P key table) (query_resolves P key table))
    as (table' & seen' & n' & Hloop & Hlen & Hout & Hin).
  exists table', seen', n'. rewrite dom_empty_L in Hin. done.
Qed.

Lemma scan_reflags (table table' : list A) (seen' : gmap string UUID) (n' : nat) :
  scan P key key_of flag set_flag table = (table', seen', n') ->
  forall i x, table !! i = Some x -> exists b, table' !! i = Some (set_flag b x).
Proof.
  intros Hscan i x Hx.
  destruct (scan_run table) as (t & s & n & Heq & Hlen & Hout & Hin).
  rewrite Heq in Hscan. simplify_eq.
  destruct (decide (i ∈ (session.query P key table).*1)) as [Hi|Hi].
  - apply list_elem_of_fmap in Hi as ([i' x'] & -> & Hr).
    pose proof Hr as Hr'. apply elem_of_query in Hr' as [Hx' _]. simpl in *.
    apply list_elem_of_lookup in Hr as [p Hp].
    destruct (Hin p _ Hp) as (b & _ & Hb). exists b. simpl in Hb.
    rewrite Hx in Hx'. by simplify_eq.
  - exists (flag x). by rewrite set_flag_flag, (Hout i Hi).
Qed.

Lemma scan_outside (table table' : list A) (seen' : gmap string UUID) (n' : nat) :
  scan P key key_of flag set_flag table = (table', seen', n') ->
  length table' = length table
  /\ forall i x, table !! i = Some x -> ~ P x -> table' !! i = Some x.
Proof.
  intros Hscan.
  destruct (scan_run table) as (t & s & n & Heq & Hlen & Hout & Hin).
  rewrite Heq in Hscan. simplify_eq. split; [done|].
  intros i x Hx HP. rewrite Hout; [done|].
  intros ([i' x'] & -> & Hr)%list_elem_of_fmap.
  apply elem_of_query in Hr as [Hx' HP']. simpl in *.
  rewrite Hx in Hx'. by simplify_eq.
Qed.

(** Among the rows of the scope that bear a key, the run leaves exactly the
    first one of the query unflagged; no row bearing the key is older. *)
Lemma scan_earliest (table table' : list A) (seen' : gmap string UUID)
    (n' : nat) (k : string) :
  scan P key key_of flag set_flag table = (table', seen', n') ->
  (exists i x, table !! i = Some x /\ P x /\ key_of x = k) ->
  exists i x,
    table !! i = Some x /\ P x /\ key_of x = k
    /\ table' !! i = Some (set_flag false x)
    /\ forall j y,
         table !! j = Some y -> P y -> key_of y = k -> j <> i ->
         key x <= key y /\ table' !! j = Some (set_flag true y).
Proof.
  intros Hscan (i0 & x0 & Hx0 & HP0 & <-).
  destruct (scan_run table) as (t & s & n & Heq & Hlen & Hout & Hin).
  rewrite Heq in Hscan. simplify_eq.
  set (rs := session.query P key table) in *.
  set (keys := (fun r : UUID * A => key_of r.2) <$> rs) in *.
  assert (Hmem : key_of x0 ∈ keys).
  { apply list_elem_of_fmap. exists (i0, x0). split; [done|].
    by apply elem_of_query. }
  destruct (list_find_elem_of (fun k' => k' = key_of x0) keys _ Hmem eq_refl)
    as [[p k'] Hfind].
  apply list_find_Some in Hfind as (Hp & -> & Hfirst).
  apply list_lookup_fmap_Some in Hp as ([i x] & Hkx & Hp). simpl in Hkx.
  pose proof (list_elem_of_lookup_2 _ _ _ Hp) as Hr.
  apply elem_of_query in Hr as [Hx HP]. simpl in Hx, HP.
  destruct (Hin p _ Hp) as (b & Hb & Hrow). simpl in Hrow.
  rewrite (expected_flags_lookup ∅ keys p (key_of x0)) in Hb
    by (apply list_lookup_fmap_Some; by exists (i, x)).
  assert (b = false) as ->.
  { simplify_eq. apply bool_decide_eq_false. intros [Hempty|Htake].
    - by apply elem_of_empty in Hempty.
    - apply elem_of_take in Htake as (q & Hq & Hlt). by eapply Hfirst. }
  exists i, x. split; [done|]. split; [done|]. split; [done|]. split; [done|].
  intros j y Hy HPy Hky Hne.
  assert (Hry : (j, y) ∈ rs) by by apply elem_of_query.
  apply list_elem_of_lookup in Hry as [q Hq].
  assert (Hkq : keys !! q = Some (key_of x0)).
  { apply list_lookup_fmap_Some. by exists (j, y). }
  assert (Hpq : p < q).
  { destruct (decide (q < p)) as [Hlt|Hge]; [by destruct (Hfirst _ _ Hkq Hlt)|].
    destruct (decide (q = p)) as [->|Hqp]; [|lia].
    rewrite Hp in Hq. by simplify_eq. }
  split.
  - by apply (query_sorted P key table p q (i, x) (j, y)).
  - destruct (Hin q _ Hq) as (b & Hb' & Hrow'). simpl in Hrow'.
    rewrite (expected_flags_lookup ∅ keys q (key_of x0) Hkq) in Hb'.
    assert (b = true) as ->; [|done].
    simplify_eq. apply bool_decide_eq_true. right.
    apply elem_of_take. exists p. split; [|done].
    apply list_lookup_fmap_Some. by exists (i, x).
Qed.

(** A second run over the table left by a first run changes no row and
    marks nothing. *)
Lemma scan_idempotent (table table' : list A) (seen' : gmap string UUID)
    (n' : nat) :
  scan P key key_of flag set_flag table = (table', seen', n') ->
  exists seen'', scan P key key_of flag set_flag table' = (table', seen'', 0).
Proof.
  intros Hscan.
  destruct (scan_run table) as (t & s & n & Heq & Hlen & Hout & Hin).
  rewrite Heq in Hscan. simplify_eq.
  pose proof (query_reflagged P key set_flag P_set_flag key_set_flag
                table table' Hlen (scan_reflags _ _ _ _ Heq)) as Hrel.
  unfold scan, upload_service.detect_loop.
  apply (detect_loop_fixed key_of flag set_flag set_flag_flag).
  - apply query_resolves.
  - rewrite dom_empty_L.
    assert (Hkeys : (fun r : UUID * A => key_of r.2) <$> session.query P key table'
                    = (fun r : UUID * A => key_of r.2) <$> session.query P key table).
    { clear -Hrel key_of_set_flag.
      induction Hrel as [|r r' l l' [_ [b Hb]] Hl IH]; [done|].
      rewrite !fmap_cons, IH, Hb. by rewrite key_of_set_flag. }
    rewrite Hkeys.
    eapply list_eq_same_length; [done| |].
    + rewrite expected_flags_length, !length_fmap.
      symmetry. by eapply Forall2_length.
    + intros p f1 f2 _ Hf1 Hf2.
      apply list_lookup_fmap_Some in Hf1 as (r' & -> & Hr').
      destruct (Forall2_lookup_r _ _ _ _ _ Hrel Hr') as (r & Hr & Hfst & b0 & Hsnd).
      destruct (Hin p r Hr) as (b & Hb & Hrow).
      pose proof (list_elem_of_lookup_2 _ _ _ Hr') as Hmem.
      apply elem_of_query in Hmem as [Hx' _].
      rewrite Hfst, Hrow in Hx'. simplify_eq. rewrite <- Hx'.
      by rewrite flag_set_flag.
Qed.

End scan_facts.

(** ** The two detectors *)

Lemma company_key_set_is_duplicate b c :
  upload_service.company_key (company_model.set_is_duplicate b c)
  = upload_service.company_key c.
Proof. done. Qed.

Lemma company_flag_set_is_duplicate b c :
  company_model.is_duplicate (company_model.set_is_duplicate b c) = b.
Proof. done. Qed.

Lemma company_set_is_duplicate_id c :
  company_model.set_is_duplicate (company_model.is_duplicate c) c = c.
Proof. by destruct c. Qed.

Lemma contact_key_set_is_duplicate b c :
  upload_service.contact_key (contact_model.set_is_duplicate b c)
  = upload_service.contact_key c.
Proof. done. Qed.

Lemma contact_flag_set_is_duplicate b c :
  contact_model.is_duplicate (contact_model.set_is_duplicate b c) = b.
Proof. done. Qed.

Lemma contact_set_is_duplicate_id c :
  contact_model.set_is_duplicate (contact_model.is_duplicate c) c = c.
Proof. by destruct c. Qed.

Lemma detect_company_duplicates_run (segment_id : UUID) (db : DB) :
  exists table' seen' n',
    scan (fun c => company_model.segment_id c = segment_id)
      company_model.created_at upload_service.company_key
      company_model.is_duplicate company_model.set_is_duplicate (companies db)
    = (table', seen', n')
    /\ upload_service.detect_company_duplicates segment_id db
       = (Return n', with_companies table' db).
Proof.
  unfold upload_service.detect_company_duplicates, bind, get_db, put_db, ret.
  unfold upload_service.companies_of_segment.
  fold (scan (fun c => company_model.segment_id c = segment_id)
          company_model.created_at upload_service.company_key
          company_model.is_duplicate company_model.set_is_duplicate (companies db)).
  destruct (scan _ _ _ _ _ _) as [[table' seen'] n']. by exists table', seen', n'.
Qed.

Lemma detect_contact_duplicates_run (company_id : UUID) (db : DB) :
  exists table' seen' n',
    scan (fun c => contact_model.company_id c = company_id)
      contact_model.created_at upload_service.contact_key
      contact_model.is_duplicate contact_model.set_is_duplicate (contacts db)
    = (table', seen', n')
    /\ upload_service.detect_contact_duplicates company_id db
       = (Return n', with_contacts table' db).
Proof.
  unfold upload_service.detect_contact_duplicates, bind, get_db, put_db, ret.
  unfold upload_service.contacts_of_company.
  fold (scan (fun c => contact_model.company_id c = company_id)
          contact_model.created_at upload_service.contact_key
          contact_model.is_duplicate contact_model.set_is_duplicate (contacts db)).
  destruct (scan _ _ _ _ _ _) as [[table' seen'] n']. by exists table', seen', n'.
Qed.

(** ** Normalised keys *)

Lemma isspace_lower_char (a : ascii) :
  pystr.isspace (pystr.lower_char a) = pystr.isspace a.
Proof. by destruct a as [[] [] [] [] [] [] [] []]. Qed.

Lemma lstrip_lower (s : string) :
  pystr.lstrip (pystr.lower s) = pystr.lower (pystr.lstrip s).
Proof.
  induction s as [|a s IH]; [done|]. cbn [pystr.lower pystr.lstrip].
  rewrite isspace_lower_char. by destruct (pystr.isspace a).
Qed.

Lemma rstrip_lower (s : string) :
  pystr.rstrip (pystr.lower s) = pystr.lower (pystr.rstrip s).
Proof.
  induction s as [|a s IH]; [done|]. cbn [pystr.lower pystr.rstrip].
  rewrite IH. destruct (pystr.rstrip s); cbn [pystr.lower]; [|done].
  rewrite isspace_lower_char. by destruct (pystr.isspace a).
Qed.

Lemma strip_lower (s : string) :
  pystr.strip (pystr.lower s) = pystr.lower (pystr.strip s).
Proof. unfold pystr.strip. by rewrite lstrip_lower, rstrip_lower. Qed.

Lemma normalized_eq (x : string) :
  upload_service.normalized x = pystr.strip (pystr.lower x).
Proof. by destruct x. Qed.

Lemma normalized_blank (x : option string) :
  blank x -> upload_service.normalized_opt x = "".
Proof.
  destruct x as [x|]; [|done]. simpl. intros Hx.
  by rewrite normalized_eq, strip_lower, Hx.
Qed.

(** C2. After a detection run over a segment, among the companies of the
    segment that bear a given normalised key exactly one is left unflagged;
    no company bearing the key was created before it, and every other
    company bearing the key is flagged.  The key is the lower-cased, trimmed
    name, the separator and the lower-cased, trimmed website, a null or blank
    field contributing the empty string, so that the companies with blank
    name and website share one key.  The same holds for the contacts of a
    company, with the lower-cased, trimmed email as the key. *)
Theorem detection_flags_all_but_earliest :
  (forall (db : DB) (segment_id : UUID) (k : string),
     (exists i c,
        companies db !! i = Some c
        /\ company_model.segment_id c = segment_id
        /\ upload_service.company_key c = k) ->
     let db' := exec (upload_service.detect_company_duplicates segment_id) db in
     exists i c,
       companies db !! i = Some c
       /\ company_model.segment_id c = segment_id
       /\ upload_service.company_key c = k
       /\ companies db' !! i = Some (company_model.set_is_duplicate false c)
       /\ forall j cj,
            companies db !! j = Some cj ->
            company_model.segment_id cj = segment_id ->
            upload_service.company_key cj = k ->
            j <> i ->
            company_model.created_at c <= company_model.created_at cj
            /\ companies db' !! j = Some (company_model.set_is_duplicate true cj))
  /\ (forall (db : DB) (company_id : UUID) (k : string),
     (exists i c,
        contacts db !! i = Some c
        /\ contact_model.company_id c = company_id
        /\ upload_service.contact_key c = k) ->
     let db' := exec (upload_service.detect_contact_duplicates company_id) db in
     exists i c,
       contacts db !! i = Some c
       /\ contact_model.company_id c = company_id
       /\ upload_service.contact_key c = k
       /\ contacts db' !! i = Some (contact_model.set_is_duplicate false c)
       /\ forall j cj,
            contacts db !! j = Some cj ->
            contact_model.company_id cj = company_id ->
            upload_service.contact_key cj = k ->
            j <> i ->
            contact_model.created_at c <= contact_model.created_at cj
            /\ contacts db' !! j = Some (contact_model.set_is_duplicate true cj))
  /\ (forall c,
        upload_service.company_key c
        = pystr.strip (pystr.lower (company_model.company_name (company_model.data c)))
          +:+ "||"
          +:+ pystr.strip (pystr.lower
                (default "" (company_model.company_website (company_model.data c)))))
  /\ (forall c,
        upload_service.contact_key c
        = pystr.strip (pystr.lower (contact_model.email (contact_model.data c))))
  /\ (forall c,
        blank (Some (company_model.company_name (company_model.data c))) ->
        blank (company_model.company_website (company_model.data c)) ->
        upload_service.company_key c = "||").
Proof.
  split; [|split; [|split; [|split]]].
  - intros db segment_id k Hbears db'.
    destruct (detect_company_duplicates_run segment_id db)
      as (table' & seen' & n' & Hscan & Hrun).
    unfold db', exec. rewrite Hrun. simpl.
    apply (scan_earliest _ _ _ _ _ company_set_is_duplicate_id
             (companies db) table' seen' n' k Hscan Hbears).
  - intros db company_id k Hbears db'.
    destruct (detect_contact_duplicates_run company_id db)
      as (table' & seen' & n' & Hscan & Hrun).
    unfold db', exec. rewrite Hrun. simpl.
    apply (scan_earliest _ _ _ _ _ contact_set_is_duplicate_id
             (contacts db) table' seen' n' k Hscan Hbears).
  - intros c. unfold upload_service.company_key. rewrite normalized_eq.
    destruct (company_model.company_website (company_model.data c)) as [w|];
      simpl; [by rewrite normalized_eq|done].
  - intros c. unfold upload_service.contact_key. by rewrite normalized_eq.
  - intros c Hname Hweb. unfold upload_service.company_key.
    rewrite (normalized_blank _ Hweb).
    simpl in Hname. by rewrite normalized_eq, strip_lower, Hname.
Qed.

(** C6. Duplicate detection is idempotent: a second run over the store left
    by a first run changes no row, hence no flag, and reports zero newly
    marked duplicates; for the companies of a segment and for the contacts
    of a company. *)
Theorem detection_idempotent :
  (forall (db : DB) (segment_id : UUID),
     let db1 := exec (upload_service.detect_company_duplicates segment_id) db in
     upload_service.detect_company_duplicates segment_id db1 = (Return 0, db1))
  /\ (forall (db : DB) (company_id : UUID),
     let db1 := exec (upload_service.detect_contact_duplicates company_id) db in
     upload_service.detect_contact_duplicates company_id db1 = (Return 0, db1)).
Proof.
  split.
  - intros db segment_id db1.
    destruct (detect_company_duplicates_run segment_id db)
      as (table' & seen' & n' & Hscan & Hrun).
    assert (Hdb1 : db1 = with_companies table' db).
    { unfold db1, exec. by rewrite Hrun. }
    destruct (scan_idempotent
                (fun c => company_model.segment_id c = segment_id)
                company_model.created_at upload_service.company_key
                company_model.is_duplicate company_model.set_is_duplicate
                company_key_set_is_duplicate company_flag_set_is_duplicate
                company_set_is_duplicate_id
                (fun b c => reflexivity _) (fun b c => eq_refl)
                _ _ _ _ Hscan) as [seen'' Hagain].
    destruct (detect_company_duplicates_run segment_id db1)
      as (t & s & n & Hscan1 & Hrun1).
    rewrite Hrun1. rewrite Hdb1 in Hscan1. simpl in Hscan1.
    rewrite Hagain in Hscan1. simplify_eq. by rewrite Hdb1.
  - intros db company_id db1.
    destruct (detect_contact_duplicates_run company_id db)
      as (table' & seen' & n' & Hscan & Hrun).
    assert (Hdb1 : db1 = with_contacts table' db).
    { unfold db1, exec. by rewrite Hrun. }
    destruct (scan_idempotent
                (fun c => contact_model.company_id c = company_id)
                contact_model.created_at upload_service.contact_key
                contact_model.is_duplicate contact_model.set_is_duplicate
                contact_key_set_is_duplicate contact_flag_set_is_duplicate
                contact_set_is_duplicate_id
                (fun b c => reflexivity _) (fun b c => eq_refl)
                _ _ _ _ Hscan) as [seen'' Hagain].
    destruct (detect_contact_duplicates_run company_id db1)
      as (t & s & n & Hscan1 & Hrun1).
    rewrite Hrun1. rewrite Hdb1 in Hscan1. simpl in Hscan1.
    rewrite Hagain in Hscan1. simplify_eq. by rewrite Hdb1.
Qed.

Lemma detection_flags_all_but_earliest_witness :
  (exists i c,
     companies sample_db !! i = Some c
     /\ company_model.segment_id c = 7
     /\ upload_service.company_key c = "acme||acme.com"
     /\ companies (exec (upload_service.detect_company_duplicates 7) sample_db) !! i
        = Some (company_model.set_is_duplicate false c)
     /\ forall j cj,
          companies sample_db !! j = Some cj ->
          company_model.segment_id cj = 7 ->
          upload_service.company_key cj = "acme||acme.com" ->
          j <> i ->
          company_model.created_at c <= company_model.created_at cj
          /\ companies (exec (upload_service.detect_company_duplicates 7) sample_db) !! j
             = Some (company_model.set_is_duplicate true cj))
  /\ (exists i c,
     contacts sample_db !! i = Some c
     /\ contact_model.company_id c = 0
     /\ upload_service.contact_key c = "ann@acme.com"
     /\ contacts (exec (upload_service.detect_contact_duplicates 0) sample_db) !! i
        = Some (contact_model.set_is_duplicate false c)
     /\ forall j cj,
          contacts sample_db !! j = Some cj ->
          contact_model.company_id cj = 0 ->
          upload_service.contact_key cj = "ann@acme.com" ->
          j <> i ->
          contact_model.created_at c <= contact_model.created_at cj
          /\ contacts (exec (upload_service.detect_contact_duplicates 0) sample_db) !! j
             = Some (contact_model.set_is_duplicate true cj))
  /\ upload_service.company_key
       (sample_company "  " (Some " ") 7 company_model.PENDING None 1) = "||".
Proof.
  destruct detection_flags_all_but_earliest as (Hco & Hct & _ & _ & Hblank).
  split; [|split].
  - apply (Hco sample_db 7 "acme||acme.com").
    exists 2, (sample_company " ACME " (Some "ACME.com") 7 company_model.PENDING None 3).
    repeat split; reflexivity.
  - apply (Hct sample_db 0 "ann@acme.com").
    exists 1, (sample_contact "Ann@Acme.com" 0 7 contact_model.UPLOADED 5).
    repeat split; reflexivity.
  - apply Hblank; reflexivity.
Defined.

Example detect_company_duplicates_sample :
  company_model.is_duplicate
    <$> companies (exec (upload_service.detect_company_duplicates 7) sample_db)
  = [false; false; true]
  /\ eval (upload_service.detect_company_duplicates 7) sample_db = Return 1.
Proof. split; vm_compute; reflexivity. Qed.

Example detect_contact_duplicates_sample :
  contact_model.is_duplicate
    <$> contacts (exec (upload_service.detect_contact_duplicates 0) sample_db)
  = [false; true]
  /\ eval (upload_service.detect_contact_duplicates 0) sample_db = Return 1.
Proof. split; vm_compute; reflexivity. Qed.

(** ** The contact pipeline *)

(** The contact approval handler hands the service a keyword it does not
    have. *)
Lemma approve_contact_call_refused {A} (body : M A) :
  pycall.call "approve_contact" contacts_router.service_approve_contact 3
    ["approved_by"] body
  = raise (TypeError "approve_contact() got an unexpected keyword argument 'approved_by'").
Proof. reflexivity. Qed.

(** C5. Whatever the store, the contact and the payload, the call that the
    contact approval handler makes to the service raises [TypeError],
    because of the keyword [approved_by] that the service does not accept;
    the handler answers 500 and the store is left as it was, so that
    neither the transition nor its check is reached through the handler. *)
Theorem contact_approve_endpoint_always_500 :
  forall (db : DB) (contact_id : UUID)
         (approval : contact_schema.ContactApproval) (current_user : CurrentUser),
    pycall.call "approve_contact" contacts_router.service_approve_contact 3
      ["approved_by"] (contact_service.approve_contact contact_id approval) db
    = (Raise (TypeError
         "approve_contact() got an unexpected keyword argument 'approved_by'"),
       db)
    /\ contacts_router.approve_contact contact_id approval current_user db
       = (HTTPException 500, db).
Proof.
  intros db contact_id approval current_user.
  unfold contacts_router.approve_contact.
  by rewrite approve_contact_call_refused.
Qed.

(** The statement of C1 for [approve_contact], as the specification words
    it, is refuted by an uploaded contact and a payload whose status is not
    [approved]: the call fails although the contact is in the required
    status, and the error is not the invalid-transition error. *)
Lemma approve_contact_not_only_predecessor :
  ~ (forall (db : DB) (contact_id : UUID) (c : contact_model.Contact)
            (approval : contact_schema.ContactApproval),
       contacts db !! contact_id = Some c ->
       ((exists r db',
           contact_service.approve_contact contact_id approval db = (Return r, db'))
        <-> contact_model.status c = contact_model.UPLOADED)
       /\ (contact_model.status c <> contact_model.UPLOADED ->
           exists e db',
             contact_service.approve_contact contact_id approval db = (Raise e, db')
             /\ is_invalid_transition e = true)).
Proof.
  intros H.
  destruct (H sample_db 0
              (sample_contact "ann@acme.com" 0 7 contact_model.UPLOADED 4)
              {| contact_schema.status := contact_model.UPLOADED |} eq_refl)
    as [[_ Hsucceeds] _].
  destruct (Hsucceeds eq_refl) as (r & db' & Hrun).
  vm_compute in Hrun. discriminate Hrun.
Qed.

(** C1, amended. For a contact that exists:
    [approve_contact] succeeds exactly when the payload's status is
    [approved] and the contact is [uploaded], and then sets the status to
    [approved]; a payload with another status is refused with "Approval
    status must be 'approved'" whatever the contact's status; an [approved]
    payload for a contact that is not [uploaded] fails with the
    invalid-transition error.
    [assign_to_sdr] succeeds exactly when the contact is [approved], and then
    records the SDR and sets the status to [assigned_to_sdr]; otherwise it
    fails with the invalid-transition error.  The SDR identifier is a UUID,
    never null.
    [mark_meeting_scheduled] succeeds exactly when the contact is
    [assigned_to_sdr], and then sets the status to [meeting_scheduled];
    otherwise it fails with the invalid-transition error.
    A failed call leaves the store unchanged. *)
Theorem contact_transitions :
  forall (db : DB) (contact_id : UUID) (c : contact_model.Contact),
    contacts db !! contact_id = Some c ->
    (forall approval : contact_schema.ContactApproval,
       (contact_schema.status approval = contact_model.APPROVED ->
        contact_model.status c = contact_model.UPLOADED ->
        contact_service.approve_contact contact_id approval db
        = (Return contact_id,
           with_contacts
             (<[contact_id := contact_model.set_status contact_model.APPROVED c]>
                (contacts db)) db))
       /\ (contact_schema.status approval <> contact_model.APPROVED ->
           contact_service.approve_contact contact_id approval db
           = (Raise (ValueError approval_status_must_be_approved), db))
       /\ (contact_schema.status approval = contact_model.APPROVED ->
           contact_model.status c <> contact_model.UPLOADED ->
           contact_service.approve_contact contact_id approval db
           = (Raise (ValueError (cannot_approve_contact (contact_model.status c))), db)))
    /\ (forall sdr_id : UUID,
       (contact_model.status c = contact_model.APPROVED ->
        contact_service.assign_to_sdr contact_id sdr_id db
        = (Return contact_id,
           with_contacts
             (<[contact_id :=
                  contact_model.set_status contact_model.ASSIGNED_TO_SDR
                    (contact_model.set_assigned_sdr_id sdr_id c)]>
                (contacts db)) db))
       /\ (contact_model.status c <> contact_model.APPROVED ->
           contact_service.assign_to_sdr contact_id sdr_id db
           = (Raise (ValueError (cannot_assign_contact (contact_model.status c))), db)))
    /\ (contact_model.status c = contact_model.ASSIGNED_TO_SDR ->
        contact_service.mark_meeting_scheduled contact_id db
        = (Return contact_id,
           with_contacts
             (<[contact_id :=
                  contact_model.set_status contact_model.MEETING_SCHEDULED c]>
                (contacts db)) db))
    /\ (contact_model.status c <> contact_model.ASSIGNED_TO_SDR ->
        contact_service.mark_meeting_scheduled contact_id db
        = (Raise (ValueError (cannot_mark_meeting_scheduled (contact_model.status c))),
           db))
    /\ (forall s,
          is_invalid_transition (ValueError (cannot_approve_contact s)) = true
          /\ is_invalid_transition (ValueError (cannot_assign_contact s)) = true
          /\ is_invalid_transition (ValueError (cannot_mark_meeting_scheduled s)) = true
          /\ is_invalid_transition (ValueError approval_status_must_be_approved) = false).
Proof.
  intros db contact_id c Hc.
  unfold contact_service.approve_contact, contact_service.assign_to_sdr,
    contact_service.mark_meeting_scheduled, contact_service.get_contact,
    session.store_contact, bind, ret, raise.
  rewrite Hc.
  split; [|split; [|split; [|split]]].
  - intros approval. split; [|split].
    + intros Ha Hs. rewrite decide_False by (by intros ?).
      by rewrite decide_False by (by intros ?).
    + intros Ha. by rewrite decide_True.
    + intros Ha Hs. rewrite decide_False by (by intros ?).
      by rewrite decide_True.
  - intros sdr_id. split.
    + intros Hs. by rewrite decide_False by (by intros ?).
    + intros Hs. by rewrite decide_True.
  - intros Hs. by rewrite decide_False by (by intros ?).
  - intros Hs. by rewrite decide_True.
  - done.
Qed.

Lemma contact_transitions_witness :
  contact_service.approve_contact 0
    {| contact_schema.status := contact_model.APPROVED |}
    (with_contacts
       [sample_contact "ann@acme.com" 0 7 contact_model.ASSIGNED_TO_SDR 4] empty_db)
  = (Raise (ValueError (cannot_approve_contact contact_model.ASSIGNED_TO_SDR)),
     with_contacts
       [sample_contact "ann@acme.com" 0 7 contact_model.ASSIGNED_TO_SDR 4] empty_db).
Proof.
  destruct (contact_transitions
              (with_contacts
                 [sample_contact "ann@acme.com" 0 7 contact_model.ASSIGNED_TO_SDR 4]
                 empty_db)
              0 (sample_contact "ann@acme.com" 0 7 contact_model.ASSIGNED_TO_SDR 4)
              eq_refl) as (Happrove & _).
  destruct (Happrove {| contact_schema.status := contact_model.APPROVED |})
    as (_ & _ & Hrefused).
  apply Hrefused; [reflexivity | discriminate].
Defined.

(** ** Company approval *)

Lemma of_value_Some (raw : string) (s : company_model.CompanyStatusEnum) :
  company_model.of_value raw = Some s <-> raw = company_model.value s.
Proof.
  unfold company_model.of_value. split.
  - repeat case_decide; intros; by simplify_eq.
  - intros ->. by destruct s.
Qed.

(** What a validated decision looks like. *)
Lemma validate_approval_inr (body : company_schema.ApprovalBody)
    (a : company_schema.CompanyApproval) :
  company_schema.validate_approval body = inr a ->
  company_schema.body_status body
  = Some (company_model.value (company_schema.status a))
  /\ company_schema.rejection_reason a = company_schema.body_rejection_reason body
  /\ company_schema.status a <> company_model.PENDING
  /\ (company_schema.status a = company_model.REJECTED <->
      pystr.truthy_opt (company_schema.rejection_reason a) = true).
Proof.
  unfold company_schema.validate_approval, company_schema.status_field,
    company_schema.rejection_reason_field.
  destruct body as [[raw|] reason]; simpl; [|by destruct reason; try case_decide].
  destruct (company_model.of_value raw) as [s|] eqn:Hs;
    [|by destruct reason; try case_decide].
  apply of_value_Some in Hs as ->.
  assert (Hpost : forall r,
            company_schema.model_post_init
              {| company_schema.status := s; company_schema.rejection_reason := r |}
            = inr a ->
            a = {| company_schema.status := s; company_schema.rejection_reason := r |}
            /\ s <> company_model.PENDING
            /\ (s = company_model.REJECTED <-> pystr.truthy_opt r = true)).
  { intros r. unfold company_schema.model_post_init. simpl.
    destruct s, (pystr.truthy_opt r) eqn:Hr; simpl; intros Ha; simplify_eq;
      (split; [done|]); split; try done; split; done. }
  destruct reason as [v|]; simpl.
  - case_decide; simpl; [done|]. intros Ha.
    destruct (Hpost _ Ha) as (-> & ? & ?). done.
  - intros Ha. destruct (Hpost _ Ha) as (-> & ? & ?). done.
Qed.



(** ** Batch ingestion *)

Lemma errors_of_one_row (n : nat) (errs : list pydantic.ErrorDetails) :
  errors_in_row_order n (S n) (upload_service.row_errors n errs).
Proof.
  unfold errors_in_row_order, upload_service.row_errors.
  induction errs as [|e errs [IH1 IH2]]; simpl.
  - split; constructor.
  - split; constructor; simpl; [lia|done|done|].
    eapply Forall_impl; [exact IH1|]. simpl. intros; lia.
Qed.

Lemma errors_in_row_order_nil (lo hi : nat) : errors_in_row_order lo hi [].
Proof. split; constructor. Qed.

Lemma errors_in_row_order_app (lo mid hi : nat)
    (l1 l2 : list upload_service.UploadError) :
  lo <= mid -> mid <= hi ->
  errors_in_row_order lo mid l1 -> errors_in_row_order mid hi l2 ->
  errors_in_row_order lo hi (l1 ++ l2).
Proof.
  intros Hlo Hhi [H1 S1] [H2 S2]. split.
  - apply Forall_app. split.
    + eapply Forall_impl; [exact H1|]. simpl. intros; lia.
    + eapply Forall_impl; [exact H2|]. simpl. intros; lia.
  - apply StronglySorted_app. split; [|done].
    intros x1 x2 Hx1 Hx2.
    eapply Forall_forall in H1; [|exact Hx1].
    eapply Forall_forall in H2; [|exact Hx2]. simpl in *. lia.
Qed.


Lemma with_contacts_twice l1 l2 db :
  with_contacts l2 (with_contacts l1 db) = with_contacts l2 db.
Proof. done. Qed.

Lemma with_companies_id db : with_companies (companies db) db = db.
Proof. by destruct db. Qed.

Lemma with_contacts_id db : with_contacts (contacts db) db = db.
Proof. by destruct db. Qed.

(** The loop of [process_company_csv] always returns; it appends pending
    companies without a rejection reason and counts every row once. *)
Lemma company_rows_spec (int_of_str : string -> option Z)
    (segment_id created_by batch : nat) (clock : nat -> nat)
    (rows : list upload_service.CsvRow) :
  forall (row_number : nat) (st : upload_service.Counters) (db : DB),
  exists st' new errs,
    upload_service.company_rows int_of_str segment_id created_by batch clock
      row_number rows st db
    = (Return st', with_companies (companies db ++ new) db)
    /\ upload_service.n_total st'
       = upload_service.n_total st + length rows
    /\ upload_service.n_valid st' + upload_service.n_invalid st'
       = upload_service.n_valid st + upload_service.n_invalid st + length rows
    /\ upload_service.errors st' = upload_service.errors st ++ errs
    /\ errors_in_row_order row_number (row_number + length rows) errs
    /\ Forall (fun c => company_model.status c = company_model.PENDING
                        /\ company_model.rejection_reason c = None) new.
Proof.
  induction rows as [|row rows IH]; intros row_number st db.
  - exists st, [], []. simpl. unfold ret.
    rewrite !app_nil_r, with_companies_id, !Nat.add_0_r.
    repeat split; constructor.
  - cbn [upload_service.company_rows]. unfold bind at 1.
    unfold upload_service.company_row.
    destruct (company_schema.validate_create _ _ _) as [e|company_data].
    + unfold ret at 1.
      destruct (IH (S row_number)
                  (upload_service.count_invalid
                     (upload_service.row_errors row_number e)
                     (upload_service.count_row st)) db)
        as (st' & new & errs & Hrun & Ht & Hv & He & Ho & Hnew).
      exists st', new, (upload_service.row_errors row_number e ++ errs).
      rewrite Hrun. simpl in *. split; [done|].
      split; [lia|]. split; [lia|]. split; [by rewrite He, <- app_assoc|].
      split; [|done].
      apply (errors_in_row_order_app _ (S row_number)); [lia|lia| |].
      * apply errors_of_one_row.
      * by replace (row_number + S (length rows))
          with (S row_number + length rows) by lia.
    + unfold bind at 1, session.add_company, ret at 1.
      match goal with
      | |- context [upload_service.company_rows _ _ _ _ _ _ _ _ ?d] =>
          destruct (IH (S row_number)
                      (upload_service.count_valid (upload_service.count_row st)) d)
            as (st' & new & errs & Hrun & Ht & Hv & He & Ho & Hnew)
      end.
      eexists st', (_ :: new), errs.
      rewrite Hrun. simpl in *. rewrite <- app_assoc. simpl.
      split; [reflexivity|].
      split; [lia|]. split; [lia|]. split; [done|].
      split.
      * destruct Ho as [Ho1 Ho2]. split; [|done].
        eapply Forall_impl; [exact Ho1|]. simpl. intros; lia.
      * constructor; [done|done].
Qed.

Lemma detect_company_duplicates_frame (segment_id : nat) (db : DB) :
  let db' := exec (upload_service.detect_company_duplicates segment_id) db in
  contacts db' = contacts db
  /\ upload_batches db' = upload_batches db
  /\ length (companies db') = length (companies db)
  /\ forall i c, companies db !! i = Some c ->
       exists b, companies db' !! i = Some (company_model.set_is_duplicate b c).
Proof.
  destruct (detect_company_duplicates_run segment_id db)
    as (table' & seen' & n' & Hscan & Hrun).
  unfold exec. rewrite Hrun. simpl. split; [done|]. split; [done|]. split.
  - by destruct (scan_outside _ _ _ _ _ company_set_is_duplicate_id
                   _ _ _ _ Hscan).
  - by apply (scan_reflags _ _ _ _ _ company_set_is_duplicate_id _ _ _ _ Hscan).
Qed.

Lemma detect_contact_duplicates_frame (company_id : nat) (db : DB) :
  let db' := exec (upload_service.detect_contact_duplicates company_id) db in
  companies db' = companies db
  /\ upload_batches db' = upload_batches db
  /\ length (contacts db') = length (contacts db)
  /\ forall i c, contacts db !! i = Some c ->
       exists b, contacts db' !! i = Some (contact_model.set_is_duplicate b c).
Proof.
  destruct (detect_contact_duplicates_run company_id db)
    as (table' & seen' & n' & Hscan & Hrun).
  unfold exec. rewrite Hrun. simpl. split; [done|]. split; [done|]. split.
  - by destruct (scan_outside _ _ _ _ _ contact_set_is_duplicate_id
                   _ _ _ _ Hscan).
  - by apply (scan_reflags _ _ _ _ _ contact_set_is_duplicate_id _ _ _ _ Hscan).
Qed.

Lemma detect_company_duplicates_returns (segment_id : nat) (db : DB) :
  exists n,
    upload_service.detect_company_duplicates segment_id db
    = (Return n, exec (upload_service.detect_company_duplicates segment_id) db).
Proof.
  destruct (detect_company_duplicates_run segment_id db)
    as (table' & seen' & n' & Hscan & Hrun).
  exists n'. unfold exec. by rewrite Hrun.
Qed.

Lemma detect_contact_duplicates_returns (company_id : nat) (db : DB) :
  exists n,
    upload_service.detect_contact_duplicates company_id db
    = (Return n, exec (upload_service.detect_contact_duplicates company_id) db).
Proof.
  destruct (detect_contact_duplicates_run company_id db)
    as (table' & seen' & n' & Hscan & Hrun).
  exists n'. unfold exec. by rewrite Hrun.
Qed.

(** The statistics written by [close_batch]. *)
Lemma closed_batch_consistent (file : upload_service.UploadFile)
    (st : upload_service.Counters) (b : upload_batch_model.UploadBatch) :
  upload_service.n_total st = length (upload_service.csv_rows file) ->
  upload_service.n_valid st + upload_service.n_invalid st
  = length (upload_service.csv_rows file) ->
  errors_in_row_order 2 (2 + length (upload_service.csv_rows file))
    (upload_service.errors st) ->
  batch_consistent file
    (upload_batch_model.set_statistics (upload_service.n_total st)
       (upload_service.n_valid st) (upload_service.n_invalid st)
       (if decide (upload_service.n_invalid st = 0)
        then upload_batch_model.COMPLETED else upload_batch_model.FAILED) b)
    (upload_service.errors st).
Proof.
  intros Ht Hv He. unfold batch_consistent. simpl.
  split; [lia|]. split; [done|]. split; [|split; [|done]].
  - case_decide; split; intros; try done; lia.
  - case_decide; split; intros; try done; lia.
Qed.

(** [process_company_csv] always returns.  The store it leaves is the
    store [mid] with the new companies appended and the batch closed, or
    that store after a detection run over the segment. *)
Lemma process_company_csv_spec (int_of_str : string -> option Z)
    (file : upload_service.UploadFile) (segment_id created_by : nat)
    (clock : nat -> nat) (db : DB) :
  exists errs b new mid db',
    upload_service.process_company_csv int_of_str file segment_id created_by
      clock db
    = (Return (length (upload_batches db), errs), db')
    /\ batch_consistent file b errs
    /\ companies mid = companies db ++ new
    /\ Forall (fun c => company_model.status c = company_model.PENDING
                        /\ company_model.rejection_reason c = None) new
    /\ contacts mid = contacts db
    /\ upload_batches mid = upload_batches db ++ [b]
    /\ (db' = mid
        \/ db' = exec (upload_service.detect_company_duplicates segment_id) mid).
Proof.
  unfold upload_service.process_company_csv, upload_service.create_batch.
  unfold bind at 1, session.add_upload_batch.
  set (b0 := {| upload_batch_model.upload_type := upload_batch_model.COMPANY |}).
  set (db1 := with_upload_batches (upload_batches db ++ [b0]) db).
  unfold bind at 1.
  destruct (company_rows_spec int_of_str segment_id created_by
              (length (upload_batches db)) clock (upload_service.csv_rows file)
              2 upload_service.no_rows db1)
    as (st' & new & errs & Hrun & Ht & Hv & He & Ho & Hnew).
  rewrite Hrun. simpl in Ht, Hv, He. subst errs.
  unfold bind at 1, upload_service.close_batch, bind at 1, get_db.
  subst db1.
  cbn [upload_batches with_companies with_upload_batches companies contacts].
  rewrite lookup_app_r by done. rewrite Nat.sub_diag. cbn [lookup list_lookup].
  unfold session.store_upload_batch.
  cbn [upload_batches with_companies with_upload_batches companies contacts].
  rewrite insert_app_r_alt by done. rewrite Nat.sub_diag. cbn [insert list_insert].
  set (b := upload_batch_model.set_statistics _ _ _ _ b0).
  assert (Hb : batch_consistent file b (upload_service.errors st'))
    by (apply closed_batch_consistent; [lia|lia|done]).
  case_decide.
  - unfold bind at 1, ret.
    match goal with
    | |- context [upload_service.detect_company_duplicates segment_id ?d] =>
        destruct (detect_company_duplicates_returns segment_id d) as [n Hdet];
        rewrite Hdet;
        exists (upload_service.errors st'), b, new, d
    end.
    eexists. split; [reflexivity|]. split; [exact Hb|].
    split; [reflexivity|]. split; [exact Hnew|]. split; [reflexivity|].
    split; [reflexivity|]. by right.
  - unfold ret.
    match goal with
    | |- exists _ _ _ _ _, (_, ?d) = _ /\ _ =>
        exists (upload_service.errors st'), b, new, d, d
    end.
    split; [reflexivity|]. split; [exact Hb|].
    split; [reflexivity|]. split; [exact Hnew|]. split; [reflexivity|].
    split; [reflexivity|]. by left.
Qed.

(** What a step of the contact loop may do to the store and the counters:
    the companies and the batches are kept, uploaded contacts are appended,
    and when the step returns it has counted [n] rows, each once, and added
    errors of the rows numbered from [lo] up to [lo + n]. *)
Lemma stage_contact_spec (validate_email : string -> option string)
    (created_by batch now row_number : nat) (kw : pydantic.Kwargs)
    (cid : nat) (seg : option nat) (st : upload_service.Counters) (db : DB)
    (r : Result upload_service.ContactLoop) (db' : DB) :
  upload_service.stage_contact validate_email created_by batch now row_number
    kw cid seg st db = (r, db') ->
  companies db' = companies db
  /\ upload_batches db' = upload_batches db
  /\ (exists new,
        contacts db' = contacts db ++ new
        /\ Forall (fun c => contact_model.status c = contact_model.UPLOADED) new)
  /\ (is_Some seg -> exists lp, r = Return lp)
  /\ forall lp, r = Return lp ->
       upload_service.n_total (upload_service.counters lp)
       = upload_service.n_total st
       /\ upload_service.n_valid (upload_service.counters lp)
          + upload_service.n_invalid (upload_service.counters lp)
          = S (upload_service.n_valid st + upload_service.n_invalid st)
       /\ exists errs,
            upload_service.errors (upload_service.counters lp)
            = upload_service.errors st ++ errs
            /\ errors_in_row_order row_number (S row_number) errs.
Proof.
  unfold upload_service.stage_contact.
  destruct (contact_schema.validate_create _ _ _) as [e|contact_data].
  - unfold ret. intros ?; simplify_eq. split; [done|]. split; [done|].
    split; [exists []; by rewrite app_nil_r|].
    split; [by eexists|].
    intros lp ?; simplify_eq. simpl. split; [done|]. split; [lia|].
    eexists. split; [done|]. apply errors_of_one_row.
  - destruct seg as [seg|].
    + unfold bind, session.add_contact, ret. intros ?; simplify_eq.
      split; [done|]. split; [done|].
      split; [eexists [_]; split; [done|by repeat constructor]|].
      split; [by eexists|].
      intros lp ?; simplify_eq. simpl. split; [done|]. split; [lia|].
      exists []. rewrite app_nil_r. split; [done|]. apply errors_in_row_order_nil.
    + unfold raise. intros ?; simplify_eq. split; [done|]. split; [done|].
      split; [exists []; by rewrite app_nil_r|].
      split; [by intros [? ?]|]. by intros lp ?.
Qed.

Lemma contact_row_spec (validate_email : string -> option string)
    (company_id segment_id : option nat) (company_lookup : gmap string nat)
    (created_by batch now row_number : nat) (row : upload_service.CsvRow)
    (st : upload_service.Counters) (db : DB)
    (r : Result upload_service.ContactLoop) (db' : DB) :
  upload_service.contact_row validate_email company_id segment_id
    company_lookup created_by batch now row_number row st db = (r, db') ->
  companies db' = companies db
  /\ upload_batches db' = upload_batches db
  /\ (exists new,
        contacts db' = contacts db ++ new
        /\ Forall (fun c => contact_model.status c = contact_model.UPLOADED) new)
  /\ ((company_id = None -> row !! "company_name" <> Some None) ->
      (company_id <> None -> is_Some segment_id) ->
      (forall k ref, company_lookup !! k = Some ref ->
                     is_Some (companies db !! ref)) ->
      exists lp, r = Return lp)
  /\ forall lp, r = Return lp ->
       upload_service.n_total (upload_service.counters lp)
       = S (upload_service.n_total st)
       /\ upload_service.n_valid (upload_service.counters lp)
          + upload_service.n_invalid (upload_service.counters lp)
          = S (upload_service.n_valid st + upload_service.n_invalid st)
       /\ exists errs,
            upload_service.errors (upload_service.counters lp)
            = upload_service.errors st ++ errs
            /\ errors_in_row_order row_number (S row_number) errs.
Proof.
  unfold upload_service.contact_row.
  assert (Hone : forall (f message : string),
            errors_in_row_order row_number (S row_number)
              [ {| upload_service.row_number := row_number;
                   upload_service.field := f;
                   upload_service.error := message |} ]).
  { intros f message. split; repeat constructor; simpl; lia. }
  destruct company_id as [cid|].
  - intros Hrun. apply stage_contact_spec in Hrun
      as (Hco & Hba & Hnew & Htot & Hcount).
    split; [done|]. split; [done|]. split; [done|].
    split; [intros _ Hseg _; by apply Htot, Hseg|done].
  - destruct (row !! "company_name") as [[cell|]|] eqn:Hcell; simpl.
    + destruct (pystr.truthy (pystr.strip cell)).
      * destruct (company_lookup !! pystr.lower (pystr.strip cell))
          as [matched|] eqn:Hmatch.
        -- unfold bind at 1, get_db. intros Hrun.
           apply stage_contact_spec in Hrun as (Hco & Hba & Hnew & Htot & Hcount).
           split; [done|]. split; [done|]. split; [done|].
           split; [|done]. intros _ _ Hlookup. apply Htot.
           destruct (Hlookup _ _ Hmatch) as [c Hc]. rewrite Hc. by eexists.
        -- unfold ret. intros ?; simplify_eq. split; [done|]. split; [done|].
           split; [exists []; by rewrite app_nil_r|]. split; [by eexists|].
           intros lp ?; simplify_eq. simpl. split; [done|]. split; [lia|].
           eexists. split; [done|]. apply Hone.
      * unfold ret. intros ?; simplify_eq. split; [done|]. split; [done|].
        split; [exists []; by rewrite app_nil_r|]. split; [by eexists|].
        intros lp ?; simplify_eq. simpl. split; [done|]. split; [lia|].
        eexists. split; [done|]. apply Hone.
    + unfold raise. intros ?; simplify_eq. split; [done|]. split; [done|].
      split; [exists []; by rewrite app_nil_r|].
      split; [intros Hcell' _ _; by destruct Hcell'|]. by intros lp ?.
    + destruct (pystr.truthy (pystr.strip "")) eqn:Hempty; [done|].
      unfold ret. intros ?; simplify_eq. split; [done|]. split; [done|].
      split; [exists []; by rewrite app_nil_r|]. split; [by eexists|].
      intros lp ?; simplify_eq. simpl. split; [done|]. split; [lia|].
      eexists. split; [done|]. apply Hone.
Qed.

Lemma contact_rows_spec (validate_email : string -> option string)
    (company_id segment_id : option nat) (company_lookup : gmap string nat)
    (created_by batch : nat) (clock : nat -> nat)
    (rows : list upload_service.CsvRow) :
  forall (row_number : nat) (st : upload_service.ContactLoop) (db : DB)
         (r : Result upload_service.ContactLoop) (db' : DB),
  upload_service.contact_rows validate_email company_id segment_id
    company_lookup created_by batch clock row_number rows st db = (r, db') ->
  companies db' = companies db
  /\ upload_batches db' = upload_batches db
  /\ (exists new,
        contacts db' = contacts db ++ new
        /\ Forall (fun c => contact_model.status c = contact_model.UPLOADED) new)
  /\ ((company_id = None ->
       Forall (fun row => row !! "company_name" <> Some None) rows) ->
      (company_id <> None -> is_Some segment_id) ->
      (forall k ref, company_lookup !! k = Some ref ->
                     is_Some (companies db !! ref)) ->
      exists lp, r = Return lp)
  /\ forall lp, r = Return lp ->
       upload_service.n_total (upload_service.counters lp)
       = upload_service.n_total (upload_service.counters st) + length rows
       /\ upload_service.n_valid (upload_service.counters lp)
          + upload_service.n_invalid (upload_service.counters lp)
          = upload_service.n_valid (upload_service.counters st)
            + upload_service.n_invalid (upload_service.counters st)
            + length rows
       /\ exists errs,
            upload_service.errors (upload_service.counters lp)
            = upload_service.errors (upload_service.counters st) ++ errs
            /\ errors_in_row_order row_number (row_number + length rows) errs.
Proof.
  induction rows as [|row rows IH]; intros row_number st db r db' Hrun.
  - simpl in Hrun. unfold ret in Hrun. simplify_eq.
    split; [done|]. split; [done|].
    split; [exists []; by rewrite app_nil_r|]. split; [by eexists|].
    intros lp ?; simplify_eq. simpl. split; [lia|]. split; [lia|].
    exists []. rewrite app_nil_r. split; [done|]. apply errors_in_row_order_nil.
  - cbn [upload_service.contact_rows] in Hrun. unfold bind at 1 in Hrun.
    destruct (upload_service.contact_row _ _ _ _ _ _ _ _ _ _ db)
      as [r1 db1] eqn:Hrow.
    apply contact_row_spec in Hrow
      as (Hco1 & Hba1 & (new1 & Hnew1 & Hup1) & Htot1 & Hcount1).
    destruct r1 as [lp1|e1].
    + apply IH in Hrun as (Hco & Hba & (new & Hnew & Hup) & Htot & Hcount).
      split; [congruence|]. split; [congruence|].
      split.
      { exists (new1 ++ new). rewrite Hnew, Hnew1, <- app_assoc.
        split; [done|]. by apply Forall_app. }
      split.
      { intros Hcells Hseg Hlookup. apply Htot.
        - intros Hnone. specialize (Hcells Hnone).
          by apply Forall_cons in Hcells as [? ?].
        - done.
        - by rewrite Hco1. }
      intros lp Hlp.
      destruct (Hcount1 lp1 eq_refl) as (Ht1 & Hv1 & errs1 & He1 & Ho1).
      destruct (Hcount lp Hlp) as (Ht & Hv & errs & He & Ho).
      simpl. split; [lia|]. split; [lia|].
      exists (errs1 ++ errs). split; [by rewrite He, He1, <- app_assoc|].
      apply (errors_in_row_order_app _ (S row_number)); [lia|lia|done|].
      by replace (row_number + S (length rows))
        with (S row_number + length rows) by lia.
    + simplify_eq. split; [done|]. split; [done|].
      split; [by exists new1|]. split; [|by intros lp ?].
      intros Hcells Hseg Hlookup.
      destruct Htot1 as [lp Hlp]; [|done|done|done].
      intros Hnone. specialize (Hcells Hnone).
      by apply Forall_cons in Hcells as [? ?].
Qed.

Lemma bind_Return {A B} (m : M A) (k : A -> M B) (db db1 : DB) (a : A) :
  m db = (Return a, db1) -> bind m k db = k a db1.
Proof. intros H. unfold bind. by rewrite H. Qed.

Lemma bind_Raise {A B} (m : M A) (k : A -> M B) (db db1 : DB) (e : Exception) :
  m db = (Raise e, db1) -> bind m k db = (Raise e, db1).
Proof. intros H. unfold bind. by rewrite H. Qed.

Lemma close_batch_run (batch : nat) (st : upload_service.Counters) (db : DB)
    (b0 : upload_batch_model.UploadBatch) :
  upload_batches db !! batch = Some b0 ->
  upload_service.close_batch batch st db
  = (Return tt,
     with_upload_batches
       (<[batch := upload_batch_model.set_statistics
                     (upload_service.n_total st) (upload_service.n_valid st)
                     (upload_service.n_invalid st)
                     (if decide (upload_service.n_invalid st = 0)
                      then upload_batch_model.COMPLETED
                      else upload_batch_model.FAILED) b0]>
          (upload_batches db)) db).
Proof.
  intros Hb. unfold upload_service.close_batch, bind, get_db. by rewrite Hb.
Qed.

Lemma build_company_lookup_resolves (segment_id : nat)
    (table : list company_model.Company) (k : string) (ref : nat) :
  upload_service.build_company_lookup segment_id table !! k = Some ref ->
  is_Some (table !! ref).
Proof.
  unfold upload_service.build_company_lookup.
  assert (Hrows : Forall (fun r : nat * company_model.Company =>
                            is_Some (table !! r.1))
                    (session.select_where
                       (fun c => company_model.segment_id c = segment_id) table)).
  { apply Forall_forall. intros r Hr. unfold session.select_where in Hr.
    apply list_elem_of_filter in Hr as [_ Hr]. apply elem_of_rows in Hr.
    by eexists. }
  revert Hrows. generalize (session.select_where
    (fun c => company_model.segment_id c = segment_id) table).
  intros l Hl.
  assert (Hgen : forall m : gmap string nat,
            (forall k ref, m !! k = Some ref -> is_Some (table !! ref)) ->
            forall k ref,
              foldl (fun lookup (r : nat * company_model.Company) =>
                       <[pystr.strip (pystr.lower
                           (company_model.company_name (company_model.data r.2)))
                         := r.1]> lookup) m l !! k = Some ref ->
              is_Some (table !! ref)).
  { induction Hl as [|r l Hr Hl IH]; intros m Hm k' ref'; simpl; [by apply Hm|].
    apply IH. intros k0 ref0. rewrite lookup_insert.
    case_decide; [by intros ?; simplify_eq|by apply Hm]. }
  apply Hgen. intros k0 ref0. by rewrite lookup_empty.
Qed.

(** [process_contact_csv]: it leaves the companies alone and appends
    uploaded contacts, possibly followed by a detection run; when it
    returns, the batch it returns is closed and consistent.  It returns
    whenever no row lacks the [company_name] cell in the mode without a
    company and the company of the other mode has a segment. *)
Lemma process_contact_csv_spec (validate_email : string -> option string)
    (file : upload_service.UploadFile) (company_id segment_id : option nat)
    (created_by : nat) (clock : nat -> nat) (db : DB)
    (r : Result (nat * list upload_service.UploadError)) (db' : DB) :
  upload_service.process_contact_csv validate_email file company_id segment_id
    created_by clock db = (r, db') ->
  companies db' = companies db
  /\ (exists new mid,
        Forall (fun c => contact_model.status c = contact_model.UPLOADED) new
        /\ contacts mid = contacts db ++ new
        /\ (contacts db' = contacts mid
            \/ exists cid,
                 contacts db'
                 = contacts (exec (upload_service.detect_contact_duplicates cid) mid)))
  /\ ((company_id = None ->
       Forall (fun row => row !! "company_name" <> Some None)
         (upload_service.csv_rows file)) ->
      (forall cid, company_id = Some cid -> segment_id = None ->
                   is_Some (companies db !! cid)) ->
      exists res, r = Return res)
  /\ forall batch errs, r = Return (batch, errs) ->
       batch = length (upload_batches db)
       /\ exists b,
            upload_batches db' !! batch = Some b
            /\ batch_consistent file b errs.
Proof.
  unfold upload_service.process_contact_csv.
  erewrite bind_Return by reflexivity.
  erewrite bind_Return by reflexivity.
  set (b0 := {| upload_batch_model.upload_type := upload_batch_model.CONTACT;
                upload_batch_model.file_name := upload_service.file_name_or_unknown file;
                upload_batch_model.file_size_bytes := upload_service.size file;
                upload_batch_model.total_rows := 0;
                upload_batch_model.valid_rows := 0;
                upload_batch_model.invalid_rows := 0;
                upload_batch_model.status := upload_batch_model.PROCESSING;
                upload_batch_model.uploaded_by := created_by;
                upload_batch_model.created_at := clock 1 |}).
  set (db1 := with_upload_batches (upload_batches db ++ [b0]) db).
  change (companies db1) with (companies db).
  set (seg := match company_id, segment_id with
              | Some cid, None => company_model.segment_id <$> companies db !! cid
              | _, _ => segment_id
              end).
  set (lookup := match seg, company_id with
                 | Some s, None => upload_service.build_company_lookup s (companies db)
                 | _, _ => ∅
                 end).
  destruct (upload_service.contact_rows validate_email company_id seg lookup
              created_by (length (upload_batches db)) clock 2
              (upload_service.csv_rows file)
              {| upload_service.counters := upload_service.no_rows;
                 upload_service.contact_company_id := None |} db1)
    as [r1 db2] eqn:Hrows.
  pose proof Hrows as Hspec.
  apply contact_rows_spec in Hspec
    as (Hco & Hba & (new & Hnew & Hup) & Htot & Hcount).
  change (companies db1) with (companies db) in Hco, Htot.
  change (contacts db1) with (contacts db) in Hnew.
  change (upload_batches db1) with (upload_batches db ++ [b0]) in Hba.
  assert (Hreturns :
    (company_id = None ->
     Forall (fun row => row !! "company_name" <> Some None)
       (upload_service.csv_rows file)) ->
    (forall cid, company_id = Some cid -> segment_id = None ->
                 is_Some (companies db !! cid)) ->
    exists lp, r1 = Return lp).
  { intros Hcells Hcompany. apply Htot; [done| |].
    - intros Hsome. unfold seg.
      destruct company_id as [cid|]; [|done].
      destruct segment_id as [s|]; [by eexists|].
      destruct (Hcompany cid eq_refl eq_refl) as [c Hc]. rewrite Hc. by eexists.
    - intros k ref. unfold lookup.
      destruct seg as [s|]; [|by rewrite lookup_empty].
      destruct company_id; [by rewrite lookup_empty|].
      apply build_company_lookup_resolves. }
  destruct r1 as [lp|e].
  - rewrite (bind_Return _ _ _ _ _ Hrows).
    destruct (Hcount lp eq_refl) as (Ht & Hv & errs & He & Ho).
    simpl in Ht, Hv, He. subst errs.
    assert (Hb0 : upload_batches db2 !! length (upload_batches db) = Some b0).
    { rewrite Hba, lookup_app_r by done. by rewrite Nat.sub_diag. }
    rewrite (bind_Return _ _ _ _ _
               (close_batch_run _ (upload_service.counters lp) _ _ Hb0)).
    rewrite Hba, insert_app_r_alt by done. rewrite Nat.sub_diag.
    cbn [insert list_insert].
    set (b := upload_batch_model.set_statistics _ _ _ _ b0).
    assert (Hb : batch_consistent file b
                   (upload_service.errors (upload_service.counters lp)))
      by (apply closed_batch_consistent; [lia|lia|done]).
    set (mid := with_upload_batches (upload_batches db ++ [b]) db2).
    assert (Hbatch : upload_batches mid !! length (upload_batches db) = Some b).
    { unfold mid. cbn [upload_batches with_upload_batches].
      rewrite lookup_app_r by done. by rewrite Nat.sub_diag. }
    destruct (decide (0 < upload_service.n_valid (upload_service.counters lp)))
      as [Hvalid|Hvalid];
      [destruct (upload_service.contact_company_id lp) as [cid|]|].
    + destruct (detect_contact_duplicates_returns cid mid) as [n Hdet].
      destruct (detect_contact_duplicates_frame cid mid) as (Hc & Hbs & _ & _).
      rewrite (bind_Return _ _ _ _ _ Hdet). unfold ret. intros [= <- <-].
      split; [by rewrite Hc|].
      split; [exists new, mid; split; [done|]; split; [done|]; right; by exists cid|].
      split; [by eexists|].
      intros batch errs [= <- <-]. split; [done|].
      exists b. split; [by rewrite Hbs|done].
    + unfold ret. intros [= <- <-].
      split; [done|].
      split; [exists new, mid; split; [done|]; split; [done|]; by left|].
      split; [by eexists|].
      intros batch errs [= <- <-]. split; [done|]. by exists b.
    + unfold ret. intros [= <- <-].
      split; [done|].
      split; [exists new, mid; split; [done|]; split; [done|]; by left|].
      split; [by eexists|].
      intros batch errs [= <- <-]. split; [done|]. by exists b.
  - rewrite (bind_Raise _ _ _ _ _ Hrows). intros [= <- <-]. split; [done|].
    split; [exists new, db2; split; [done|]; split; [done|]; by left|].
    split; [|by intros batch errs ?].
    intros Hcells Hcompany. by destruct (Hreturns Hcells Hcompany).
Qed.

Example process_company_csv_sample :
  let '(r, db') :=
    upload_service.process_company_csv sample_int_of_str sample_company_file
      7 1 (fun n => 10 + n) empty_db in
  r = Return (0, [])
  /\ (fun b => (upload_batch_model.total_rows b, upload_batch_model.valid_rows b,
                upload_batch_model.invalid_rows b, upload_batch_model.status b))
       <$> upload_batches db'
     = [(3, 3, 0, upload_batch_model.COMPLETED)]
  /\ company_model.is_duplicate <$> companies db' = [false; false; true].
Proof. vm_compute. repeat split; reflexivity. Qed.

Example process_company_csv_sample_with_errors :
  let '(r, db') :=
    upload_service.process_company_csv sample_int_of_str
      sample_company_file_with_errors 7 1 (fun n => 10 + n) empty_db in
  match r with
  | Return (_, errs) => upload_service.row_number <$> errs
  | Raise _ => []
  end = [2; 4; 4]
  /\ (fun b => (upload_batch_model.total_rows b, upload_batch_model.valid_rows b,
                upload_batch_model.invalid_rows b, upload_batch_model.status b))
       <$> upload_batches db'
     = [(3, 1, 2, upload_batch_model.FAILED)].
Proof. vm_compute. repeat split; reflexivity. Qed.

(** C3. [process_company_csv] always returns, and whenever
    [process_contact_csv] returns: the batch persisted in the store has
    total_rows = valid_rows + invalid_rows (and total_rows is the number of
    rows of the file), its status is [completed] exactly when invalid_rows
    is 0 and [failed] exactly when invalid_rows is positive, and the errors
    returned are listed in the order of the rows they belong to.
    [process_contact_csv] returns when, in the mode without a company, no
    row lacks the company_name cell and, in the mode with a company and no
    segment, the company exists. *)
Theorem batch_counters_consistent :
  (forall (int_of_str : string -> option Z) (file : upload_service.UploadFile)
          (segment_id created_by : nat) (clock : nat -> nat) (db : DB),
     exists batch errs db' b,
       upload_service.process_company_csv int_of_str file segment_id
         created_by clock db = (Return (batch, errs), db')
       /\ upload_batches db' !! batch = Some b
       /\ batch_consistent file b errs)
  /\ (forall (validate_email : string -> option string)
             (file : upload_service.UploadFile)
             (company_id segment_id : option nat) (created_by : nat)
             (clock : nat -> nat) (db db' : DB) batch errs,
        upload_service.process_contact_csv validate_email file company_id
          segment_id created_by clock db = (Return (batch, errs), db') ->
        exists b,
          upload_batches db' !! batch = Some b
          /\ batch_consistent file b errs)
  /\ (forall (validate_email : string -> option string)
             (file : upload_service.UploadFile)
             (company_id segment_id : option nat) (created_by : nat)
             (clock : nat -> nat) (db : DB),
        (company_id = None ->
         Forall (fun row => row !! "company_name" <> Some None)
           (upload_service.csv_rows file)) ->
        (forall cid, company_id = Some cid -> segment_id = None ->
                     is_Some (companies db !! cid)) ->
        exists batch errs db',
          upload_service.process_contact_csv validate_email file company_id
            segment_id created_by clock db = (Return (batch, errs), db')).
Proof.
  split; [|split].
  - intros int_of_str file segment_id created_by clock db.
    destruct (process_company_csv_spec int_of_str file segment_id created_by
                clock db)
      as (errs & b & new & mid & db' & Hrun & Hb & _ & _ & _ & Hbatches & Hdb').
    exists (length (upload_batches db)), errs, db', b.
    split; [done|]. split; [|done].
    assert (Hmid : upload_batches mid !! length (upload_batches db) = Some b).
    { rewrite Hbatches, lookup_app_r by done. by rewrite Nat.sub_diag. }
    destruct Hdb' as [->| ->]; [done|].
    destruct (detect_company_duplicates_frame segment_id mid) as (_ & -> & _).
    done.
  - intros validate_email file company_id segment_id created_by clock db db'
      batch errs Hrun.
    apply process_contact_csv_spec in Hrun as (_ & _ & _ & Hreturn).
    by destruct (Hreturn batch errs eq_refl) as (_ & Hb).
  - intros validate_email file company_id segment_id created_by clock db
      Hcells Hcompany.
    destruct (upload_service.process_contact_csv validate_email file company_id
                segment_id created_by clock db) as [r db'] eqn:Hrun.
    apply process_contact_csv_spec in Hrun as (_ & _ & Hreturns & _).
    destruct (Hreturns Hcells Hcompany) as [[batch errs] ->].
    by exists batch, errs, db'.
Qed.

Lemma batch_counters_consistent_witness :
  (exists b,
     upload_batches
       (exec (upload_service.process_contact_csv sample_validate_email
                sample_contact_file_unmatched None (Some 7) 1
                (fun n => 10 + n)) sample_db_two_companies) !! 0 = Some b
     /\ batch_consistent sample_contact_file_unmatched b
          [ {| upload_service.row_number := 3;
               upload_service.field := "company_name";
               upload_service.error := "Company 'Initrode' not found in segment" |} ])
  /\ (exists batch errs db',
        upload_service.process_contact_csv sample_validate_email
          sample_contact_file None (Some 7) 1 (fun n => 10 + n)
          sample_db_two_companies = (Return (batch, errs), db')).
Proof.
  destruct batch_counters_consistent as (_ & Hcontact & Hreturns).
  split.
  - apply (Hcontact sample_validate_email sample_contact_file_unmatched
             None (Some 7) 1 (fun n => 10 + n) sample_db_two_companies).
    vm_compute. reflexivity.
  - apply Hreturns.
    + intros _. repeat constructor; discriminate.
    + intros cid Hcid. discriminate Hcid.
Defined.

(** C9 fails on the code.  A contact file ingested by segment adds a contact
    to Acme (company 0) whose address collides with an older contact of
    Acme, then a contact to Globex (company 1).  Both rows are valid, yet
    the detection that follows the loop runs for the company of the last
    row only: the new contact of Acme is left unflagged, and a detection run
    for Acme on the resulting store still finds one duplicate to mark.
    When the last row names an unknown company, no detection runs at all. *)
Theorem contact_batch_detection_misses_companies :
  (let '(r, db') :=
     upload_service.process_contact_csv sample_validate_email
       sample_contact_file None (Some 7) 1 (fun n => 10 + n)
       sample_db_two_companies in
   r = Return (0, [])
   /\ (fun c => (contact_model.company_id c, contact_model.batch_id c,
                 contact_model.is_duplicate c)) <$> contacts db'
      = [(0, None, false); (0, Some 0, false); (1, Some 0, false)]
   /\ (fun b => (upload_batch_model.valid_rows b, upload_batch_model.status b))
        <$> upload_batches db'
      = [(2, upload_batch_model.COMPLETED)]
   /\ eval (upload_service.detect_contact_duplicates 0) db' = Return 1)
  /\ (let '(r, db') :=
     upload_service.process_contact_csv sample_validate_email
       sample_contact_file_unmatched None (Some 7) 1 (fun n => 10 + n)
       sample_db_two_companies in
   (fun c => (contact_model.company_id c, contact_model.batch_id c,
              contact_model.is_duplicate c)) <$> contacts db'
   = [(0, None, false); (0, Some 0, false)]
   /\ (fun b => (upload_batch_model.valid_rows b, upload_batch_model.status b))
        <$> upload_batches db'
      = [(1, upload_batch_model.FAILED)]
   /\ eval (upload_service.detect_contact_duplicates 0) db' = Return 1).
Proof. split; vm_compute; repeat split; reflexivity. Qed.

(** ** The company invariant *)

Lemma company_invariant_ext (c c' : company_model.Company) :
  company_model.status c' = company_model.status c ->
  company_model.rejection_reason c' = company_model.rejection_reason c ->
  company_invariant c -> company_invariant c'.
Proof. unfold company_invariant. by intros -> ->. Qed.

Lemma company_invariant_pending (c : company_model.Company) :
  company_model.status c = company_model.PENDING ->
  company_model.rejection_reason c = None ->
  company_invariant c.
Proof.
  unfold company_invariant. intros -> ->. simpl.
  split; split; try done. by left.
Qed.

Lemma company_invariant_decided (s : company_model.CompanyStatusEnum)
    (r : option string) (c : company_model.Company) :
  s <> company_model.PENDING ->
  (s = company_model.REJECTED <-> pystr.truthy_opt r = true) ->
  company_invariant (company_model.set_decision s r c).
Proof.
  unfold company_invariant. simpl. intros Hs Hr. split; [done|].
  rewrite <- not_true_iff_false, <- Hr. destruct s; intuition congruence.
Qed.

Lemma company_invariant_reflagged (table table' : list company_model.Company) :
  length table' = length table ->
  (forall i c, table !! i = Some c ->
     exists b, table' !! i = Some (company_model.set_is_duplicate b c)) ->
  Forall company_invariant table -> Forall company_invariant table'.
Proof.
  intros Hlen Hrows Hinv. apply Forall_lookup. intros i c' Hc'.
  destruct (table !! i) as [c|] eqn:Hc.
  - destruct (Hrows i c Hc) as [b Hb]. rewrite Hb in Hc'. simplify_eq.
    eapply company_invariant_ext; [| |by eapply Forall_lookup_1]; done.
  - apply lookup_ge_None in Hc. apply lookup_lt_Some in Hc'. lia.
Qed.

Ltac run_service :=
  unfold exec,
    company_service.create_company, company_service.update_company,
    company_service.approve_company, company_service.mark_duplicate,
    company_service.get_company,
    contact_service.create_contact, contact_service.update_contact,
    contact_service.approve_contact, contact_service.assign_to_sdr,
    contact_service.mark_meeting_scheduled, contact_service.mark_duplicate,
    contact_service.get_contact,
    session.add_company, session.add_contact, session.store_company,
    session.store_contact, bind, ret, raise; simpl.

Lemma bulk_assign_loop_companies (contact_ids : list nat) (sdr_id : nat) :
  forall (acc : list nat) (db : DB),
    companies (exec (contact_service.bulk_assign_loop contact_ids sdr_id acc) db)
    = companies db.
Proof.
  induction contact_ids as [|cid rest IH]; intros acc db; [done|].
  unfold exec in *. cbn [contact_service.bulk_assign_loop]. unfold bind at 1.
  destruct (contact_service.assign_to_sdr cid sdr_id db) as [[c|e] db1] eqn:Hrun.
  - rewrite IH.
    revert Hrun. run_service.
    destruct (contacts db !! cid); [|by intros ?; simplify_eq].
    case_decide; by intros ?; simplify_eq.
  - simpl. revert Hrun. run_service.
    destruct (contacts db !! cid); [|by intros ?; simplify_eq].
    case_decide; by intros ?; simplify_eq.
Qed.

Lemma run_preserves_company_invariant (int_of_str : string -> option Z)
    (validate_email : string -> option string) (op : Operation) (db : DB) :
  Forall company_invariant (companies db) ->
  Forall company_invariant (companies (run int_of_str validate_email op db)).
Proof.
  intros Hinv. destruct op; cbn [run].
  - (* create_company *)
    run_service. apply Forall_app. split; [done|].
    constructor; [|done]. by apply company_invariant_pending.
  - (* update_company *)
    run_service. destruct (companies db !! company_id) as [c|] eqn:Hc; [|done].
    unfold company_service.apply_update.
    destruct (updated_not_null _ _); [|done].
    destruct (updated_not_null _ _); [|done]. simpl.
    apply Forall_insert; [done|].
    eapply company_invariant_ext; [| |by eapply Forall_lookup_1]; done.
  - (* approve_company *)
    destruct (company_schema.validate_approval body) as [errs|a] eqn:Hv; [done|].
    apply validate_approval_inr in Hv as (_ & _ & Hnp & Hrej).
    run_service. destruct (companies db !! company_id) as [c|] eqn:Hc; [|done].
    case_decide; [done|]. simpl. apply Forall_insert; [done|].
    assert (company_invariant
              (company_model.set_decision (company_schema.status a)
                 (company_schema.rejection_reason a) c))
      by by apply company_invariant_decided.
    destruct approved_by; [|done].
    eapply company_invariant_ext; [| |done]; done.
  - (* mark_company_duplicate *)
    run_service. destruct (companies db !! company_id) as [c|] eqn:Hc; [|done].
    simpl. apply Forall_insert; [done|].
    eapply company_invariant_ext; [| |by eapply Forall_lookup_1]; done.
  - (* process_company_csv *)
    destruct (process_company_csv_spec int_of_str file segment_id created_by
                clock db)
      as (errs & b & new & mid & db' & Hrun & _ & Hmid & Hnew & _ & _ & Hdb').
    unfold exec. rewrite Hrun. simpl.
    assert (Hinv' : Forall company_invariant (companies mid)).
    { rewrite Hmid. apply Forall_app. split; [done|].
      eapply Forall_impl; [exact Hnew|]. intros c [? ?].
      by apply company_invariant_pending. }
    destruct Hdb' as [->| ->]; [done|].
    destruct (detect_company_duplicates_frame segment_id mid)
      as (_ & _ & Hlen & Hrows).
    by eapply company_invariant_reflagged.
  - (* detect_company_duplicates *)
    destruct (detect_company_duplicates_frame segment_id db)
      as (_ & _ & Hlen & Hrows).
    by eapply company_invariant_reflagged.
  - (* create_contact *)
    run_service. by destruct (companies db !! contact_schema.company_id data).
  - (* update_contact *)
    run_service. destruct (contacts db !! contact_id); [|done].
    by destruct (contact_service.apply_update _ _).
  - (* approve_contact *)
    run_service. destruct (contacts db !! contact_id); [|done].
    by repeat case_decide.
  - (* assign_to_sdr *)
    run_service. destruct (contacts db !! contact_id); [|done].
    by repeat case_decide.
  - (* bulk_assign_to_sdr *)
    unfold contact_service.bulk_assign_to_sdr.
    by rewrite bulk_assign_loop_companies.
  - (* mark_meeting_scheduled *)
    run_service. destruct (contacts db !! contact_id); [|done].
    by repeat case_decide.
  - (* mark_contact_duplicate *)
    run_service. by destruct (contacts db !! contact_id).
  - (* process_contact_csv *)
    unfold exec.
    destruct (upload_service.process_contact_csv _ _ _ _ _ _ _) as [r db'] eqn:Hrun.
    apply process_contact_csv_spec in Hrun as (Hco & _). simpl. by rewrite Hco.
  - (* detect_contact_duplicates *)
    by destruct (detect_contact_duplicates_frame company_id db) as (-> & _).
Qed.

(** C7. The company invariant (rejected exactly when the rejection reason is
    non-empty; pending or approved exactly when it is empty) is kept by every
    operation and so by every sequence of operations: creation, update,
    approval through a validated decision, duplicate marking, batch
    ingestion and duplicate detection, and the operations on contacts. *)
Theorem rejection_reason_iff_rejected :
  forall (int_of_str : string -> option Z)
         (validate_email : string -> option string)
         (ops : list Operation) (db : DB),
    Forall company_invariant (companies db) ->
    Forall company_invariant
      (companies (run_all int_of_str validate_email ops db)).
Proof.
  intros int_of_str validate_email ops. unfold run_all.
  induction ops as [|op ops IH]; intros db Hinv; [done|].
  simpl. apply IH. by apply run_preserves_company_invariant.
Qed.

Lemma rejection_reason_iff_rejected_witness :
  Forall company_invariant
    (companies
       (run_all sample_int_of_str sample_validate_email
          [ approve_company 0
              {| company_schema.body_status := Some "rejected";
                 company_schema.body_rejection_reason := Some "not a fit" |}
              None 9;
            approve_company 1
              {| company_schema.body_status := Some "approved";
                 company_schema.body_rejection_reason := Some "not a fit" |}
              None 9;
            process_company_csv sample_company_file 7 1 (fun n => 10 + n) ]
          sample_db)).
Proof.
  apply rejection_reason_iff_rejected.
  repeat constructor; by apply company_invariant_pending.
Defined.

(** ** The contact pipeline over time *)

Lemma advances_refl (s : contact_model.ContactStatusEnum) : advances s s.
Proof. unfold advances. lia. Qed.

Lemma contacts_step_eq (db db' : DB) :
  contacts db' = contacts db -> contacts_step db db'.
Proof. intros Heq i c Hc. exists c. rewrite Heq. split; [done|apply advances_refl]. Qed.

Lemma contacts_step_app (db db' : DB) (new : list contact_model.Contact) :
  contacts db' = contacts db ++ new -> contacts_step db db'.
Proof.
  intros Heq i c Hc. exists c. rewrite Heq.
  split; [by apply lookup_app_l_Some|apply advances_refl].
Qed.

Lemma contacts_step_insert (db db' : DB) (i : nat) (c c' : contact_model.Contact) :
  contacts db !! i = Some c ->
  contacts db' = <[i := c']> (contacts db) ->
  advances (contact_model.status c) (contact_model.status c') ->
  contacts_step db db'.
Proof.
  intros Hc Heq Hadv j cj Hcj. rewrite Heq.
  destruct (decide (i = j)) as [->|Hne].
  - exists c'. rewrite list_lookup_insert_eq by by eapply lookup_lt_Some.
    rewrite Hc in Hcj. by simplify_eq.
  - exists cj. rewrite list_lookup_insert_ne by done.
    split; [done|apply advances_refl].
Qed.

(** The effect of one assignment, and of a sequence of them: a contact keeps
    its status or goes from [approved] to [assigned_to_sdr]. *)
Lemma assign_to_sdr_effect (contact_id sdr_id : nat) (db : DB) :
  forall i c,
    contacts db !! i = Some c ->
    exists c',
      contacts (exec (contact_service.assign_to_sdr contact_id sdr_id) db) !! i
      = Some c'
      /\ (contact_model.status c' = contact_model.status c
          \/ (contact_model.status c = contact_model.APPROVED
              /\ contact_model.status c' = contact_model.ASSIGNED_TO_SDR)).
Proof.
  intros i c Hc. run_service.
  destruct (contacts db !! contact_id) as [c0|] eqn:Hc0; [|by eauto].
  case_decide as Hs; simpl; [by eauto|].
  try apply dec_stable in Hs.
  destruct (decide (contact_id = i)) as [->|Hne].
  - rewrite list_lookup_insert_eq by by eapply lookup_lt_Some.
    rewrite Hc in Hc0. simplify_eq. eexists. split; [done|]. by right.
  - rewrite list_lookup_insert_ne by done. by eauto.
Qed.

Lemma bulk_assign_loop_effect (contact_ids : list nat) (sdr_id : nat) :
  forall (acc : list nat) (db : DB) i c,
    contacts db !! i = Some c ->
    exists c',
      contacts (exec (contact_service.bulk_assign_loop contact_ids sdr_id acc) db) !! i
      = Some c'
      /\ (contact_model.status c' = contact_model.status c
          \/ (contact_model.status c = contact_model.APPROVED
              /\ contact_model.status c' = contact_model.ASSIGNED_TO_SDR)).
Proof.
  induction contact_ids as [|cid rest IH]; intros acc db i c Hc.
  - exists c. by split; [|left].
  - destruct (assign_to_sdr_effect cid sdr_id db i c Hc) as (c1 & Hc1 & Hs1).
    unfold exec in *. cbn [contact_service.bulk_assign_loop]. unfold bind at 1.
    destruct (contact_service.assign_to_sdr cid sdr_id db) as [[r|e] db1];
      simpl in Hc1; [|by eauto].
    destruct (IH (acc ++ [r]) db1 i c1 Hc1) as (c2 & Hc2 & Hs2).
    exists c2. split; [done|].
    destruct Hs1 as [Hs1|[Hs1 Hs1']], Hs2 as [Hs2|[Hs2 Hs2']].
    + left. congruence.
    + right. split; congruence.
    + right. split; congruence.
    + congruence.
Qed.

Lemma run_contacts_step (int_of_str : string -> option Z)
    (validate_email : string -> option string) (op : Operation) (db : DB) :
  contacts_step db (run int_of_str validate_email op db).
Proof.
  destruct op; cbn [run].
  - (* create_company *) by apply contacts_step_eq.
  - (* update_company *)
    apply contacts_step_eq. run_service.
    destruct (companies db !! company_id); [|done].
    by destruct (company_service.apply_update _ _).
  - (* approve_company *)
    destruct (company_schema.validate_approval body); [by apply contacts_step_eq|].
    apply contacts_step_eq. run_service.
    destruct (companies db !! company_id); [|done]. by case_decide.
  - (* mark_company_duplicate *)
    apply contacts_step_eq. run_service.
    by destruct (companies db !! company_id).
  - (* process_company_csv *)
    destruct (process_company_csv_spec int_of_str file segment_id created_by
                clock db)
      as (errs & b & new & mid & db' & Hrun & _ & _ & _ & Hmid & _ & Hdb').
    unfold exec. rewrite Hrun. simpl. apply contacts_step_eq.
    destruct Hdb' as [->| ->]; [done|].
    by destruct (detect_company_duplicates_frame segment_id mid) as (-> & _).
  - (* detect_company_duplicates *)
    apply contacts_step_eq.
    by destruct (detect_company_duplicates_frame segment_id db) as (-> & _).
  - (* create_contact *)
    run_service.
    destruct (companies db !! contact_schema.company_id data);
      [by eapply contacts_step_app|by apply contacts_step_eq].
  - (* update_contact *)
    run_service.
    destruct (contacts db !! contact_id) as [c|] eqn:Hc; [|by apply contacts_step_eq].
    unfold contact_service.apply_update.
    repeat (destruct (updated_not_null _ _); [|by apply contacts_step_eq]).
    eapply contacts_step_insert; [done|done|apply advances_refl].
  - (* approve_contact *)
    run_service.
    destruct (contacts db !! contact_id) as [c|] eqn:Hc; [|by apply contacts_step_eq].
    case_decide; [by apply contacts_step_eq|].
    case_decide as Hs; [by apply contacts_step_eq|]. try apply dec_stable in Hs.
    eapply contacts_step_insert; [done|done|]. rewrite Hs. unfold advances. simpl. lia.
  - (* assign_to_sdr *)
    intros i c Hc.
    destruct (assign_to_sdr_effect contact_id sdr_id db i c Hc)
      as (c' & Hc' & [Hs|[Hs Hs']]); exists c'; (split; [done|]).
    + rewrite Hs. apply advances_refl.
    + rewrite Hs, Hs'. unfold advances. simpl. lia.
  - (* bulk_assign_to_sdr *)
    intros i c Hc. unfold contact_service.bulk_assign_to_sdr.
    destruct (bulk_assign_loop_effect contact_ids sdr_id [] db i c Hc)
      as (c' & Hc' & [Hs|[Hs Hs']]); exists c'; (split; [done|]).
    + rewrite Hs. apply advances_refl.
    + rewrite Hs, Hs'. unfold advances. simpl. lia.
  - (* mark_meeting_scheduled *)
    run_service.
    destruct (contacts db !! contact_id) as [c|] eqn:Hc; [|by apply contacts_step_eq].
    case_decide as Hs; [by apply contacts_step_eq|]. try apply dec_stable in Hs.
    eapply contacts_step_insert; [done|done|]. rewrite Hs. unfold advances. simpl. lia.
  - (* mark_contact_duplicate *)
    run_service.
    destruct (contacts db !! contact_id) as [c|] eqn:Hc; [|by apply contacts_step_eq].
    eapply contacts_step_insert; [done|done|apply advances_refl].
  - (* process_contact_csv *)
    unfold exec.
    destruct (upload_service.process_contact_csv _ _ _ _ _ _ _) as [r db'] eqn:Hrun.
    apply process_contact_csv_spec in Hrun
      as (_ & (new & mid & _ & Hmid & Hdb') & _). simpl.
    intros i c Hc.
    assert (Hc1 : contacts mid !! i = Some c)
      by (rewrite Hmid; by apply lookup_app_l_Some).
    destruct Hdb' as [->|[cid ->]].
    + exists c. split; [done|apply advances_refl].
    + destruct (detect_contact_duplicates_frame cid mid) as (_ & _ & _ & Hrows).
      destruct (Hrows i c Hc1) as [b Hb]. eexists. split; [done|].
      apply advances_refl.
  - (* detect_contact_duplicates *)
    intros i c Hc.
    destruct (detect_contact_duplicates_frame company_id db) as (_ & _ & _ & Hrows).
    destruct (Hrows i c Hc) as [b Hb]. eexists. split; [done|].
    apply advances_refl.
Qed.

Lemma run_all_contacts_progress (int_of_str : string -> option Z)
    (validate_email : string -> option string) (ops : list Operation) :
  forall db, contacts_progress db (run_all int_of_str validate_email ops db).
Proof.
  unfold run_all. induction ops as [|op ops IH]; intros db i c Hc; simpl.
  - by exists c.
  - destruct (run_contacts_step int_of_str validate_email op db i c Hc)
      as (c1 & Hc1 & Hadv1 & _).
    destruct (IH _ i c1 Hc1) as (c2 & Hc2 & Hadv2).
    exists c2. split; [done|lia].
Qed.

(** C8. Every operation leaves each existing contact in place with its
    status unchanged or moved to the next stage of
    uploaded, approved, assigned_to_sdr, meeting_scheduled: never backwards,
    never over a stage.  Hence over any sequence of operations the statuses
    observed for a contact are non-decreasing.  The status enumeration has no
    rejected member, so no operation rejects a contact. *)
Theorem contact_status_monotone :
  forall (int_of_str : string -> option Z)
         (validate_email : string -> option string),
    (forall (op : Operation) (db : DB) i c,
       contacts db !! i = Some c ->
       exists c',
         contacts (run int_of_str validate_email op db) !! i = Some c'
         /\ contact_model.stage (contact_model.status c)
            <= contact_model.stage (contact_model.status c')
         /\ contact_model.stage (contact_model.status c')
            <= S (contact_model.stage (contact_model.status c)))
    /\ (forall (ops1 ops2 : list Operation) (db : DB) i c1,
       contacts (run_all int_of_str validate_email ops1 db) !! i = Some c1 ->
       exists c2,
         contacts (run_all int_of_str validate_email (ops1 ++ ops2) db) !! i
         = Some c2
         /\ contact_model.stage (contact_model.status c1)
            <= contact_model.stage (contact_model.status c2))
    /\ (forall s : contact_model.ContactStatusEnum,
          contact_model.value s <> "rejected").
Proof.
  intros int_of_str validate_email. split; [|split].
  - intros op db i c Hc.
    by apply (run_contacts_step int_of_str validate_email op db i c Hc).
  - intros ops1 ops2 db i c1 Hc1. unfold run_all. rewrite foldl_app.
    by apply (run_all_contacts_progress int_of_str validate_email ops2 _ i c1).
  - by intros [].
Qed.

Lemma contact_status_monotone_witness :
  exists c',
    contacts
      (run sample_int_of_str sample_validate_email
         (bulk_assign_to_sdr [0; 1; 0] 5)
         (with_contacts
            [ sample_contact "ann@acme.com" 0 7 contact_model.APPROVED 4;
              sample_contact "bob@acme.com" 0 7 contact_model.APPROVED 5 ]
            empty_db)) !! 0 = Some c'
    /\ contact_model.stage contact_model.APPROVED
       <= contact_model.stage (contact_model.status c')
    /\ contact_model.stage (contact_model.status c')
       <= S (contact_model.stage contact_model.APPROVED).
Proof.
  destruct (contact_status_monotone sample_int_of_str sample_validate_email)
    as (Hstep & _).
  apply (Hstep (bulk_assign_to_sdr [0; 1; 0] 5) _ 0
           (sample_contact "ann@acme.com" 0 7 contact_model.APPROVED 4)).
  reflexivity.
Defined.

Example bulk_assign_stops_at_first_failure :
  contact_model.status
    <$> contacts
          (run sample_int_of_str sample_validate_email
             (bulk_assign_to_sdr [0; 0; 1] 5)
             (with_contacts
                [ sample_contact "ann@acme.com" 0 7 contact_model.APPROVED 4;
                  sample_contact "bob@acme.com" 0 7 contact_model.APPROVED 5 ]
                empty_db))
  = [contact_model.ASSIGNED_TO_SDR; contact_model.APPROVED].
Proof. reflexivity. Qed.

(** * Further properties of the services *)

(** ** Pages of a query *)

Section page_facts.

Context {A : Type} (P : A -> Prop) `{!forall x, Decision (P x)}.
Variable key : A -> nat.

Lemma insert_sorted_desc_perm (r : nat * A) (l : list (nat * A)) :
  session.insert_sorted_desc key r l ≡ₚ r :: l.
Proof.
  induction l as [|r' l IH]; simpl; [done|].
  case_decide; [|done]. rewrite IH. apply Permutation_swap.
Qed.

Lemma order_by_desc_perm_acc (l acc : list (nat * A)) :
  foldl (fun acc r => session.insert_sorted_desc key r acc) acc l ≡ₚ acc ++ l.
Proof.
  revert acc. induction l as [|r l IH]; intros acc; simpl.
  - by rewrite app_nil_r.
  - rewrite IH, insert_sorted_desc_perm. simpl. apply Permutation_middle.
Qed.

Lemma order_by_desc_perm (l : list (nat * A)) :
  session.order_by_desc key l ≡ₚ l.
Proof. apply (order_by_desc_perm_acc l []). Qed.

Lemma insert_sorted_desc_sorted (r : nat * A) (l : list (nat * A)) :
  StronglySorted (newest_first key) l ->
  StronglySorted (newest_first key) (session.insert_sorted_desc key r l).
Proof.
  induction 1 as [|r' l Hl IH Hall]; simpl.
  - repeat constructor.
  - case_decide as Hle.
    + constructor; [done|].
      eapply Forall_forall. intros y Hy.
      rewrite insert_sorted_desc_perm in Hy.
      apply elem_of_cons in Hy as [->|Hy]; [done|].
      by eapply Forall_forall in Hall.
    + constructor; [by constructor|].
      constructor; [unfold newest_first; lia|].
      eapply Forall_impl; [exact Hall|]. unfold newest_first.
      intros; simpl in *. lia.
Qed.

Lemma order_by_desc_sorted (l : list (nat * A)) :
  StronglySorted (newest_first key) (session.order_by_desc key l).
Proof.
  unfold session.order_by_desc.
  assert (Hgen : forall acc,
            StronglySorted (newest_first key) acc ->
            StronglySorted (newest_first key)
              (foldl (fun acc r => session.insert_sorted_desc key r acc) acc l)).
  { induction l as [|r l IH]; intros acc Hacc; simpl; [done|].
    apply IH. by apply insert_sorted_desc_sorted. }
  apply Hgen. constructor.
Qed.

Lemma select_where_resolves (table : list A) :
  Forall (fun r => table !! r.1 = Some r.2 /\ P r.2)
    (session.select_where P table).
Proof.
  apply Forall_forall. intros r Hr. unfold session.select_where in Hr.
  apply list_elem_of_filter in Hr as [HP Hr]. by apply elem_of_rows in Hr.
Qed.

Lemma select_where_NoDup (table : list A) :
  NoDup (session.select_where P table).*1.
Proof.
  unfold session.select_where.
  apply (sublist_NoDup _ (session.rows table).*1).
  - rewrite rows_fst. apply NoDup_seq.
  - apply fmap_sublist, sublist_filter.
Qed.

Lemma offset_limit_sorted (R : relation (nat * A)) (skip limit : nat)
    (l : list (nat * A)) :
  StronglySorted R l -> StronglySorted R (session.offset_limit skip limit l).
Proof.
  intros Hl. unfold session.offset_limit.
  rewrite <- (take_drop skip l) in Hl.
  apply StronglySorted_app in Hl as (_ & _ & Hdrop).
  rewrite <- (take_drop limit (drop skip l)) in Hdrop.
  by apply StronglySorted_app in Hdrop as (_ & Htake & _).
Qed.

Lemma offset_limit_sublist {B} (skip limit : nat) (l : list B) :
  session.offset_limit skip limit l `sublist_of` l.
Proof.
  unfold session.offset_limit.
  etrans; [apply sublist_take|apply sublist_drop].
Qed.

(** A page of the rows that satisfy [P], newest first. *)
Lemma page_desc_spec (skip limit : nat) (table : list A) :
  let page :=
    session.offset_limit skip limit
      (session.order_by_desc key (session.select_where P table)) in
  length page = min limit (session.count_where P table - skip)
  /\ Forall (fun r => table !! r.1 = Some r.2 /\ P r.2) page
  /\ NoDup page.*1
  /\ StronglySorted (newest_first key) page.
Proof.
  intros page. unfold page. split; [|split; [|split]].
  - unfold session.offset_limit, session.count_where.
    by rewrite length_take, length_drop, order_by_desc_perm.
  - apply Forall_forall. intros r Hr.
    eapply elem_of_sublist in Hr; [|apply offset_limit_sublist].
    rewrite order_by_desc_perm in Hr.
    by eapply Forall_forall in Hr; [|apply select_where_resolves].
  - eapply sublist_NoDup; [|apply fmap_sublist, offset_limit_sublist].
    rewrite order_by_desc_perm. apply select_where_NoDup.
  - apply offset_limit_sorted, order_by_desc_sorted.
Qed.


(** Consecutive pages add up to the larger page. *)
Lemma offset_limit_pages {B} (skip limit1 limit2 : nat) (l : list B) :
  session.offset_limit skip limit1 l
  ++ session.offset_limit (skip + limit1) limit2 l
  = session.offset_limit skip (limit1 + limit2) l.
Proof.
  unfold session.offset_limit. rewrite <- drop_drop. apply take_take_drop.
Qed.

End page_facts.

(** ** Listing and counting *)



Lemma contact_of_value_Some (raw : string) (s : contact_model.ContactStatusEnum) :
  contact_model.of_value raw = Some s <-> raw = contact_model.value s.
Proof.
  unfold contact_model.of_value. split.
  - repeat case_decide; intros; by simplify_eq.
  - intros ->. by destruct s.
Qed.

Lemma contact_filters_true (ilike : string -> string -> bool)
    (company_id segment_id : option nat) (status_filter search : option string)
    (assigned_sdr_id : option nat) (is_duplicate : option bool)
    (c : contact_model.Contact) :
  contact_service.contact_filters ilike company_id segment_id status_filter
    search assigned_sdr_id is_duplicate c = true ->
  (forall x, company_id = Some x -> contact_model.company_id c = x)
  /\ (forall x, segment_id = Some x -> contact_model.segment_id c = x)
  /\ (forall s, status_filter = Some (contact_model.value s) ->
        contact_model.status c = s)
  /\ (forall x, assigned_sdr_id = Some x ->
        contact_model.assigned_sdr_id c = Some x)
  /\ (forall b, is_duplicate = Some b -> contact_model.is_duplicate c = b).
Proof.
  unfold contact_service.contact_filters.
  rewrite !andb_true_iff. intros [[[[[Hc Hseg] Hstatus] Hsdr] Hdup] _].
  repeat split.
  - intros x ->. by apply bool_decide_eq_true in Hc.
  - intros x ->. by apply bool_decide_eq_true in Hseg.
  - intros s ->.
    rewrite (proj2 (contact_of_value_Some _ s) eq_refl) in Hstatus.
    destruct s; by apply bool_decide_eq_true in Hstatus.
  - intros x ->. by apply bool_decide_eq_true in Hsdr.
  - intros b ->. by apply bool_decide_eq_true in Hdup.
Qed.

(** A status filter that is empty or names no status does not restrict the
    contacts. *)
Lemma contact_filters_invalid_status (ilike : string -> string -> bool)
    (company_id segment_id : option nat) (raw : string) (search : option string)
    (assigned_sdr_id : option nat) (is_duplicate : option bool)
    (c : contact_model.Contact) :
  contact_model.of_value raw = None ->
  contact_service.contact_filters ilike company_id segment_id (Some raw)
    search assigned_sdr_id is_duplicate c
  = contact_service.contact_filters ilike company_id segment_id None
      search assigned_sdr_id is_duplicate c.
Proof.
  intros Hraw. unfold contact_service.contact_filters. rewrite Hraw.
  by destruct (pystr.truthy raw).
Qed.

Lemma select_where_ext {A} (P Q : A -> Prop)
    `{!forall x, Decision (P x)} `{!forall x, Decision (Q x)} (table : list A) :
  (forall x, P x <-> Q x) ->
  session.select_where P table = session.select_where Q table.
Proof.
  intros HPQ. unfold session.select_where.
  apply list_filter_iff. intros [i x]. apply HPQ.
Qed.

(** [list_contacts] and [count_contacts] read the store without changing it
    and agree with each other: the page has min(limit, total - skip) rows,
    all of them stored contacts that pass the company, segment, status, SDR
    and duplicate filters, no contact twice, newest first.  Unlike for
    companies, a status filter that names no status is ignored: the result
    is the one for no status filter. *)
Theorem list_contacts_page :
  forall (ilike : string -> string -> bool) (skip limit : nat)
         (company_id segment_id : option nat)
         (status_filter search : option string)
         (assigned_sdr_id : option nat) (is_duplicate : option bool) (db : DB),
  exists page total,
    contact_service.list_contacts ilike skip limit company_id segment_id
      status_filter search assigned_sdr_id is_duplicate db = (Return page, db)
    /\ contact_service.count_contacts ilike company_id segment_id status_filter
         search assigned_sdr_id is_duplicate db = (Return total, db)
    /\ length page = min limit (total - skip)
    /\ Forall (fun r =>
         contacts db !! r.1 = Some r.2
         /\ (forall x, company_id = Some x -> contact_model.company_id r.2 = x)
         /\ (forall x, segment_id = Some x -> contact_model.segment_id r.2 = x)
         /\ (forall s, status_filter = Some (contact_model.value s) ->
               contact_model.status r.2 = s)
         /\ (forall x, assigned_sdr_id = Some x ->
               contact_model.assigned_sdr_id r.2 = Some x)
         /\ (forall b, is_duplicate = Some b ->
               contact_model.is_duplicate r.2 = b)) page
    /\ NoDup page.*1
    /\ StronglySorted (newest_first contact_model.created_at) page
    /\ (forall raw, status_filter = Some raw ->
          contact_model.of_value raw = None ->
          contact_service.list_contacts ilike skip limit company_id segment_id
            None search assigned_sdr_id is_duplicate db = (Return page, db)
          /\ contact_service.count_contacts ilike company_id segment_id None
               search assigned_sdr_id is_duplicate db = (Return total, db)).
Proof.
  intros. unfold contact_service.list_contacts, contact_service.count_contacts,
    reads.
  eexists _, _. split; [reflexivity|]. split; [reflexivity|].
  match goal with
  | |- context [session.count_where ?P _] =>
      destruct (page_desc_spec P contact_model.created_at skip limit
                  (contacts db)) as (Hlen & Hall & Hnd & Hsorted)
  end.
  split; [done|]. split; [|split; [done|split; [done|]]].
  - eapply Forall_impl; [exact Hall|]. intros r [Hr HP].
    split; [done|]. by apply contact_filters_true in HP.
  - intros raw -> Hraw. unfold session.count_where.
    rewrite (select_where_ext
      (fun c => contact_service.contact_filters ilike company_id segment_id
                  (Some raw) search assigned_sdr_id is_duplicate c = true)
      (fun c => contact_service.contact_filters ilike company_id segment_id
                  None search assigned_sdr_id is_duplicate c = true)); [done|].
    intros c. by rewrite contact_filters_invalid_status.
Qed.

(** ** Counting *)

Section count_facts.

Context {A : Type} (P : A -> Prop) `{!forall x, Decision (P x)}.

Lemma imap_filter_snd (f : nat -> A -> nat * A) (l : list A) :
  (forall i x, (f i x).2 = x) ->
  (filter (fun r => P r.2) (imap f l)).*2 = filter P l.
Proof.
  revert f. induction l as [|x l IH]; intros f Hf; [done|].
  rewrite imap_cons, !filter_cons, Hf.
  case_decide; [rewrite fmap_cons, Hf; f_equal|]; apply IH; intros; apply Hf.
Qed.

Lemma count_where_filter (table : list A) :
  session.count_where P table = length (filter P table).
Proof.
  unfold session.count_where, session.select_where, session.rows.
  rewrite <- (imap_filter_snd (fun i x => (i, x))) by done.
  by rewrite length_fmap.
Qed.

(** Adding a row raises the count by one exactly when the row matches. *)
Lemma count_where_add (table : list A) (x : A) :
  session.count_where P (table ++ [x])
  = session.count_where P table + (if decide (P x) then 1 else 0).
Proof.
  rewrite !count_where_filter, filter_app, length_app, filter_cons, filter_nil.
  by case_decide.
Qed.


Lemma elem_of_select_where (table : list A) (r : nat * A) :
  r ∈ session.select_where P table <-> table !! r.1 = Some r.2 /\ P r.2.
Proof.
  unfold session.select_where. rewrite list_elem_of_filter, elem_of_rows.
  tauto.
Qed.

End count_facts.

(** ** The queue of pending companies *)



(** ** Updates *)

Lemma updated_idem {A} (u : option A) (old : A) :
  updated u (updated u old) = updated u old.
Proof. by destruct u. Qed.

Lemma updated_not_null_idem {A} (u : option (option A)) (old v : A) :
  updated_not_null u old = Some v -> updated_not_null u v = Some v.
Proof. by destruct u. Qed.

Lemma updated_not_null_Some {A} (u : option (option A)) (old : A) :
  u <> Some None -> exists v, updated_not_null u old = Some v.
Proof. destruct u as [[v|]|]; [by exists v|done|by exists old]. Qed.





Lemma contact_apply_update_idem (u : contact_schema.ContactUpdate)
    (c c' : contact_model.Contact) :
  contact_service.apply_update u c = Some c' ->
  contact_service.apply_update u c' = Some c'.
Proof.
  unfold contact_service.apply_update.
  destruct (updated_not_null (contact_schema.u_first_name u) _)
    as [fn|] eqn:Hfn; [|done].
  destruct (updated_not_null (contact_schema.u_last_name u) _)
    as [ln|] eqn:Hln; [|done].
  destruct (updated_not_null (contact_schema.u_email u) _)
    as [em|] eqn:Hem; [|done].
  destruct (updated_not_null (contact_schema.u_company_id u) _)
    as [cid|] eqn:Hcid; [|done].
  intros [= <-]. simpl.
  rewrite (updated_not_null_idem _ _ _ Hfn), (updated_not_null_idem _ _ _ Hln),
    (updated_not_null_idem _ _ _ Hem), (updated_not_null_idem _ _ _ Hcid).
  by rewrite !updated_idem.
Qed.

Lemma contact_apply_update_unset (c : contact_model.Contact) :
  contact_service.apply_update contact_update_unset c = Some c.
Proof. by destruct c as [[] ?]. Qed.

(** [update_contact] on a stored contact, with no null for the names, the
    email or the company, succeeds and rewrites that row only.  The status,
    the assigned SDR, the duplicate flag, the batch, the creator and the
    creation time are the ones the row had; so is the segment, also when the
    update moves the contact to another company.  The company of the row is
    the requested one, or the old one when none was requested.  A second
    identical update changes nothing. *)
Theorem update_contact_protected_columns :
  forall (db : DB) (contact_id : nat) (u : contact_schema.ContactUpdate)
         (c : contact_model.Contact),
    contacts db !! contact_id = Some c ->
    contact_schema.u_first_name u <> Some None ->
    contact_schema.u_last_name u <> Some None ->
    contact_schema.u_email u <> Some None ->
    contact_schema.u_company_id u <> Some None ->
    exists c' db',
      contact_service.update_contact contact_id u db = (Return contact_id, db')
      /\ contacts db' = <[contact_id := c']> (contacts db)
      /\ companies db' = companies db
      /\ upload_batches db' = upload_batches db
      /\ contact_model.status c' = contact_model.status c
      /\ contact_model.assigned_sdr_id c' = contact_model.assigned_sdr_id c
      /\ contact_model.segment_id c' = contact_model.segment_id c
      /\ contact_model.is_duplicate c' = contact_model.is_duplicate c
      /\ contact_model.batch_id c' = contact_model.batch_id c
      /\ contact_model.created_by c' = contact_model.created_by c
      /\ contact_model.created_at c' = contact_model.created_at c
      /\ Some (contact_model.company_id c')
         = updated (contact_schema.u_company_id u)
             (Some (contact_model.company_id c))
      /\ contact_service.update_contact contact_id u db'
         = (Return contact_id, db').
Proof.
  intros db contact_id u c Hc Hfn Hln Hem Hcid.
  destruct (updated_not_null_Some _ (contact_model.first_name
              (contact_model.data c)) Hfn) as [fn Hfn'].
  destruct (updated_not_null_Some _ (contact_model.last_name
              (contact_model.data c)) Hln) as [ln Hln'].
  destruct (updated_not_null_Some _ (contact_model.email
              (contact_model.data c)) Hem) as [em Hem'].
  destruct (updated_not_null_Some _ (contact_model.company_id c) Hcid)
    as [cid Hcid'].
  assert (exists c', contact_service.apply_update u c = Some c'
            /\ c' = contact_model.set_data (contact_model.data c') cid c)
    as (c' & Hc' & Hshape).
  { unfold contact_service.apply_update. rewrite Hfn', Hln', Hem', Hcid'.
    by eexists. }
  exists c', (with_contacts (<[contact_id := c']> (contacts db)) db).
  unfold contact_service.update_contact, contact_service.get_contact,
    session.store_contact, bind, ret. rewrite Hc, Hc'. simpl.
  rewrite list_lookup_insert_eq by (by eapply lookup_lt_Some).
  rewrite (contact_apply_update_idem _ _ _ Hc').
  unfold with_contacts. simpl. rewrite list_insert_insert_eq.
  rewrite Hshape. simpl. repeat (split; [done|]).
  destruct (contact_schema.u_company_id u) as [[x|]|]; simpl in *;
    by simplify_eq.
Qed.

(** An update of a contact that is not stored raises the not-found error
    and an update in which no field is set succeeds; both leave the store as
    it was. *)
Theorem update_contact_no_effect :
  forall (db : DB) (contact_id : nat),
    (contacts db !! contact_id = None ->
     forall u, contact_service.update_contact contact_id u db
               = (Raise (ValueError (contact_not_found contact_id)), db))
    /\ (is_Some (contacts db !! contact_id) ->
        contact_service.update_contact contact_id contact_update_unset db
        = (Return contact_id, db)).
Proof.
  intros db contact_id.
  unfold contact_service.update_contact, contact_service.get_contact,
    session.store_contact, bind, ret, raise.
  split.
  - by intros ->.
  - intros [c Hc]. rewrite Hc, contact_apply_update_unset.
    rewrite list_insert_id by done. by destruct db.
Qed.

(** ** Creation of a contact *)

(** [create_contact] for a company that is not stored raises the not-found
    error and leaves the store as it was.  For a stored company it adds one
    contact under a fresh id: the contact carries the submitted fields, the
    company's segment, the status uploaded, no SDR and no duplicate flag;
    every older contact and every company is as before; and the contact
    count of that company goes up by one while the count of every other
    company stays. *)
Theorem create_contact_joins_company :
  forall (db : DB) (data : contact_schema.ContactCreate)
         (created_by : nat) (now : nat),
    (companies db !! contact_schema.company_id data = None ->
     contact_service.create_contact data created_by now db
     = (Raise (ValueError
                 (contact_company_not_found (contact_schema.company_id data))),
        db))
    /\ (forall company,
          companies db !! contact_schema.company_id data = Some company ->
          exists id c db',
            contact_service.create_contact data created_by now db
            = (Return id, db')
            /\ contacts db !! id = None
            /\ contact_service.get_contact id db' = (Return (Some c), db')
            /\ contact_model.data c = contact_schema.base data
            /\ contact_model.company_id c = contact_schema.company_id data
            /\ contact_model.segment_id c = company_model.segment_id company
            /\ contact_model.status c = contact_model.UPLOADED
            /\ contact_model.assigned_sdr_id c = None
            /\ contact_model.is_duplicate c = false
            /\ (forall j x, contacts db !! j = Some x ->
                            contacts db' !! j = Some x)
            /\ companies db' = companies db
            /\ forall k n,
                 company_service.get_company_contact_count k db
                 = (Return n, db) ->
                 company_service.get_company_contact_count k db'
                 = (Return (if decide (k = contact_schema.company_id data)
                            then S n else n), db')).
Proof.
  intros db data created_by now.
  unfold contact_service.create_contact, company_service.get_company,
    contact_service.get_contact, session.add_contact, bind, raise.
  split; [by intros ->|].
  intros company ->. eexists _, _, _. split; [reflexivity|]. simpl.
  split; [by apply lookup_ge_None|].
  split; [by rewrite lookup_app_r, Nat.sub_diag|].
  do 6 (split; [done|]).
  split; [intros j x Hj; by apply lookup_app_l_Some|].
  split; [done|].
  intros k n. unfold company_service.get_company_contact_count, reads. simpl.
  intros [= <-]. rewrite count_where_add. simpl.
  do 2 f_equal. repeat case_decide; try done; lia.
Qed.

(** ** What a detection run counts, and what it forgets *)

Section detection_count_facts.

Context {A : Type}.
Variable key_of : A -> string.
Variable flag : A -> bool.
Variable set_flag : bool -> A -> A.
Hypothesis key_of_set_flag : forall b x, key_of (set_flag b x) = key_of x.
Hypothesis flag_set_flag : forall b x, flag (set_flag b x) = b.
Hypothesis set_flag_flag : forall x, set_flag (flag x) x = x.

(** The counter of the loop goes up once for every row whose flag the loop
    turns from false to true. *)
Lemma detect_loop_count (rs : list (UUID * A)) (table table' : list A)
    (seen seen' : gmap string UUID) (n n' : nat) :
  NoDup rs.*1 ->
  Forall (fun r => table !! r.1 = Some r.2) rs ->
  foldl (upload_service.detect_step key_of flag set_flag) (table, seen, n) rs.*1
  = (table', seen', n') ->
  n' = n + length (filter (fun r => flag r.2 = false
                                    /\ flag <$> table' !! r.1 = Some true) rs).
Proof.
  revert table seen n.
  induction rs as [|[ref x] rs IH]; intros table seen n Hnd Hres Hloop.
  - simpl in Hloop. simplify_eq. simpl. lia.
  - simpl in Hnd. apply NoDup_cons in Hnd as [Hnotin Hnd].
    apply Forall_cons in Hres as [Hx Hres]. simpl in Hx.
    destruct (detect_step_eq key_of flag set_flag set_flag_flag
                table seen n ref x Hx) as (seen1 & Hstep & Hdom).
    set (b := bool_decide (key_of x ∈ dom seen)) in *.
    assert (Hres1 : Forall (fun r => <[ref := set_flag b x]> table !! r.1 = Some r.2) rs).
    { apply Forall_forall. intros r Hr.
      rewrite list_lookup_insert_ne.
      - by eapply Forall_forall in Hres.
      - intros ->. apply Hnotin. apply list_elem_of_fmap. by exists r. }
    rewrite fmap_cons in Hloop. cbn [foldl fst] in Hloop. rewrite Hstep in Hloop.
    destruct (detect_loop_spec key_of flag set_flag set_flag_flag rs _ seen1
                (if negb (flag x) && b then S n else n) Hnd Hres1)
      as (t & s & m & Hloop' & _ & Hout & _).
    rewrite Hloop in Hloop'. injection Hloop' as <- <- <-.
    rewrite (IH _ _ _ Hnd Hres1 Hloop).
    rewrite filter_cons. simpl.
    rewrite (Hout ref Hnotin).
    rewrite list_lookup_insert_eq by (by eapply lookup_lt_Some).
    simpl. rewrite flag_set_flag.
    case_decide as Hd; destruct (flag x), b; simpl; try lia;
      exfalso; intuition congruence.
Qed.

End detection_count_facts.

Section scan_more_facts.

Context {A : Type} (P : A -> Prop) `{!forall x, Decision (P x)}.
Variable key : A -> Time.
Variable key_of : A -> string.
Variable flag : A -> bool.
Variable set_flag : bool -> A -> A.
Hypothesis key_of_set_flag : forall b x, key_of (set_flag b x) = key_of x.
Hypothesis flag_set_flag : forall b x, flag (set_flag b x) = b.
Hypothesis set_flag_flag : forall x, set_flag (flag x) x = x.
Hypothesis set_flag_set_flag :
  forall b b0 x, set_flag b (set_flag b0 x) = set_flag b x.
Hypothesis P_set_flag : forall b x, P (set_flag b x) <-> P x.
Hypothesis key_set_flag : forall b x, key (set_flag b x) = key x.

Lemma filter_length_within {B} (Q R : B -> Prop)
    `{!forall x, Decision (Q x)} `{!forall x, Decision (R x)} (l : list B) :
  (forall x, x ∈ l -> Q x -> R x) ->
  length (filter Q (filter R l)) = length (filter Q l).
Proof.
  induction l as [|x l IH]; intros HQR; [done|].
  rewrite !filter_cons.
  assert (IH' : length (filter Q (filter R l)) = length (filter Q l)).
  { apply IH. intros y Hy. apply HQR. by right. }
  destruct (decide (R x)) as [HR|HR].
  - rewrite filter_cons. case_decide; simpl; by rewrite IH'.
  - rewrite decide_False; [done|]. intros HQ. apply HR, HQR; [left|done].
Qed.

(** The number returned by a detection run is the number of rows of the
    table whose flag the run turned from false to true. *)
Lemma scan_count (table table' : list A) (seen' : gmap string UUID) (n' : nat) :
  scan P key key_of flag set_flag table = (table', seen', n') ->
  n' = length (filter (fun r => flag r.2 = false
                                /\ flag <$> table' !! r.1 = Some true)
                 (session.rows table)).
Proof.
  intros Hscan.
  pose proof (scan_outside P key key_of flag set_flag set_flag_flag
                table table' seen' n' Hscan) as [_ Hout].
  unfold scan, upload_service.detect_loop in Hscan.
  apply (detect_loop_count key_of flag set_flag flag_set_flag set_flag_flag)
    in Hscan; [|apply query_NoDup|apply query_resolves].
  rewrite Hscan. simpl. unfold session.query.
  rewrite order_by_asc_perm. unfold session.select_where.
  apply filter_length_within.
  intros [i x] Hr [Hfalse Htrue]. simpl in *.
  apply elem_of_rows in Hr. simpl in Hr.
  destruct (decide (P x)) as [|HP]; [done|].
  rewrite (Hout i x Hr HP) in Htrue. simpl in Htrue. congruence.
Qed.

Lemma reflagged_keys (l l' : list (UUID * A)) :
  Forall2 (reflagged set_flag) l l' ->
  (fun r => key_of r.2) <$> l' = (fun r => key_of r.2) <$> l.
Proof.
  induction 1 as [|r r' l l' [_ [b Hsnd]] Hl IH]; [done|].
  rewrite !fmap_cons. by rewrite Hsnd, key_of_set_flag, IH.
Qed.

(** A detection run does not depend on the flags the rows in its scope had
    before. *)
Lemma scan_forgets_flags (t1 t2 : list A) :
  length t2 = length t1 ->
  (forall i x, t1 !! i = Some x -> exists b, t2 !! i = Some (set_flag b x)) ->
  (forall i x, t1 !! i = Some x -> ~ P x -> t2 !! i = Some x) ->
  (scan P key key_of flag set_flag t2).1.1
  = (scan P key key_of flag set_flag t1).1.1.
Proof.
  intros Hlen Hrows Hrest.
  destruct (scan_run P key key_of flag set_flag set_flag_flag t1)
    as (t1' & s1 & n1 & -> & Hlen1 & Hout1 & Hin1).
  destruct (scan_run P key key_of flag set_flag set_flag_flag t2)
    as (t2' & s2 & n2 & -> & Hlen2 & Hout2 & Hin2).
  simpl.
  pose proof (query_reflagged P key set_flag P_set_flag key_set_flag
                t1 t2 Hlen Hrows) as Hq.
  pose proof (reflagged_fst set_flag _ _ Hq) as Hfst.
  pose proof (reflagged_keys _ _ Hq) as Hkeys.
  apply list_eq. intros i.
  destruct (decide (i ∈ (session.query P key t1).*1)) as [Hi|Hi].
  - apply list_elem_of_fmap in Hi as (r & -> & Hr).
    apply list_elem_of_lookup in Hr as [p Hp].
    destruct (Forall2_lookup_l _ _ _ _ _ Hq Hp) as (r' & Hp' & Hfst' & b0 & Hsnd).
    destruct (Hin1 p r Hp) as (b1 & Hb1 & ->).
    destruct (Hin2 p r' Hp') as (b2 & Hb2 & Hr2).
    rewrite Hkeys, Hb1 in Hb2. simplify_eq.
    rewrite <- Hfst', Hr2, Hsnd. by rewrite set_flag_set_flag.
  - rewrite (Hout1 i Hi). rewrite <- Hfst in Hi. rewrite (Hout2 i Hi).
    destruct (t1 !! i) as [x|] eqn:Hx.
    + apply Hrest; [done|]. intros HP. rewrite Hfst in Hi. apply Hi.
      apply list_elem_of_fmap. exists (i, x). split; [done|].
      by apply elem_of_query.
    + apply lookup_ge_None. apply lookup_ge_None in Hx. lia.
Qed.

End scan_more_facts.


Lemma contact_set_is_duplicate_twice b b0 c :
  contact_model.set_is_duplicate b (contact_model.set_is_duplicate b0 c)
  = contact_model.set_is_duplicate b c.
Proof. done. Qed.

(** The number returned by [detect_company_duplicates] is the number of
    companies whose duplicate flag the run turned from false to true; a flag
    that the run clears, or that was set before, is not counted.  The same
    holds for [detect_contact_duplicates]. *)
Theorem detection_counts_new_flags :
  (forall (db : DB) (segment_id : nat),
     exists n db',
       upload_service.detect_company_duplicates segment_id db = (Return n, db')
       /\ n = length (filter
                (fun r => company_model.is_duplicate r.2 = false
                          /\ company_model.is_duplicate <$> companies db' !! r.1
                             = Some true)
                (session.rows (companies db))))
  /\ (forall (db : DB) (company_id : nat),
     exists n db',
       upload_service.detect_contact_duplicates company_id db = (Return n, db')
       /\ n = length (filter
                (fun r => contact_model.is_duplicate r.2 = false
                          /\ contact_model.is_duplicate <$> contacts db' !! r.1
                             = Some true)
                (session.rows (contacts db)))).
Proof.
  split.
  - intros db segment_id.
    destruct (detect_company_duplicates_run segment_id db)
      as (table' & seen' & n' & Hscan & Hrun).
    eexists _, _. split; [exact Hrun|]. simpl.
    by eapply (scan_count _ _ _ _ _ company_flag_set_is_duplicate
                 company_set_is_duplicate_id).
  - intros db company_id.
    destruct (detect_contact_duplicates_run company_id db)
      as (table' & seen' & n' & Hscan & Hrun).
    eexists _, _. split; [exact Hrun|]. simpl.
    by eapply (scan_count _ _ _ _ _ contact_flag_set_is_duplicate
                 contact_set_is_duplicate_id).
Qed.

Lemma insert_reflagged {A} (flag : A -> bool) (set_flag : bool -> A -> A)
    (table : list A) (id : nat) (b : bool) (c : A) :
  (forall x, set_flag (flag x) x = x) ->
  table !! id = Some c ->
  forall i x, table !! i = Some x ->
    exists b', <[id := set_flag b c]> table !! i = Some (set_flag b' x).
Proof.
  intros Hid Hc i x Hx. destruct (decide (i = id)) as [->|Hne].
  - exists b. rewrite list_lookup_insert_eq by (by eapply lookup_lt_Some).
    congruence.
  - exists (flag x). by rewrite list_lookup_insert_ne, Hid.
Qed.


(** [mark_duplicate] on a stored contact succeeds and writes the flag of
    that row and nothing else.  The next detection run over the contact's
    company does not see the manual decision: it leaves the store it would
    have left without it.  A run over another company keeps the manual
    flag. *)
Theorem contact_detection_overrides_manual_flag :
  forall (db : DB) (id : nat) (b : bool) (c : contact_model.Contact),
     contacts db !! id = Some c ->
     exists dbm,
       contact_service.mark_duplicate id b db = (Return id, dbm)
       /\ contacts dbm
          = <[id := contact_model.set_is_duplicate b c]> (contacts db)
       /\ companies dbm = companies db
       /\ upload_batches dbm = upload_batches db
       /\ exec (upload_service.detect_contact_duplicates
                  (contact_model.company_id c)) dbm
          = exec (upload_service.detect_contact_duplicates
                    (contact_model.company_id c)) db
       /\ forall company_id,
            company_id <> contact_model.company_id c ->
            contacts (exec (upload_service.detect_contact_duplicates
                              company_id) dbm) !! id
            = Some (contact_model.set_is_duplicate b c).
Proof.
  intros db id b c Hc.
  exists (with_contacts
            (<[id := contact_model.set_is_duplicate b c]> (contacts db)) db).
  split.
  { unfold contact_service.mark_duplicate, contact_service.get_contact,
      session.store_contact, bind, ret. by rewrite Hc. }
  do 3 (split; [done|]). split.
  - destruct (detect_contact_duplicates_run (contact_model.company_id c) db)
      as (t1 & s1 & n1 & Hscan1 & Hrun1).
    destruct (detect_contact_duplicates_run (contact_model.company_id c)
                (with_contacts
                   (<[id := contact_model.set_is_duplicate b c]> (contacts db))
                   db))
      as (t2 & s2 & n2 & Hscan2 & Hrun2).
    unfold exec. rewrite Hrun1, Hrun2. simpl. rewrite with_contacts_twice.
    f_equal. simpl in Hscan2.
    pose proof (scan_forgets_flags
      (fun x => contact_model.company_id x = contact_model.company_id c)
      contact_model.created_at upload_service.contact_key
      contact_model.is_duplicate contact_model.set_is_duplicate
      contact_key_set_is_duplicate contact_set_is_duplicate_id
      contact_set_is_duplicate_twice
      (fun b c => reflexivity _) (fun b c => eq_refl)
      (contacts db)
      (<[id := contact_model.set_is_duplicate b c]> (contacts db))) as Heq.
    rewrite Hscan1, Hscan2 in Heq. simpl in Heq. apply Heq.
    + by rewrite length_insert.
    + apply (insert_reflagged contact_model.is_duplicate);
        [apply contact_set_is_duplicate_id|done].
    + intros i x Hx HP. rewrite list_lookup_insert_ne; [done|].
      intros ->. rewrite Hc in Hx. by simplify_eq.
  - intros company_id Hcompany.
    destruct (detect_contact_duplicates_run company_id
                (with_contacts
                   (<[id := contact_model.set_is_duplicate b c]> (contacts db))
                   db))
      as (t2 & s2 & n2 & Hscan2 & Hrun2).
    unfold exec. rewrite Hrun2. simpl. simpl in Hscan2.
    eapply (scan_outside _ _ _ _ _ contact_set_is_duplicate_id) in Hscan2
      as [_ Hout].
    apply Hout; [|simpl; congruence].
    apply list_lookup_insert_eq. by eapply lookup_lt_Some.
Qed.

(** ** Bulk assignment *)

Lemma assign_to_sdr_run (contact_id sdr_id : nat) (db : DB) :
  match contact_service.assign_to_sdr contact_id sdr_id db with
  | (Return id, db') =>
      exists c,
        contacts db !! contact_id = Some c
        /\ contact_model.status c = contact_model.APPROVED
        /\ id = contact_id
        /\ db' = with_contacts
                   (<[contact_id := contact_model.set_status
                                      contact_model.ASSIGNED_TO_SDR
                                      (contact_model.set_assigned_sdr_id sdr_id c)]>
                      (contacts db)) db
  | (Raise _, db') =>
      db' = db
      /\ forall c, contacts db !! contact_id = Some c ->
                   contact_model.status c <> contact_model.APPROVED
  end.
Proof.
  unfold contact_service.assign_to_sdr, contact_service.get_contact,
    session.store_contact, bind, ret, raise.
  destruct (contacts db !! contact_id) as [c|]; [|done].
  case_decide as Hs.
  - split; [done|]. by intros ? [= <-].
  - try apply dec_stable in Hs. by exists c.
Qed.

Lemma bulk_assign_loop_run (contact_ids : list nat) (sdr_id : nat) :
  forall (acc : list nat) (db : DB),
    (NoDup contact_ids ->
     Forall (fun id => exists c, contacts db !! id = Some c
                       /\ contact_model.status c = contact_model.APPROVED)
       contact_ids ->
     exists table',
       contact_service.bulk_assign_loop contact_ids sdr_id acc db
       = (Return (acc ++ contact_ids), with_contacts table' db)
       /\ (forall id c, id ∈ contact_ids -> contacts db !! id = Some c ->
             table' !! id
             = Some (contact_model.set_status contact_model.ASSIGNED_TO_SDR
                       (contact_model.set_assigned_sdr_id sdr_id c)))
       /\ (forall id, id ∉ contact_ids -> table' !! id = contacts db !! id))
    /\ (forall l db',
          contact_service.bulk_assign_loop contact_ids sdr_id acc db
          = (Return l, db') ->
          NoDup contact_ids
          /\ Forall (fun id => exists c, contacts db !! id = Some c
                               /\ contact_model.status c = contact_model.APPROVED)
               contact_ids).
Proof.
  induction contact_ids as [|id rest IH]; intros acc db.
  { split.
    - intros _ _. exists (contacts db). simpl. unfold ret.
      rewrite app_nil_r, with_contacts_id. split; [done|]. split; [|done].
      intros id c Hin. by apply elem_of_nil in Hin.
    - intros l db' _. split; constructor. }
  cbn [contact_service.bulk_assign_loop].
  pose proof (assign_to_sdr_run id sdr_id db) as Hrun.
  destruct (contact_service.assign_to_sdr id sdr_id db) as [[id'|e] db1] eqn:Hassign.
  - destruct Hrun as (c & Hc & Hstatus & -> & ->).
    rewrite (bind_Return _ _ _ _ _ Hassign).
    set (c1 := contact_model.set_status _ _) in *.
    destruct (IH (acc ++ [id])
                (with_contacts (<[id := c1]> (contacts db)) db))
      as [Hok Hinv].
    split.
    + intros Hnd Hall. apply NoDup_cons in Hnd as [Hnotin Hnd].
      apply Forall_cons in Hall as [_ Hall].
      destruct Hok as (table' & Hloop & Hin & Hout); [done| |].
      { apply Forall_forall. intros j Hj. simpl.
        rewrite list_lookup_insert_ne by (by intros ->).
        by eapply Forall_forall in Hall. }
      exists table'. rewrite Hloop, with_contacts_twice, <- app_assoc.
      split; [done|]. simpl in *. split.
      * intros j x Hj Hx. apply elem_of_cons in Hj as [->|Hj].
        -- rewrite (Hout _ Hnotin).
           rewrite list_lookup_insert_eq by (by eapply lookup_lt_Some).
           unfold c1. congruence.
        -- apply Hin; [done|].
           rewrite list_lookup_insert_ne by (by intros ->). done.
      * intros j Hj. apply not_elem_of_cons in Hj as [Hne Hj].
        rewrite (Hout _ Hj). by apply list_lookup_insert_ne.
    + intros l db' Hloop. apply Hinv in Hloop as [Hnd Hall]. simpl in Hall.
      assert (Hnotin : id ∉ rest).
      { intros Hin. eapply Forall_forall in Hall as (x & Hx & Hsx); [|exact Hin].
        rewrite list_lookup_insert_eq in Hx by (by eapply lookup_lt_Some).
        by simplify_eq. }
      split; [by constructor|].
      constructor; [by exists c|].
      apply Forall_forall. intros j Hj.
      eapply Forall_forall in Hall as (x & Hx & Hsx); [|exact Hj].
      rewrite list_lookup_insert_ne in Hx by (by intros ->). by exists x.
  - destruct Hrun as [-> Hnot].
    rewrite (bind_Raise _ _ _ _ _ Hassign).
    split; [|done].
    intros _ Hall. apply Forall_cons in Hall as [(c & Hc & Hs) _].
    by destruct (Hnot c Hc).
Qed.

(** [bulk_assign_to_sdr] returns exactly when no contact is listed twice and
    every listed contact is stored with the status approved; a list that
    repeats a contact is always refused.  When it returns, it returns the
    listed contacts in order, each of them now assigned to the SDR, and no
    other contact and no company has changed. *)
Theorem bulk_assign_to_sdr_succeeds_iff :
  forall (db : DB) (contact_ids : list nat) (sdr_id : nat),
    ((exists l db',
        contact_service.bulk_assign_to_sdr contact_ids sdr_id db
        = (Return l, db'))
     <-> NoDup contact_ids
         /\ Forall (fun id => exists c,
                      contacts db !! id = Some c
                      /\ contact_model.status c = contact_model.APPROVED)
              contact_ids)
    /\ (forall l db',
          contact_service.bulk_assign_to_sdr contact_ids sdr_id db
          = (Return l, db') ->
          l = contact_ids
          /\ companies db' = companies db
          /\ upload_batches db' = upload_batches db
          /\ (forall id c, id ∈ contact_ids -> contacts db !! id = Some c ->
                contacts db' !! id
                = Some (contact_model.set_status contact_model.ASSIGNED_TO_SDR
                          (contact_model.set_assigned_sdr_id sdr_id c)))
          /\ (forall id, id ∉ contact_ids ->
                contacts db' !! id = contacts db !! id)).
Proof.
  intros db contact_ids sdr_id. unfold contact_service.bulk_assign_to_sdr.
  destruct (bulk_assign_loop_run contact_ids sdr_id [] db) as [Hok Hinv].
  split; [split|].
  - intros (l & db' & Hrun). by eapply Hinv.
  - intros [Hnd Hall]. destruct (Hok Hnd Hall) as (table' & Hrun & _).
    by eexists _, _.
  - intros l db' Hrun. destruct (Hinv _ _ Hrun) as [Hnd Hall].
    destruct (Hok Hnd Hall) as (table' & Hrun' & Hin & Hout).
    rewrite Hrun in Hrun'. injection Hrun' as -> ->. done.
Qed.

(** ** The contact pipeline, end to end *)

(** An uploaded contact can be taken through the whole pipeline: approval,
    assignment and the meeting mark succeed in this order, and leave the
    contact as it was except for the status meeting_scheduled and the SDR;
    nothing else in the store changes.  From there on each of the three
    operations is refused with the invalid-transition error and leaves the
    store as it is. *)
Theorem contact_pipeline_end_to_end :
  forall (db : DB) (id sdr_id : nat) (c : contact_model.Contact),
    contacts db !! id = Some c ->
    contact_model.status c = contact_model.UPLOADED ->
    exists db1 db2 db3,
      contact_service.approve_contact id
        {| contact_schema.status := contact_model.APPROVED |} db
      = (Return id, db1)
      /\ contact_service.assign_to_sdr id sdr_id db1 = (Return id, db2)
      /\ contact_service.mark_meeting_scheduled id db2 = (Return id, db3)
      /\ contacts db3
         = <[id := contact_model.set_status contact_model.MEETING_SCHEDULED
                     (contact_model.set_assigned_sdr_id sdr_id c)]> (contacts db)
      /\ companies db3 = companies db
      /\ upload_batches db3 = upload_batches db
      /\ (exists e, contact_service.approve_contact id
                      {| contact_schema.status := contact_model.APPROVED |} db3
                    = (Raise e, db3) /\ is_invalid_transition e = true)
      /\ (forall sdr, exists e,
            contact_service.assign_to_sdr id sdr db3 = (Raise e, db3)
            /\ is_invalid_transition e = true)
      /\ (exists e, contact_service.mark_meeting_scheduled id db3
                    = (Raise e, db3) /\ is_invalid_transition e = true).
Proof.
  intros db id sdr_id c Hc Hs.
  assert (Hlt : id < length (contacts db)) by by eapply lookup_lt_Some.
  exists (with_contacts
            (<[id := contact_model.set_status contact_model.APPROVED c]>
               (contacts db)) db),
         (with_contacts
            (<[id := contact_model.set_status contact_model.ASSIGNED_TO_SDR
                       (contact_model.set_assigned_sdr_id sdr_id c)]>
               (contacts db)) db),
         (with_contacts
            (<[id := contact_model.set_status contact_model.MEETING_SCHEDULED
                       (contact_model.set_assigned_sdr_id sdr_id c)]>
               (contacts db)) db).
  unfold contact_service.approve_contact, contact_service.assign_to_sdr,
    contact_service.mark_meeting_scheduled, contact_service.get_contact,
    session.store_contact, bind, ret, raise. simpl.
  rewrite !list_lookup_insert_eq by done. rewrite Hc, Hs. simpl.
  unfold with_contacts. simpl. rewrite !list_insert_insert_eq.
  do 6 (split; [done|]).
  split; [by eexists|]. split; [intros; by eexists|by eexists].
Qed.

Lemma contact_pipeline_end_to_end_witness :
  exists db3,
    contact_model.status <$> contacts db3
    = [contact_model.MEETING_SCHEDULED; contact_model.UPLOADED]
    /\ contact_model.assigned_sdr_id <$> contacts db3 = [Some 5; None]
    /\ exists e, contact_service.mark_meeting_scheduled 0 db3 = (Raise e, db3).
Proof.
  destruct (contact_pipeline_end_to_end sample_db 0 5
              (sample_contact "ann@acme.com" 0 7 contact_model.UPLOADED 4)
              eq_refl eq_refl)
    as (db1 & db2 & db3 & _ & _ & _ & Hcontacts & _ & _ & _ & _ & e & He & _).
  exists db3. rewrite Hcontacts. split; [reflexivity|]. split; [reflexivity|].
  by exists e.
Defined.

(** ** What an upload stores *)

Lemma ap_errors {A B} (f : pydantic.Validated (A -> B)) (x : pydantic.Validated A) :
  (forall e, f = inl e -> e <> []) ->
  (forall e, x = inl e -> e <> []) ->
  forall e, pydantic.ap f x = inl e -> e <> [].
Proof.
  intros Hf Hx e. destruct f as [e1|g], x as [e2|a]; simpl; intros [= <-].
  - intros [He _]%app_eq_nil. by eapply Hf.
  - by eapply Hf.
  - by eapply Hx.
Qed.

Ltac field_errors :=
  let e := fresh "e" in
  intros e;
  unfold pydantic.pure, pydantic.required_str, pydantic.optional_str,
    pydantic.optional_int, pydantic.required_email, pydantic.optional_email,
    pydantic.fail;
  repeat case_match; intros [= <-]; done.

(** A refused row has at least one error. *)
Lemma company_validate_create_errors (int_of_str : string -> option Z)
    (kw : pydantic.Kwargs) (seg : nat) (e : list pydantic.ErrorDetails) :
  company_schema.validate_create int_of_str kw seg = inl e -> e <> [].
Proof.
  revert e. unfold company_schema.validate_create.
  repeat (apply ap_errors; [|field_errors]). field_errors.
Qed.

Lemma contact_validate_create_errors (validate_email : string -> option string)
    (kw : pydantic.Kwargs) (cid : nat) (e : list pydantic.ErrorDetails) :
  contact_schema.validate_create validate_email kw cid = inl e -> e <> [].
Proof.
  revert e. unfold contact_schema.validate_create.
  repeat (apply ap_errors; [|field_errors]). field_errors.
Qed.

Lemma row_errors_nil (n : nat) (e : list pydantic.ErrorDetails) :
  e <> [] -> upload_service.row_errors n e <> [].
Proof. by destruct e. Qed.

(** The loop of [process_company_csv] stores one company per valid row, in
    the order of the rows, each for the given segment, creator and batch;
    it reports no error exactly when it counts no invalid row. *)
Lemma company_rows_stores (int_of_str : string -> option Z)
    (segment_id created_by batch : nat) (clock : nat -> nat)
    (rows : list upload_service.CsvRow) :
  forall (row_number : nat) (st : upload_service.Counters) (db : DB),
  exists st' new errs,
    upload_service.company_rows int_of_str segment_id created_by batch clock
      row_number rows st db
    = (Return st', with_companies (companies db ++ new) db)
    /\ upload_service.n_valid st' = upload_service.n_valid st + length new
    /\ upload_service.n_invalid st <= upload_service.n_invalid st'
    /\ upload_service.errors st' = upload_service.errors st ++ errs
    /\ (errs = [] <-> upload_service.n_invalid st' = upload_service.n_invalid st)
    /\ Forall (fun c => company_model.batch_id c = Some batch
                        /\ company_model.segment_id c = segment_id
                        /\ company_model.created_by c = created_by
                        /\ company_model.status c = company_model.PENDING
                        /\ company_model.rejection_reason c = None
                        /\ company_model.approved_by c = None
                        /\ company_model.is_duplicate c = false) new.
Proof.
  induction rows as [|row rows IH]; intros row_number st db.
  - exists st, [], []. simpl. unfold ret.
    rewrite !app_nil_r, with_companies_id, !Nat.add_0_r.
    repeat split; constructor.
  - cbn [upload_service.company_rows]. unfold bind at 1.
    unfold upload_service.company_row.
    destruct (company_schema.validate_create _ _ _) as [e|company_data] eqn:Hv.
    + unfold ret at 1.
      destruct (IH (S row_number)
                  (upload_service.count_invalid
                     (upload_service.row_errors row_number e)
                     (upload_service.count_row st)) db)
        as (st' & new & errs & Hrun & Hn & Hle & He & Hiff & Hnew).
      exists st', new, (upload_service.row_errors row_number e ++ errs).
      rewrite Hrun. simpl in *. split; [done|].
      split; [lia|]. split; [lia|]. split; [by rewrite He, <- app_assoc|].
      split; [|done]. split; [|lia].
      intros [Hnil _]%app_eq_nil.
      apply company_validate_create_errors in Hv.
      by apply (row_errors_nil row_number) in Hv.
    + unfold bind at 1, session.add_company, ret at 1.
      match goal with
      | |- context [upload_service.company_rows _ _ _ _ _ _ _ _ ?d] =>
          destruct (IH (S row_number)
                      (upload_service.count_valid (upload_service.count_row st)) d)
            as (st' & new & errs & Hrun & Hn & Hle & He & Hiff & Hnew)
      end.
      eexists st', (_ :: new), errs.
      rewrite Hrun. simpl in *. rewrite <- app_assoc. simpl.
      split; [reflexivity|].
      split; [lia|]. split; [lia|]. split; [done|]. split; [done|].
      constructor; [done|done].
Qed.

Lemma reflagged_rows {A} (set_flag : bool -> A -> A) (t t' : list A) :
  length t' = length t ->
  (forall i x, t !! i = Some x -> exists b, t' !! i = Some (set_flag b x)) ->
  Forall2 (fun x x' => exists b, x' = set_flag b x) t t'.
Proof.
  intros Hlen Hrows. apply Forall2_same_length_lookup_2; [done|].
  intros i x x' Hx Hx'. destruct (Hrows i x Hx) as [b Hb].
  exists b. congruence.
Qed.

(** [process_company_csv]: the batch record, the companies added for the
    valid rows, and the errors. *)
Lemma process_company_csv_stores :
  forall (int_of_str : string -> option Z) (file : upload_service.UploadFile)
         (segment_id created_by : nat) (clock : nat -> nat) (db : DB),
  exists batch errs b new db',
    upload_service.process_company_csv int_of_str file segment_id created_by
      clock db
    = (Return (batch, errs), db')
    /\ batch = length (upload_batches db)
    /\ upload_batches db' = upload_batches db ++ [b]
    /\ upload_batch_model.upload_type b = upload_batch_model.COMPANY
    /\ upload_batch_model.file_name b = upload_service.file_name_or_unknown file
    /\ upload_batch_model.file_size_bytes b = upload_service.size file
    /\ upload_batch_model.uploaded_by b = created_by
    /\ contacts db' = contacts db
    /\ length new = upload_batch_model.valid_rows b
    /\ Forall (fun c => company_model.batch_id c = Some batch
                        /\ company_model.segment_id c = segment_id
                        /\ company_model.created_by c = created_by
                        /\ company_model.status c = company_model.PENDING
                        /\ company_model.rejection_reason c = None
                        /\ company_model.approved_by c = None) new
    /\ Forall2 (fun c c' => exists flag,
                  c' = company_model.set_is_duplicate flag c)
         (companies db ++ new) (companies db')
    /\ (upload_batch_model.valid_rows b = 0 -> companies db' = companies db)
    /\ (errs = [] <-> upload_batch_model.invalid_rows b = 0).
Proof.
  intros int_of_str file segment_id created_by clock db.
  unfold upload_service.process_company_csv, upload_service.create_batch.
  unfold bind at 1, session.add_upload_batch.
  set (b0 := {| upload_batch_model.upload_type := upload_batch_model.COMPANY |}).
  set (db1 := with_upload_batches (upload_batches db ++ [b0]) db).
  unfold bind at 1.
  destruct (company_rows_stores int_of_str segment_id created_by
              (length (upload_batches db)) clock (upload_service.csv_rows file)
              2 upload_service.no_rows db1)
    as (st' & new & errs & Hrun & Hn & _ & He & Hiff & Hnew).
  rewrite Hrun. simpl in Hn, He, Hiff. subst errs.
  unfold bind at 1, upload_service.close_batch, bind at 1, get_db.
  subst db1.
  cbn [upload_batches with_companies with_upload_batches companies contacts].
  rewrite lookup_app_r by done. rewrite Nat.sub_diag. cbn [lookup list_lookup].
  unfold session.store_upload_batch.
  cbn [upload_batches with_companies with_upload_batches companies contacts].
  rewrite insert_app_r_alt by done. rewrite Nat.sub_diag. cbn [insert list_insert].
  set (b := upload_batch_model.set_statistics _ _ _ _ b0).
  assert (Hnew' : Forall (fun c =>
            company_model.batch_id c = Some (length (upload_batches db))
            /\ company_model.segment_id c = segment_id
            /\ company_model.created_by c = created_by
            /\ company_model.status c = company_model.PENDING
            /\ company_model.rejection_reason c = None
            /\ company_model.approved_by c = None) new).
  { eapply Forall_impl; [exact Hnew|]. simpl. tauto. }
  case_decide as Hvalid.
  - unfold bind at 1, ret.
    match goal with
    | |- context [upload_service.detect_company_duplicates segment_id ?d] =>
        destruct (detect_company_duplicates_returns segment_id d) as [n Hdet];
        pose proof (detect_company_duplicates_frame segment_id d)
          as (Hcontacts & Hbatches & Hlen & Hrows);
        rewrite Hdet
    end.
    eexists _, _, b, new, _. split; [reflexivity|].
    split; [done|]. split; [by rewrite Hbatches|].
    do 4 (split; [done|]). split; [by rewrite Hcontacts|].
    split; [simpl; lia|]. split; [done|].
    split; [by apply reflagged_rows|].
    split; [simpl; lia|done].
  - unfold ret.
    eexists _, _, b, new, _. split; [reflexivity|]. simpl.
    do 7 (split; [done|]). split; [lia|]. split; [done|].
    split; [|split; [|done]].
    + apply Forall_Forall2_diag, Forall_forall. intros c _.
      exists (company_model.is_duplicate c).
      by rewrite company_set_is_duplicate_id.
    + intros _. assert (new = []) as -> by (apply length_zero_iff_nil; lia).
      by rewrite app_nil_r.
Qed.



Section contact_ingestion.

Variable validate_email : string -> option string.
Variables company_id segment_id : option nat.
Variable company_lookup : gmap string nat.
Variables created_by batch : nat.

(** One row of a contact file, when the loop does not break off: at most
    one contact is added, for the batch and the uploader, in the requested
    company or in the company that the row names. *)
Lemma contact_row_stores (now row_number : nat) (row : upload_service.CsvRow)
    (st : upload_service.Counters) (db : DB) :
  (company_id <> None -> is_Some segment_id) ->
  (company_id = None -> row !! "company_name" <> Some None) ->
  (forall k ref, company_lookup !! k = Some ref ->
                 is_Some (companies db !! ref)) ->
  exists lp new errs,
    upload_service.contact_row validate_email company_id segment_id
      company_lookup created_by batch now row_number row st db
    = (Return lp, with_contacts (contacts db ++ new) db)
    /\ upload_service.n_valid (upload_service.counters lp)
       = upload_service.n_valid st + length new
    /\ upload_service.n_invalid st
       <= upload_service.n_invalid (upload_service.counters lp)
    /\ upload_service.errors (upload_service.counters lp)
       = upload_service.errors st ++ errs
    /\ (errs = [] <-> upload_service.n_invalid (upload_service.counters lp)
                      = upload_service.n_invalid st)
    /\ (forall cid, company_id = Some cid ->
          upload_service.contact_company_id lp = Some cid)
    /\ Forall (fun c =>
         contact_model.batch_id c = Some batch
         /\ contact_model.created_by c = created_by
         /\ contact_model.status c = contact_model.UPLOADED
         /\ contact_model.assigned_sdr_id c = None
         /\ match company_id with
            | Some cid =>
                contact_model.company_id c = cid
                /\ segment_id = Some (contact_model.segment_id c)
            | None =>
                exists k company,
                  company_lookup !! k = Some (contact_model.company_id c)
                  /\ companies db !! contact_model.company_id c = Some company
                  /\ contact_model.segment_id c
                     = company_model.segment_id company
            end) new.
Proof.
  intros Hseg Hcell Hlookup.
  assert (Hstage : forall cid seg,
    (company_id = Some cid -> segment_id = Some seg) ->
    (company_id = None ->
       exists k company,
         company_lookup !! k = Some cid
         /\ companies db !! cid = Some company
         /\ seg = company_model.segment_id company) ->
    (forall cid', company_id = Some cid' -> cid' = cid) ->
    exists lp new errs,
      upload_service.stage_contact validate_email created_by batch now
        row_number
        (upload_service.filtered_row upload_service.contact_schema_fields row)
        cid (Some seg) (upload_service.count_row st) db
      = (Return lp, with_contacts (contacts db ++ new) db)
      /\ upload_service.n_valid (upload_service.counters lp)
         = upload_service.n_valid st + length new
      /\ upload_service.n_invalid st
         <= upload_service.n_invalid (upload_service.counters lp)
      /\ upload_service.errors (upload_service.counters lp)
         = upload_service.errors st ++ errs
      /\ (errs = [] <-> upload_service.n_invalid (upload_service.counters lp)
                        = upload_service.n_invalid st)
      /\ (forall cid', company_id = Some cid' ->
            upload_service.contact_company_id lp = Some cid')
      /\ Forall (fun c =>
           contact_model.batch_id c = Some batch
           /\ contact_model.created_by c = created_by
           /\ contact_model.status c = contact_model.UPLOADED
           /\ contact_model.assigned_sdr_id c = None
           /\ match company_id with
              | Some cid =>
                  contact_model.company_id c = cid
                  /\ segment_id = Some (contact_model.segment_id c)
              | None =>
                  exists k company,
                    company_lookup !! k = Some (contact_model.company_id c)
                    /\ companies db !! contact_model.company_id c = Some company
                    /\ contact_model.segment_id c
                       = company_model.segment_id company
              end) new).
  { intros cid seg Hgiven Hmatched Hsame.
    unfold upload_service.stage_contact.
    destruct (contact_schema.validate_create _ _ _) as [e|contact_data] eqn:Hv.
    - exists {| upload_service.counters :=
                  upload_service.count_invalid
                    (upload_service.row_errors row_number e)
                    (upload_service.count_row st);
                upload_service.contact_company_id := Some cid |},
             [], (upload_service.row_errors row_number e).
      unfold ret. rewrite app_nil_r, with_contacts_id. simpl.
      split; [done|]. split; [lia|]. split; [lia|]. split; [done|].
      split; [|split; [|constructor]].
      + split; [|lia]. intros Hnil.
        apply contact_validate_create_errors in Hv.
        by apply (row_errors_nil row_number) in Hv.
      + intros cid' Hcid'. by rewrite (Hsame _ Hcid').
    - eexists _, [_], []. unfold bind, session.add_contact, ret. simpl.
      split; [reflexivity|]. simpl.
      split; [lia|]. split; [lia|]. split; [by rewrite app_nil_r|].
      split; [done|]. split.
      + intros cid' Hcid'. by rewrite (Hsame _ Hcid').
      + constructor; [|constructor]. simpl. do 4 (split; [done|]).
        destruct company_id as [cid0|].
        * assert (cid0 = cid) as -> by (by apply Hsame).
          split; [done|by apply Hgiven].
        * by apply Hmatched. }
  assert (Hbad : forall message,
    exists lp new errs,
      (Return
         {| upload_service.counters :=
              upload_service.count_invalid
                [ {| upload_service.row_number := row_number;
                     upload_service.field := "company_name";
                     upload_service.error := message |} ]
                (upload_service.count_row st);
            upload_service.contact_company_id := None |}, db)
      = (Return lp, with_contacts (contacts db ++ new) db)
      /\ upload_service.n_valid (upload_service.counters lp)
         = upload_service.n_valid st + length new
      /\ upload_service.n_invalid st
         <= upload_service.n_invalid (upload_service.counters lp)
      /\ upload_service.errors (upload_service.counters lp)
         = upload_service.errors st ++ errs
      /\ (errs = [] <-> upload_service.n_invalid (upload_service.counters lp)
                        = upload_service.n_invalid st)
      /\ Forall (fun c : contact_model.Contact => False) new).
  { intros message. eexists _, [], [_].
    rewrite app_nil_r, with_contacts_id. split; [reflexivity|]. simpl.
    split; [lia|]. split; [lia|]. split; [done|].
    split; [|constructor]. split; [done|lia]. }
  unfold upload_service.contact_row.
  destruct company_id as [cid|] eqn:Hcompany.
  - destruct (Hseg ltac:(done)) as [seg Hsegment].
    destruct (Hstage cid seg) as (lp & new & errs & Hrun & Hrest);
      [done|done|by intros ? [= <-]|].
    exists lp, new, errs. split; [|exact Hrest].
    rewrite <- Hrun. by rewrite Hsegment.
  - assert (forall lp new (R : Prop),
        R /\ Forall (fun c : contact_model.Contact => False) new ->
        R /\ (forall cid : nat, None = Some cid ->
                upload_service.contact_company_id lp = Some cid)
          /\ Forall (fun c =>
               contact_model.batch_id c = Some batch
               /\ contact_model.created_by c = created_by
               /\ contact_model.status c = contact_model.UPLOADED
               /\ contact_model.assigned_sdr_id c = None
               /\ exists k company,
                    company_lookup !! k = Some (contact_model.company_id c)
                    /\ companies db !! contact_model.company_id c = Some company
                    /\ contact_model.segment_id c
                       = company_model.segment_id company) new) as Hweak.
    { intros lp new R [HR Hnone]. split; [done|]. split; [done|].
      eapply Forall_impl; [exact Hnone|]. done. }
    specialize (Hcell eq_refl).
    destruct (row !! "company_name") as [[cell|]|] eqn:Hrow; [|done|]; simpl.
    + destruct (pystr.truthy (pystr.strip cell)).
      * destruct (company_lookup !! pystr.lower (pystr.strip cell))
          as [matched|] eqn:Hmatched.
        -- unfold bind at 1, get_db.
           destruct (Hlookup _ _ Hmatched) as [company Hcompany'].
           rewrite Hcompany'. simpl.
           apply Hstage; [done| |done].
           intros _. by exists (pystr.lower (pystr.strip cell)), company.
        -- unfold ret.
           destruct (Hbad ("Company '" +:+ pystr.strip cell
                             +:+ "' not found in segment"))
             as (lp & new & errs & Hrun & H1 & H2 & H3 & H4 & H5).
           exists lp, new, errs. split; [exact Hrun|].
           do 3 (split; [done|]). by apply (Hweak lp new).
      * unfold ret.
        destruct (Hbad "company_name is required when company_id is not provided")
          as (lp & new & errs & Hrun & H1 & H2 & H3 & H4 & H5).
        exists lp, new, errs. split; [exact Hrun|].
        do 3 (split; [done|]). by apply (Hweak lp new).
    + unfold ret.
      destruct (Hbad "company_name is required when company_id is not provided")
        as (lp & new & errs & Hrun & H1 & H2 & H3 & H4 & H5).
      exists lp, new, errs. split; [exact Hrun|].
      do 3 (split; [done|]). by apply (Hweak lp new).
Qed.

End contact_ingestion.








Lemma contact_rows_breaks (validate_email : string -> option string)
    (segment_id : option nat) (company_lookup : gmap string nat)
    (created_by batch : nat) (clock : nat -> nat)
    (pre post : list upload_service.CsvRow) (row : upload_service.CsvRow) :
  Forall (fun r => r !! "company_name" <> Some None) pre ->
  row !! "company_name" = Some None ->
  forall (row_number : nat) (st : upload_service.ContactLoop) (db : DB),
  (forall k ref, company_lookup !! k = Some ref ->
                 is_Some (companies db !! ref)) ->
  exists db',
    upload_service.contact_rows validate_email None segment_id company_lookup
      created_by batch clock row_number (pre ++ row :: post) st db
    = (Raise (AttributeError "'NoneType' object has no attribute 'strip'"), db')
    /\ companies db' = companies db
    /\ upload_batches db' = upload_batches db.
Proof.
  intros Hpre Hrow.
  induction Hpre as [|r pre Hr Hpre IH]; intros row_number st db Hlookup.
  - exists db. simpl. unfold bind, upload_service.contact_row.
    rewrite Hrow. done.
  - cbn [app upload_service.contact_rows].
    destruct (contact_row_stores validate_email None segment_id
                company_lookup created_by batch (clock row_number) row_number
                r (upload_service.counters st) db)
      as (lp & new & errs & Hrun & _); [done|done|done|].
    rewrite (bind_Return _ _ _ _ _ Hrun).
    destruct (IH (S row_number) lp (with_contacts (contacts db ++ new) db))
      as (db' & Hrest & Hcompanies & Hbatches); [done|].
    exists db'. by rewrite Hrest.
Qed.

(** [process_contact_csv] breaks off at a row without the cell. *)
Lemma process_contact_csv_breaks :
  forall (validate_email : string -> option string)
         (file : upload_service.UploadFile) (segment_id : option nat)
         (created_by : nat) (clock : nat -> nat) (db : DB)
         (pre post : list upload_service.CsvRow) (row : upload_service.CsvRow),
    upload_service.csv_rows file = pre ++ row :: post ->
    Forall (fun r => r !! "company_name" <> Some None) pre ->
    row !! "company_name" = Some None ->
    exists db',
      upload_service.process_contact_csv validate_email file None segment_id
        created_by clock db
      = (Raise (AttributeError "'NoneType' object has no attribute 'strip'"),
         db')
      /\ companies db' = companies db.
Proof.
  intros validate_email file segment_id created_by clock db pre post row
    Hfile Hpre Hrow.
  unfold upload_service.process_contact_csv.
  erewrite bind_Return by reflexivity.
  erewrite bind_Return by reflexivity.
  rewrite Hfile.
  match goal with
  | |- context [bind (upload_service.contact_rows _ _ ?seg ?lookup _ ?batch
                        _ ?n _ ?st) _ ?d] =>
      destruct (contact_rows_breaks validate_email seg lookup created_by batch
                  clock pre post row Hpre Hrow n st d)
        as (db' & Hrun & Hcompanies & _)
  end.
  { intros k ref. simpl.
    destruct segment_id as [s|]; [|by rewrite lookup_empty].
    apply build_company_lookup_resolves. }
  exists db'. rewrite (bind_Raise _ _ _ _ _ Hrun). by rewrite Hcompanies.
Qed.

(** In a contact upload without a company id the loop over the rows is not
    protected against a row that is too short to have a [company_name]
    cell: the first such row ends the whole call with an [AttributeError],
    whatever the other rows hold.  No company is changed. *)
Theorem contact_upload_short_row_aborts :
  forall (validate_email : string -> option string)
         (file : upload_service.UploadFile) (segment_id : option nat)
         (created_by : nat) (clock : nat -> nat) (db : DB)
         (pre post : list upload_service.CsvRow) (row : upload_service.CsvRow),
    upload_service.csv_rows file = pre ++ row :: post ->
    Forall (fun r => r !! "company_name" <> Some None) pre ->
    row !! "company_name" = Some None ->
    exists db',
      upload_service.process_contact_csv validate_email file None segment_id
        created_by clock db
      = (Raise (AttributeError "'NoneType' object has no attribute 'strip'"),
         db')
      /\ companies db' = companies db.
Proof.
  intros validate_email file segment_id created_by clock db pre post row
    Hfile Hpre Hrow.
  by eapply process_contact_csv_breaks.
Qed.

Lemma contact_upload_short_row_aborts_witness :
  exists db',
    upload_service.process_contact_csv sample_validate_email
      {| upload_service.filename := Some "contacts.csv";
         upload_service.size := 150;
         upload_service.csv_rows :=
           [ sample_contact_row "Acme" "Ann@Acme.com";
             {[ "first_name" := Some "Bob"; "company_name" := None ]} ] |}
      None (Some 7) 1 (fun n => 10 + n) sample_db_two_companies
    = (Raise (AttributeError "'NoneType' object has no attribute 'strip'"), db').
Proof.
  destruct (contact_upload_short_row_aborts sample_validate_email
              {| upload_service.filename := Some "contacts.csv";
                 upload_service.size := 150;
                 upload_service.csv_rows :=
                   [ sample_contact_row "Acme" "Ann@Acme.com";
                     {[ "first_name" := Some "Bob"; "company_name" := None ]} ] |}
              (Some 7) 1 (fun n => 10 + n) sample_db_two_companies
              [sample_contact_row "Acme" "Ann@Acme.com"] []
              {[ "first_name" := Some "Bob"; "company_name" := None ]})
    as (db' & Hrun & _).
  - reflexivity.
  - repeat constructor; discriminate.
  - reflexivity.
  - by exists db'.
Defined.

(** ** The upload handlers *)








(** ** Reading the batches *)

(** [list_batches] and [count_batches] read the store without changing it
    and agree with each other: the page has min(limit, total - skip) rows,
    all of them batches that [get_batch] returns under their id and that
    pass the type and status filters, no batch twice, newest first. *)
Theorem list_batches_page :
  forall (skip limit : nat)
         (upload_type : option upload_batch_model.UploadTypeEnum)
         (status : option upload_batch_model.BatchStatusEnum) (db : DB),
  exists page total,
    upload_service.list_batches skip limit upload_type status db
    = (Return page, db)
    /\ upload_service.count_batches upload_type status db = (Return total, db)
    /\ length page = min limit (total - skip)
    /\ Forall (fun r =>
         upload_service.get_batch r.1 db = (Return (Some r.2), db)
         /\ (forall t, upload_type = Some t ->
               upload_batch_model.upload_type r.2 = t)
         /\ (forall s, status = Some s -> upload_batch_model.status r.2 = s))
         page
    /\ NoDup page.*1
    /\ StronglySorted (newest_first upload_batch_model.created_at) page.
Proof.
  intros. eexists _, _. split; [reflexivity|]. split; [reflexivity|].
  destruct (page_desc_spec
              (fun b => upload_service.batch_filters upload_type status b = true)
              upload_batch_model.created_at skip limit (upload_batches db))
    as (Hlen & Hall & Hnd & Hsorted).
  split; [done|]. split; [|done].
  eapply Forall_impl; [exact Hall|]. intros r [Hr HP].
  unfold upload_service.get_batch, reads. rewrite Hr. split; [done|].
  unfold upload_service.batch_filters in HP.
  apply andb_true_iff in HP as [Ht Hs]. split.
  - intros t ->. by apply bool_decide_eq_true in Ht.
  - intros s ->. by apply bool_decide_eq_true in Hs.
Qed.

(** A company upload registers its batch: the id it returns was not in use
    before, [get_batch] now returns the closed record under it, the count
    of company batches is one higher and the count of contact batches is
    the same. *)
Theorem company_upload_registers_batch :
  forall (int_of_str : string -> option Z) (file : upload_service.UploadFile)
         (segment_id created_by : nat) (clock : nat -> nat) (db : DB),
  exists batch errs b n m k db',
    upload_service.process_company_csv int_of_str file segment_id created_by
      clock db
    = (Return (batch, errs), db')
    /\ upload_service.get_batch batch db = (Return None, db)
    /\ upload_service.get_batch batch db' = (Return (Some b), db')
    /\ upload_batch_model.status b <> upload_batch_model.PROCESSING
    /\ upload_service.count_batches (Some upload_batch_model.COMPANY) None db
       = (Return n, db)
    /\ upload_service.count_batches (Some upload_batch_model.COMPANY) None db'
       = (Return (n + 1), db')
    /\ upload_service.count_batches (Some upload_batch_model.CONTACT) None db
       = (Return m, db)
    /\ upload_service.count_batches (Some upload_batch_model.CONTACT) None db'
       = (Return m, db')
    /\ upload_service.count_batches None
         (Some upload_batch_model.PROCESSING) db
       = (Return k, db)
    /\ upload_service.count_batches None
         (Some upload_batch_model.PROCESSING) db'
       = (Return k, db').
Proof.
  intros int_of_str file segment_id created_by clock db.
  destruct (process_company_csv_stores int_of_str file segment_id created_by
              clock db)
    as (batch & errs & b & new & db' & Hrun & -> & Hbatches & Htype & _).
  destruct (process_company_csv_spec int_of_str file segment_id created_by
              clock db)
    as (errs' & b' & new' & mid & db'' & Hrun' & Hconsistent & _ & _ & _
        & Hmid & Hdb'').
  rewrite Hrun in Hrun'. injection Hrun' as <- <-.
  assert (b' = b) as ->.
  { assert (upload_batches db' = upload_batches db ++ [b']) as Hb'.
    { destruct Hdb'' as [-> | ->]; [done|].
      destruct (detect_company_duplicates_frame segment_id mid)
        as (_ & -> & _). done. }
    rewrite Hbatches in Hb'. by apply app_inj_tail in Hb' as [_ ->]. }
  destruct Hconsistent as (_ & _ & Hcompleted & Hfailed & _).
  assert (Hstatus : upload_batch_model.status b <> upload_batch_model.PROCESSING).
  { destruct (decide (upload_batch_model.invalid_rows b = 0)) as [Hz|Hz].
    - apply Hcompleted in Hz. congruence.
    - assert (upload_batch_model.status b = upload_batch_model.FAILED) as ->
        by (apply Hfailed; lia). done. }
  eexists _, errs, b, _, _, _, db'. split; [exact Hrun|].
  unfold upload_service.get_batch, upload_service.count_batches, reads.
  rewrite Hbatches. rewrite lookup_app_r by done. rewrite Nat.sub_diag.
  rewrite !count_where_add.
  unfold upload_service.batch_filters. simpl. rewrite Htype. simpl.
  split; [by rewrite (proj2 (lookup_ge_None _ _))|].
  split; [done|]. split; [done|]. split; [reflexivity|].
  split; [done|]. split; [reflexivity|].
  split; [by rewrite Nat.add_0_r|]. split; [reflexivity|].
  rewrite (bool_decide_eq_false_2 _ Hstatus). by rewrite Nat.add_0_r.
Qed.

(** ** Who changes the status of a contact *)

Lemma bulk_assign_loop_attributed (contact_ids : list nat) (sdr_id : nat) :
  forall (acc : list nat) (db : DB) (i : nat) (c c' : contact_model.Contact),
    contacts db !! i = Some c ->
    contacts (exec (contact_service.bulk_assign_loop contact_ids sdr_id acc) db)
      !! i = Some c' ->
    contact_model.status c' <> contact_model.status c
    \/ contact_model.assigned_sdr_id c' <> contact_model.assigned_sdr_id c ->
    i ∈ contact_ids
    /\ contact_model.status c = contact_model.APPROVED
    /\ contact_model.status c' = contact_model.ASSIGNED_TO_SDR
    /\ contact_model.assigned_sdr_id c' = Some sdr_id.
Proof.
  induction contact_ids as [|id rest IH]; intros acc db i c c' Hc Hc' Hchanged.
  { unfold exec in Hc'. simpl in Hc'. rewrite Hc in Hc'.
    injection Hc' as <-. by destruct Hchanged. }
  unfold exec in Hc'. cbn [contact_service.bulk_assign_loop] in Hc'.
  pose proof (assign_to_sdr_run id sdr_id db) as Hrun.
  destruct (contact_service.assign_to_sdr id sdr_id db) as [[id'|e] db1] eqn:Hassign.
  - destruct Hrun as (x & Hx & Hstatus & -> & ->).
    rewrite (bind_Return _ _ _ _ _ Hassign) in Hc'.
    fold (exec (contact_service.bulk_assign_loop rest sdr_id (acc ++ [id]))
            (with_contacts
               (<[id := contact_model.set_status contact_model.ASSIGNED_TO_SDR
                          (contact_model.set_assigned_sdr_id sdr_id x)]>
                  (contacts db)) db)) in Hc'.
    destruct (decide (i = id)) as [->|Hne].
    + rewrite Hc in Hx. injection Hx as <-.
      set (c1 := contact_model.set_status contact_model.ASSIGNED_TO_SDR
                   (contact_model.set_assigned_sdr_id sdr_id c)) in *.
      assert (Hc1 : contacts (with_contacts (<[id := c1]> (contacts db)) db)
                      !! id = Some c1).
      { simpl. apply list_lookup_insert_eq. by eapply lookup_lt_Some. }
      destruct (decide (contact_model.status c' = contact_model.status c1
                        /\ contact_model.assigned_sdr_id c'
                           = contact_model.assigned_sdr_id c1))
        as [[Hs Ha]|Hdiff].
      * split; [left|]. by rewrite Hs, Ha.
      * destruct (IH _ _ _ _ _ Hc1 Hc') as (_ & Habs & _).
        { apply not_and_l in Hdiff. tauto. }
        done.
    + assert (Hc1 : contacts
                      (with_contacts
                         (<[id := contact_model.set_status
                                    contact_model.ASSIGNED_TO_SDR
                                    (contact_model.set_assigned_sdr_id sdr_id x)]>
                            (contacts db)) db) !! i = Some c).
      { simpl. by rewrite list_lookup_insert_ne. }
      destruct (IH _ _ _ _ _ Hc1 Hc' Hchanged) as (Hin & Hrest).
      split; [by right|done].
  - destruct Hrun as [-> _]. rewrite (bind_Raise _ _ _ _ _ Hassign) in Hc'.
    simpl in Hc'. rewrite Hc in Hc'. injection Hc' as <-. by destruct Hchanged.
Qed.

(** The status and the SDR of a stored contact change only through the
    pipeline operations, each in its own step: an approval takes the
    contact it names from uploaded to approved, an assignment (single or
    bulk) takes a contact it names from approved to assigned_to_sdr and
    records the SDR, and the meeting mark takes the contact it names from
    assigned_to_sdr to meeting_scheduled.  No creation, update, duplicate
    mark, upload or detection run, and no operation on companies, changes
    the status or the SDR of a contact. *)
Theorem contact_status_changes_attributed :
  forall (int_of_str : string -> option Z)
         (validate_email : string -> option string) (op : Operation) (db : DB)
         (i : nat) (c c' : contact_model.Contact),
    contacts db !! i = Some c ->
    contacts (run int_of_str validate_email op db) !! i = Some c' ->
    contact_model.status c' <> contact_model.status c
    \/ contact_model.assigned_sdr_id c' <> contact_model.assigned_sdr_id c ->
    match op with
    | approve_contact contact_id approval =>
        i = contact_id
        /\ contact_schema.status approval = contact_model.APPROVED
        /\ contact_model.status c = contact_model.UPLOADED
        /\ contact_model.status c' = contact_model.APPROVED
        /\ contact_model.assigned_sdr_id c' = contact_model.assigned_sdr_id c
    | assign_to_sdr contact_id sdr_id =>
        i = contact_id
        /\ contact_model.status c = contact_model.APPROVED
        /\ contact_model.status c' = contact_model.ASSIGNED_TO_SDR
        /\ contact_model.assigned_sdr_id c' = Some sdr_id
    | bulk_assign_to_sdr contact_ids sdr_id =>
        i ∈ contact_ids
        /\ contact_model.status c = contact_model.APPROVED
        /\ contact_model.status c' = contact_model.ASSIGNED_TO_SDR
        /\ contact_model.assigned_sdr_id c' = Some sdr_id
    | mark_meeting_scheduled contact_id =>
        i = contact_id
        /\ contact_model.status c = contact_model.ASSIGNED_TO_SDR
        /\ contact_model.status c' = contact_model.MEETING_SCHEDULED
        /\ contact_model.assigned_sdr_id c' = contact_model.assigned_sdr_id c
    | _ => False
    end.
Proof.
  intros int_of_str validate_email op db i c c' Hc Hc' Hchanged.
  assert (Hsame : forall db',
            contacts db' = contacts db ->
            contacts db' !! i = Some c' -> False).
  { intros db' Heq Hi. rewrite Heq, Hc in Hi. injection Hi as <-.
    by destruct Hchanged. }
  assert (Hflag : forall db',
            (forall j x, contacts db !! j = Some x ->
               exists b, contacts db' !! j
                         = Some (contact_model.set_is_duplicate b x)) ->
            contacts db' !! i = Some c' -> False).
  { intros db' Hrows Hi. destruct (Hrows i c Hc) as [b Hb].
    rewrite Hb in Hi. injection Hi as <-. by destruct Hchanged. }
  destruct op; cbn [run] in Hc'.
  - (* create_company *) by eapply Hsame.
  - (* update_company *)
    eapply Hsame; [|exact Hc']. run_service.
    destruct (companies db !! company_id); [|done].
    by destruct (company_service.apply_update _ _).
  - (* approve_company *)
    eapply Hsame; [|exact Hc'].
    destruct (company_schema.validate_approval body); [done|].
    run_service. destruct (companies db !! company_id); [|done].
    by case_decide.
  - (* mark_company_duplicate *)
    eapply Hsame; [|exact Hc']. run_service.
    by destruct (companies db !! company_id).
  - (* process_company_csv *)
    eapply Hsame; [|exact Hc'].
    destruct (process_company_csv_spec int_of_str file segment_id created_by
                clock db)
      as (errs & b & new & mid & db' & Hrun & _ & _ & _ & Hmid & _ & Hdb').
    unfold exec. rewrite Hrun. simpl.
    destruct Hdb' as [-> | ->]; [done|].
    by destruct (detect_company_duplicates_frame segment_id mid) as (-> & _).
  - (* detect_company_duplicates *)
    eapply Hsame; [|exact Hc'].
    by destruct (detect_company_duplicates_frame segment_id db) as (-> & _).
  - (* create_contact *)
    revert Hc'. run_service.
    destruct (companies db !! contact_schema.company_id data); simpl.
    + rewrite lookup_app_l by (by eapply lookup_lt_Some).
      by apply (Hsame db).
    + by apply (Hsame db).
  - (* update_contact *)
    revert Hc'. run_service.
    destruct (contacts db !! contact_id) as [x|] eqn:Hx;
      [|by apply (Hsame db)].
    destruct (contact_service.apply_update data x) as [x'|] eqn:Hx';
      [|by apply (Hsame db)].
    simpl. destruct (decide (i = contact_id)) as [->|Hne].
    + rewrite list_lookup_insert_eq by (by eapply lookup_lt_Some).
      intros [= <-]. rewrite Hc in Hx. injection Hx as <-.
      unfold contact_service.apply_update in Hx'.
      repeat (destruct (updated_not_null _ _); [|done]).
      injection Hx' as <-. by destruct Hchanged.
    + rewrite list_lookup_insert_ne by done. by apply (Hsame db).
  - (* approve_contact *)
    revert Hc'. run_service.
    destruct (contacts db !! contact_id) as [x|] eqn:Hx;
      [|by intros ?%(Hsame db)].
    case_decide as Ha; [by intros ?%(Hsame db)|].
    case_decide as Hs; [by intros ?%(Hsame db)|].
    try apply dec_stable in Ha. try apply dec_stable in Hs. simpl.
    destruct (decide (i = contact_id)) as [->|Hne].
    + rewrite list_lookup_insert_eq by (by eapply lookup_lt_Some).
      intros [= <-]. rewrite Hc in Hx. by injection Hx as <-.
    + rewrite list_lookup_insert_ne by done. by intros ?%(Hsame db).
  - (* assign_to_sdr *)
    revert Hc'. run_service.
    destruct (contacts db !! contact_id) as [x|] eqn:Hx;
      [|by intros ?%(Hsame db)].
    case_decide as Hs; [by intros ?%(Hsame db)|].
    try apply dec_stable in Hs. simpl.
    destruct (decide (i = contact_id)) as [->|Hne].
    + rewrite list_lookup_insert_eq by (by eapply lookup_lt_Some).
      intros [= <-]. rewrite Hc in Hx. by injection Hx as <-.
    + rewrite list_lookup_insert_ne by done. by intros ?%(Hsame db).
  - (* bulk_assign_to_sdr *)
    unfold contact_service.bulk_assign_to_sdr in Hc'.
    by eapply bulk_assign_loop_attributed.
  - (* mark_meeting_scheduled *)
    revert Hc'. run_service.
    destruct (contacts db !! contact_id) as [x|] eqn:Hx;
      [|by intros ?%(Hsame db)].
    case_decide as Hs; [by intros ?%(Hsame db)|].
    try apply dec_stable in Hs. simpl.
    destruct (decide (i = contact_id)) as [->|Hne].
    + rewrite list_lookup_insert_eq by (by eapply lookup_lt_Some).
      intros [= <-]. rewrite Hc in Hx. by injection Hx as <-.
    + rewrite list_lookup_insert_ne by done. by intros ?%(Hsame db).
  - (* mark_contact_duplicate *)
    revert Hc'. run_service.
    destruct (contacts db !! contact_id) as [x|] eqn:Hx;
      [|by apply (Hsame db)].
    simpl. destruct (decide (i = contact_id)) as [->|Hne].
    + rewrite list_lookup_insert_eq by (by eapply lookup_lt_Some).
      intros [= <-]. rewrite Hc in Hx. injection Hx as <-.
      by destruct Hchanged.
    + rewrite list_lookup_insert_ne by done. by apply (Hsame db).
  - (* process_contact_csv *)
    unfold exec in Hc'.
    destruct (upload_service.process_contact_csv _ _ _ _ _ _ _)
      as [r db'] eqn:Hrun.
    apply process_contact_csv_spec in Hrun
      as (_ & (new & mid & _ & Hmid & Hdb') & _). simpl in Hc'.
    assert (Hc1 : contacts mid !! i = Some c)
      by (rewrite Hmid; by apply lookup_app_l_Some).
    destruct Hdb' as [Heq|[cid Heq]]; rewrite Heq in Hc'.
    + rewrite Hc1 in Hc'. injection Hc' as <-. by destruct Hchanged.
    + destruct (detect_contact_duplicates_frame cid mid) as (_ & _ & _ & Hrows).
      destruct (Hrows i c Hc1) as [b Hb]. rewrite Hb in Hc'.
      injection Hc' as <-. by destruct Hchanged.
  - (* detect_contact_duplicates *)
    eapply Hflag; [|exact Hc'].
    by destruct (detect_contact_duplicates_frame company_id db)
      as (_ & _ & _ & Hrows).
Qed.

Lemma contact_status_changes_attributed_witness :
  contact_model.status
    (sample_contact "ann@acme.com" 0 7 contact_model.APPROVED 4)
  = contact_model.APPROVED
  /\ contact_model.assigned_sdr_id
       (contact_model.set_status contact_model.ASSIGNED_TO_SDR
          (contact_model.set_assigned_sdr_id 5
             (sample_contact "ann@acme.com" 0 7 contact_model.APPROVED 4)))
     = Some 5.
Proof.
  destruct (contact_status_changes_attributed sample_int_of_str
              sample_validate_email (assign_to_sdr 0 5)
              (with_contacts
                 [sample_contact "ann@acme.com" 0 7 contact_model.APPROVED 4]
                 empty_db)
              0 (sample_contact "ann@acme.com" 0 7 contact_model.APPROVED 4)
              (contact_model.set_status contact_model.ASSIGNED_TO_SDR
                 (contact_model.set_assigned_sdr_id 5
                    (sample_contact "ann@acme.com" 0 7
                       contact_model.APPROVED 4))))
    as (_ & Hbefore & _ & Hsdr).
  - reflexivity.
  - reflexivity.
  - left. discriminate.
  - split; [exact Hbefore|exact Hsdr].
Defined.

(** ** Listings by segment, company and SDR *)

Lemma select_where_length {A} (P : A -> Prop) `{!forall x, Decision (P x)}
    (table : list A) :
  length (session.select_where P table) <= length table.
Proof.
  unfold session.select_where. etrans; [apply length_filter|].
  unfold session.rows. by rewrite length_imap.
Qed.

(** [get_companies_by_segment] reads the store without changing it and
    agrees with [count_companies] for the segment as the only filter: the
    page has min(limit, count - skip) rows, all of them stored companies of
    the segment, no company twice, newest first. *)
Theorem get_companies_by_segment_page :
  forall (ilike : string -> string -> bool) (segment_id skip limit : nat)
         (db : DB),
  exists page total,
    company_service.get_companies_by_segment segment_id skip limit db
    = (Return page, db)
    /\ company_service.count_companies ilike (Some segment_id) None None None
         db = (Return total, db)
    /\ length page = min limit (total - skip)
    /\ Forall (fun r => companies db !! r.1 = Some r.2
                        /\ company_model.segment_id r.2 = segment_id) page
    /\ NoDup page.*1
    /\ StronglySorted (newest_first company_model.created_at) page.
Proof.
  intros ilike segment_id skip limit db.
  unfold company_service.get_companies_by_segment,
    company_service.count_companies, reads.
  eexists _, _. split; [reflexivity|]. split; [reflexivity|].
  assert (Hext : session.count_where
            (fun c => company_service.company_filters ilike (Some segment_id)
                        None None None c = true) (companies db)
          = session.count_where
              (fun c => company_model.segment_id c = segment_id)
              (companies db)).
  { unfold session.count_where. f_equal. apply select_where_ext. intros c.
    unfold company_service.company_filters. simpl.
    rewrite !andb_true_r. by rewrite bool_decide_eq_true. }
  rewrite Hext.
  apply (page_desc_spec (fun c => company_model.segment_id c = segment_id)
           company_model.created_at skip limit (companies db)).
Qed.

(** [get_contacts_by_company] agrees with [get_company_contact_count]: its
    page has min(limit, count - skip) rows, all of them stored contacts of
    the company.  And a contact that [assign_to_sdr] has just assigned is
    among the contacts that [get_contacts_by_sdr] lists for that SDR, every
    one of which is assigned to the SDR. *)
Theorem contact_listings_by_company_and_sdr :
  forall (ilike : string -> string -> bool) (db : DB),
    (forall company_id skip limit,
          exists page n,
            contact_service.get_contacts_by_company ilike company_id skip
              limit db = (Return page, db)
            /\ company_service.get_company_contact_count company_id db
               = (Return n, db)
            /\ length page = min limit (n - skip)
            /\ Forall (fun r => contacts db !! r.1 = Some r.2
                                /\ contact_model.company_id r.2 = company_id)
                 page)
    /\ (forall contact_id sdr_id db',
          contact_service.assign_to_sdr contact_id sdr_id db
          = (Return contact_id, db') ->
          exists page,
            contact_service.get_contacts_by_sdr ilike sdr_id 0
              (length (contacts db')) db' = (Return page, db')
            /\ contact_id ∈ page.*1
            /\ Forall (fun r => contacts db' !! r.1 = Some r.2
                                /\ contact_model.assigned_sdr_id r.2
                                   = Some sdr_id) page).
Proof.
  intros ilike db. split.
  - intros company_id skip limit.
    unfold contact_service.get_contacts_by_company,
      contact_service.list_contacts,
      company_service.get_company_contact_count, reads.
    eexists _, _. split; [reflexivity|]. split; [reflexivity|].
    assert (Hext : session.select_where
              (fun c => contact_service.contact_filters ilike (Some company_id)
                          None None None None None c = true) (contacts db)
            = session.select_where
                (fun c => contact_model.company_id c = company_id)
                (contacts db)).
    { apply select_where_ext. intros c.
      unfold contact_service.contact_filters. simpl.
      rewrite !andb_true_r. by rewrite bool_decide_eq_true. }
    rewrite Hext.
    destruct (page_desc_spec
                (fun c => contact_model.company_id c = company_id)
                contact_model.created_at skip limit (contacts db))
      as (Hlen & Hall & _ & _).
    done.
  - intros contact_id sdr_id db' Hassign.
    pose proof (assign_to_sdr_run contact_id sdr_id db) as Hrun.
    rewrite Hassign in Hrun. destruct Hrun as (c & Hc & Hs & _ & ->).
    unfold contact_service.get_contacts_by_sdr, contact_service.list_contacts,
      reads.
    eexists. split; [reflexivity|].
    assert (Hext : forall table,
              session.select_where
                (fun c => contact_service.contact_filters ilike None None None
                            None (Some sdr_id) None c = true) table
              = session.select_where
                  (fun c => contact_model.assigned_sdr_id c = Some sdr_id)
                  table).
    { intros table. apply select_where_ext. intros x.
      unfold contact_service.contact_filters. simpl.
      rewrite !andb_true_r. by rewrite bool_decide_eq_true. }
    rewrite Hext. unfold session.offset_limit. rewrite drop_0.
    rewrite take_ge.
    2:{ rewrite order_by_desc_perm. apply select_where_length. }
    split.
    + apply list_elem_of_fmap.
      exists (contact_id,
              contact_model.set_status contact_model.ASSIGNED_TO_SDR
                (contact_model.set_assigned_sdr_id sdr_id c)).
      split; [done|]. rewrite order_by_desc_perm.
      apply elem_of_select_where. simpl. split; [|done].
      apply list_lookup_insert_eq. by eapply lookup_lt_Some.
    + apply Forall_forall. intros r Hr. rewrite order_by_desc_perm in Hr.
      by apply elem_of_select_where in Hr.
Qed.


Lemma update_contact_protected_columns_witness :
  exists c' db',
    contact_service.update_contact 0
      {| contact_schema.u_first_name := None;
         contact_schema.u_last_name := Some (Some "Leigh");
         contact_schema.u_email := None;
         contact_schema.u_mobile_phone := None;
         contact_schema.u_job_title := Some None;
         contact_schema.u_direct_phone_number := None;
         contact_schema.u_email_address_2 := None;
         contact_schema.u_email_active_status := None;
         contact_schema.u_lead_source_global := None;
         contact_schema.u_management_level := None;
         contact_schema.u_street := None;
         contact_schema.u_city := None;
         contact_schema.u_state_province := None;
         contact_schema.u_country_region := None;
         contact_schema.u_zip_postal_code := None;
         contact_schema.u_primary_time_zone := None;
         contact_schema.u_contact_linkedin_url := None;
         contact_schema.u_linkedin_summary := None;
         contact_schema.u_data_requester_details := None;
         contact_schema.u_company_id := Some (Some 1) |} sample_db
    = (Return 0, db')
    /\ contacts db' !! 0 = Some c'
    /\ contact_model.company_id c' = 1
    /\ contact_model.segment_id c' = 7
    /\ contact_model.status c' = contact_model.UPLOADED.
Proof.
  destruct (update_contact_protected_columns sample_db 0
              {| contact_schema.u_first_name := None;
                 contact_schema.u_last_name := Some (Some "Leigh");
                 contact_schema.u_email := None;
                 contact_schema.u_mobile_phone := None;
                 contact_schema.u_job_title := Some None;
                 contact_schema.u_direct_phone_number := None;
                 contact_schema.u_email_address_2 := None;
                 contact_schema.u_email_active_status := None;
                 contact_schema.u_lead_source_global := None;
                 contact_schema.u_management_level := None;
                 contact_schema.u_street := None;
                 contact_schema.u_city := None;
                 contact_schema.u_state_province := None;
                 contact_schema.u_country_region := None;
                 contact_schema.u_zip_postal_code := None;
                 contact_schema.u_primary_time_zone := None;
                 contact_schema.u_contact_linkedin_url := None;
                 contact_schema.u_linkedin_summary := None;
                 contact_schema.u_data_requester_details := None;
                 contact_schema.u_company_id := Some (Some 1) |}
              (sample_contact "ann@acme.com" 0 7 contact_model.UPLOADED 4))
    as (c' & db' & Hrun & Hcontacts & _ & _ & Hstatus & _ & Hsegment & _ & _
        & _ & _ & Hcompany & _).
  - reflexivity.
  - discriminate.
  - discriminate.
  - discriminate.
  - discriminate.
  - exists c', db'. split; [exact Hrun|]. split.
    + rewrite Hcontacts. reflexivity.
    + split; [|split; [exact Hsegment|exact Hstatus]].
      simpl in Hcompany. by injection Hcompany as ->.
Defined.

(** ** What the ingestion reads of a row *)

Lemma filtered_row_lookup (schema_fields : list string)
    (row : upload_service.CsvRow) (k : string) :
  upload_service.filtered_row schema_fields row !! k
  = if decide (k ∈ schema_fields)
    then upload_service.clean_cell <$> row !! k else None.
Proof.
  unfold upload_service.filtered_row, pydantic.Kwargs, upload_service.CsvRow
    in *.
  rewrite lookup_fmap, map_lookup_filter.
  destruct (row !! k) as [v|]; simpl; [|by case_decide].
  by case_guard.
Qed.

(** The loop of [process_company_csv] reads of a row only the cells of the
    schema's columns, stripped of surrounding white space and with the
    empty cell turned into null: two lists of rows that agree on these
    give the same result and the same store.  Columns that the schema does
    not name, and white space around a value, have no influence. *)
Theorem company_rows_read_cleaned_cells :
  forall (int_of_str : string -> option Z)
         (segment_id created_by batch : nat) (clock : nat -> nat)
         (rows rows' : list upload_service.CsvRow),
    Forall2 (fun row row' =>
               forall k, k ∈ upload_service.company_schema_fields ->
                 upload_service.clean_cell <$> row !! k
                 = upload_service.clean_cell <$> row' !! k) rows rows' ->
    forall (row_number : nat) (st : upload_service.Counters) (db : DB),
      upload_service.company_rows int_of_str segment_id created_by batch
        clock row_number rows st db
      = upload_service.company_rows int_of_str segment_id created_by batch
          clock row_number rows' st db.
Proof.
  intros int_of_str segment_id created_by batch clock rows rows' Hrows.
  induction Hrows as [|row row' rows rows' Hrow Hrows IH];
    intros row_number st db; [done|].
  cbn [upload_service.company_rows]. unfold bind.
  assert (Hfiltered :
            upload_service.filtered_row upload_service.company_schema_fields row
            = upload_service.filtered_row upload_service.company_schema_fields
                row').
  { apply map_eq. intros k. rewrite !filtered_row_lookup.
    case_decide; [by apply Hrow|done]. }
  unfold upload_service.company_row. rewrite Hfiltered.
  destruct (company_schema.validate_create _ _ _);
    unfold bind, ret, session.add_company; simpl; apply IH.
Qed.

Lemma company_rows_read_cleaned_cells_witness :
  upload_service.company_rows sample_int_of_str 7 1 0 (fun n => 10 + n) 2
    [ {[ "company_name" := Some "  Acme ";
         "company_website" := Some "";
         "notes" := Some "imported" ]} ]
    upload_service.no_rows sample_db
  = upload_service.company_rows sample_int_of_str 7 1 0 (fun n => 10 + n) 2
      [ {[ "company_name" := Some "Acme";
           "company_website" := Some " " ]} ]
      upload_service.no_rows sample_db.
Proof.
  apply company_rows_read_cleaned_cells.
  constructor; [|constructor].
  intros k Hk. unfold upload_service.company_schema_fields in Hk.
  repeat (apply elem_of_cons in Hk as [->|Hk]; [by vm_compute|]).
  by apply elem_of_nil in Hk.
Defined.


Lemma contact_detection_overrides_manual_flag_witness :
  contacts
    (exec (upload_service.detect_contact_duplicates 0)
       (exec (contact_service.mark_duplicate 0 true) sample_db))
  = contacts (exec (upload_service.detect_contact_duplicates 0) sample_db).
Proof.
  destruct (contact_detection_overrides_manual_flag sample_db 0 true
              (sample_contact "ann@acme.com" 0 7 contact_model.UPLOADED 4)
              eq_refl)
    as (dbm & Hmark & _ & _ & _ & Hdetect & _).
  unfold exec at 2. rewrite Hmark. simpl in Hdetect |- *. by rewrite Hdetect.
Defined.

(** ** The reach of a detection run *)

(** A detection run writes nothing but duplicate flags, and only inside its
    scope: [detect_company_duplicates] leaves the contacts and the batches
    as they are, keeps every company in place and equal to what it was up
    to the flag, and does not touch a company of another segment;
    [detect_contact_duplicates] does the same for the contacts of the
    company it runs over. *)
Theorem detection_frame :
  (forall (db : DB) (segment_id : nat),
     exists n db',
       upload_service.detect_company_duplicates segment_id db = (Return n, db')
       /\ contacts db' = contacts db
       /\ upload_batches db' = upload_batches db
       /\ length (companies db') = length (companies db)
       /\ forall i c, companies db !! i = Some c ->
            exists flag,
              companies db' !! i = Some (company_model.set_is_duplicate flag c)
              /\ (company_model.segment_id c <> segment_id ->
                  companies db' !! i = Some c))
  /\ (forall (db : DB) (company_id : nat),
     exists n db',
       upload_service.detect_contact_duplicates company_id db = (Return n, db')
       /\ companies db' = companies db
       /\ upload_batches db' = upload_batches db
       /\ length (contacts db') = length (contacts db)
       /\ forall i c, contacts db !! i = Some c ->
            exists flag,
              contacts db' !! i = Some (contact_model.set_is_duplicate flag c)
              /\ (contact_model.company_id c <> company_id ->
                  contacts db' !! i = Some c)).
Proof.
  split.
  - intros db segment_id.
    destruct (detect_company_duplicates_run segment_id db)
      as (table' & seen' & n' & Hscan & Hrun).
    exists n', (with_companies table' db). split; [exact Hrun|]. simpl.
    split; [done|]. split; [done|].
    destruct (scan_outside _ _ _ _ _ company_set_is_duplicate_id _ _ _ _ Hscan)
      as [Hlen Hout].
    split; [done|]. intros i c Hc.
    destruct (scan_reflags _ _ _ _ _ company_set_is_duplicate_id _ _ _ _ Hscan
                i c Hc) as [flag Hflag].
    exists flag. split; [done|]. intros Hne. by apply Hout.
  - intros db company_id.
    destruct (detect_contact_duplicates_run company_id db)
      as (table' & seen' & n' & Hscan & Hrun).
    exists n', (with_contacts table' db). split; [exact Hrun|]. simpl.
    split; [done|]. split; [done|].
    destruct (scan_outside _ _ _ _ _ contact_set_is_duplicate_id _ _ _ _ Hscan)
      as [Hlen Hout].
    split; [done|]. intros i c Hc.
    destruct (scan_reflags _ _ _ _ _ contact_set_is_duplicate_id _ _ _ _ Hscan
                i c Hc) as [flag Hflag].
    exists flag. split; [done|]. intros Hne. by apply Hout.
Qed.

Lemma detect_company_duplicates_settled (segment_id : nat) (db : DB) :
  let db1 := exec (upload_service.detect_company_duplicates segment_id) db in
  upload_service.detect_company_duplicates segment_id db1 = (Return 0, db1).
Proof.
  intros db1.
  destruct (detect_company_duplicates_run segment_id db)
    as (table' & seen' & n' & Hscan & Hrun).
  assert (Hdb1 : db1 = with_companies table' db).
  { unfold db1, exec. by rewrite Hrun. }
  destruct (scan_idempotent
              (fun c => company_model.segment_id c = segment_id)
              company_model.created_at upload_service.company_key
              company_model.is_duplicate company_model.set_is_duplicate
              company_key_set_is_duplicate company_flag_set_is_duplicate
              company_set_is_duplicate_id
              (fun b c => reflexivity _) (fun b c => eq_refl)
              _ _ _ _ Hscan) as [seen'' Hagain].
  destruct (detect_company_duplicates_run segment_id db1)
    as (t & s & n & Hscan1 & Hrun1).
  rewrite Hrun1. rewrite Hdb1 in Hscan1. simpl in Hscan1.
  rewrite Hagain in Hscan1. simplify_eq. by rewrite Hdb1.
Qed.

(** After a company upload with at least one valid row the duplicate flags
    of the segment are settled: a further run of
    [detect_company_duplicates] over the segment marks nothing and leaves
    the store as it is.  After an upload without a valid row no detection
    has run: the companies are the ones stored before. *)
Theorem company_upload_settles_duplicates :
  forall (int_of_str : string -> option Z) (file : upload_service.UploadFile)
         (segment_id created_by : nat) (clock : nat -> nat) (db : DB),
  exists batch errs b db',
    upload_service.process_company_csv int_of_str file segment_id created_by
      clock db
    = (Return (batch, errs), db')
    /\ upload_batches db' !! batch = Some b
    /\ (0 < upload_batch_model.valid_rows b ->
        upload_service.detect_company_duplicates segment_id db'
        = (Return 0, db'))
    /\ (upload_batch_model.valid_rows b = 0 ->
        companies db' = companies db).
Proof.
  intros int_of_str file segment_id created_by clock db.
  unfold upload_service.process_company_csv, upload_service.create_batch.
  unfold bind at 1, session.add_upload_batch.
  set (b0 := {| upload_batch_model.upload_type := upload_batch_model.COMPANY |}).
  set (db1 := with_upload_batches (upload_batches db ++ [b0]) db).
  unfold bind at 1.
  destruct (company_rows_stores int_of_str segment_id created_by
              (length (upload_batches db)) clock (upload_service.csv_rows file)
              2 upload_service.no_rows db1)
    as (st' & new & errs & Hrun & Hn & _ & He & Hiff & Hnew).
  rewrite Hrun. simpl in Hn.
  unfold bind at 1, upload_service.close_batch, bind at 1, get_db.
  subst db1.
  cbn [upload_batches with_companies with_upload_batches companies contacts].
  rewrite lookup_app_r by done. rewrite Nat.sub_diag. cbn [lookup list_lookup].
  unfold session.store_upload_batch.
  cbn [upload_batches with_companies with_upload_batches companies contacts].
  rewrite insert_app_r_alt by done. rewrite Nat.sub_diag. cbn [insert list_insert].
  set (b := upload_batch_model.set_statistics _ _ _ _ b0).
  case_decide as Hvalid.
  - unfold bind at 1, ret.
    match goal with
    | |- context [upload_service.detect_company_duplicates segment_id ?d] =>
        destruct (detect_company_duplicates_returns segment_id d) as [n Hdet];
        pose proof (detect_company_duplicates_frame segment_id d)
          as (_ & Hbatches & _ & _);
        pose proof (detect_company_duplicates_settled segment_id d) as Hsettled;
        rewrite Hdet
    end.
    eexists _, _, b, _. split; [reflexivity|].
    split.
    { rewrite Hbatches. simpl. rewrite lookup_app_r by done.
      by rewrite Nat.sub_diag. }
    split; [done|]. simpl. lia.
  - unfold ret. eexists _, _, b, _. split; [reflexivity|]. simpl.
    split; [rewrite lookup_app_r by done; by rewrite Nat.sub_diag|].
    split; [lia|]. intros _.
    assert (new = []) as -> by (apply length_zero_iff_nil; lia).
    by rewrite app_nil_r.
Qed.

(** ** A bulk assignment that fails *)

Lemma bulk_assign_loop_fails (sdr_id : nat) (bad : nat) (post : list nat) :
  forall (pre acc : list nat) (db : DB),
    NoDup pre ->
    Forall (fun id => exists c, contacts db !! id = Some c
                      /\ contact_model.status c = contact_model.APPROVED) pre ->
    (bad ∈ pre
     \/ forall c, contacts db !! bad = Some c ->
                  contact_model.status c <> contact_model.APPROVED) ->
    exists e table',
      contact_service.bulk_assign_loop (pre ++ bad :: post) sdr_id acc db
      = (Raise e, with_contacts table' db)
      /\ (is_not_found e = true \/ is_invalid_transition e = true)
      /\ (forall id c, id ∈ pre -> contacts db !! id = Some c ->
            table' !! id
            = Some (contact_model.set_status contact_model.ASSIGNED_TO_SDR
                      (contact_model.set_assigned_sdr_id sdr_id c)))
      /\ (forall id, id ∉ pre -> table' !! id = contacts db !! id).
Proof.
  induction pre as [|id pre IH]; intros acc db Hnd Hall Hbad.
  - destruct Hbad as [Hin|Hbad]; [by apply elem_of_nil in Hin|].
    cbn [app contact_service.bulk_assign_loop].
    unfold contact_service.assign_to_sdr, contact_service.get_contact, bind,
      raise. simpl.
    destruct (contacts db !! bad) as [c|] eqn:Hc; simpl.
    + rewrite decide_True by by apply Hbad.
      eexists _, (contacts db). rewrite with_contacts_id.
      split; [reflexivity|]. split; [by right|]. split; [|done].
      intros ? ? Hin. by apply elem_of_nil in Hin.
    + eexists _, (contacts db). rewrite with_contacts_id.
      split; [reflexivity|]. split; [by left|]. split; [|done].
      intros ? ? Hin. by apply elem_of_nil in Hin.
  - apply NoDup_cons in Hnd as [Hnotin Hnd].
    apply Forall_cons in Hall as [(c & Hc & Hs) Hall].
    cbn [app contact_service.bulk_assign_loop].
    pose proof (assign_to_sdr_run id sdr_id db) as Hrun.
    destruct (contact_service.assign_to_sdr id sdr_id db)
      as [[id'|e] db1] eqn:Hassign.
    2:{ destruct Hrun as [_ Hnot]. by destruct (Hnot c Hc). }
    destruct Hrun as (x & Hx & _ & -> & ->).
    rewrite Hc in Hx. injection Hx as <-.
    rewrite (bind_Return _ _ _ _ _ Hassign).
    set (c1 := contact_model.set_status contact_model.ASSIGNED_TO_SDR
                 (contact_model.set_assigned_sdr_id sdr_id c)) in *.
    destruct (IH (acc ++ [id]) (with_contacts (<[id := c1]> (contacts db)) db))
      as (e & table' & Hloop & He & Hin & Hout).
    + done.
    + apply Forall_forall. intros j Hj. simpl.
      rewrite list_lookup_insert_ne by (by intros ->).
      by eapply Forall_forall in Hall.
    + destruct (decide (bad = id)) as [->|Hne].
      * right. simpl. intros y.
        rewrite list_lookup_insert_eq by (by eapply lookup_lt_Some).
        by intros [= <-].
      * destruct Hbad as [Hin|Hbad].
        -- left. by apply elem_of_cons in Hin as [?|?].
        -- right. simpl. intros y.
           rewrite list_lookup_insert_ne by done. apply Hbad.
    + exists e, table'. rewrite Hloop, with_contacts_twice.
      split; [done|]. split; [done|]. simpl in *. split.
      * intros j y Hj Hy. apply elem_of_cons in Hj as [->|Hj].
        -- rewrite (Hout _ Hnotin).
           rewrite list_lookup_insert_eq by (by eapply lookup_lt_Some).
           unfold c1. congruence.
        -- apply Hin; [done|].
           rewrite list_lookup_insert_ne by (by intros ->). done.
      * intros j Hj. apply not_elem_of_cons in Hj as [Hne Hj].
        rewrite (Hout _ Hj). by apply list_lookup_insert_ne.
Qed.

(** [bulk_assign_to_sdr] is not all-or-nothing by itself.  When the list
    starts with distinct approved contacts and goes on with a contact that
    is not stored, is not approved, or was listed before, the call raises
    the not-found or the invalid-transition error at that contact; the
    contacts before it are then assigned to the SDR in the store that the
    call leaves, and all other contacts are as they were. *)
Theorem bulk_assign_to_sdr_partial_effect :
  forall (db : DB) (pre post : list nat) (bad sdr_id : nat),
    NoDup pre ->
    Forall (fun id => exists c, contacts db !! id = Some c
                      /\ contact_model.status c = contact_model.APPROVED) pre ->
    (bad ∈ pre
     \/ forall c, contacts db !! bad = Some c ->
                  contact_model.status c <> contact_model.APPROVED) ->
    exists e db',
      contact_service.bulk_assign_to_sdr (pre ++ bad :: post) sdr_id db
      = (Raise e, db')
      /\ (is_not_found e = true \/ is_invalid_transition e = true)
      /\ companies db' = companies db
      /\ (forall id c, id ∈ pre -> contacts db !! id = Some c ->
            contacts db' !! id
            = Some (contact_model.set_status contact_model.ASSIGNED_TO_SDR
                      (contact_model.set_assigned_sdr_id sdr_id c)))
      /\ (forall id, id ∉ pre -> contacts db' !! id = contacts db !! id).
Proof.
  intros db pre post bad sdr_id Hnd Hall Hbad.
  unfold contact_service.bulk_assign_to_sdr.
  destruct (bulk_assign_loop_fails sdr_id bad post pre [] db Hnd Hall Hbad)
    as (e & table' & Hrun & He & Hin & Hout).
  exists e, (with_contacts table' db). by rewrite Hrun.
Qed.

Lemma bulk_assign_to_sdr_partial_effect_witness :
  exists e db',
    contact_service.bulk_assign_to_sdr [0; 0; 1] 5
      (with_contacts
         [ sample_contact "ann@acme.com" 0 7 contact_model.APPROVED 4;
           sample_contact "bob@acme.com" 0 7 contact_model.APPROVED 5 ]
         empty_db)
    = (Raise e, db')
    /\ contact_model.status <$> contacts db'
       = [contact_model.ASSIGNED_TO_SDR; contact_model.APPROVED].
Proof.
  destruct (bulk_assign_to_sdr_partial_effect
              (with_contacts
                 [ sample_contact "ann@acme.com" 0 7 contact_model.APPROVED 4;
                   sample_contact "bob@acme.com" 0 7 contact_model.APPROVED 5 ]
                 empty_db)
              [0] [1] 0 5)
    as (e & db' & Hrun & _).
  - repeat constructor. by intros Hin%elem_of_nil.
  - repeat constructor. by eexists.
  - left. by left.
  - cbn [app] in Hrun. exists e, db'. split; [exact Hrun|].
    assert (Hdb : exec (contact_service.bulk_assign_to_sdr [0; 0; 1] 5)
                    (with_contacts
                       [ sample_contact "ann@acme.com" 0 7 contact_model.APPROVED 4;
                         sample_contact "bob@acme.com" 0 7 contact_model.APPROVED 5 ]
                       empty_db) = db')
      by (unfold exec; by rewrite Hrun).
    rewrite <- Hdb. reflexivity.
Defined.

(** ** A decision on a company is final *)

Lemma run_company_step (int_of_str : string -> option Z)
    (validate_email : string -> option string) (op : Operation) (db : DB)
    (i : nat) (c : company_model.Company) :
  companies db !! i = Some c ->
  exists c',
    companies (run int_of_str validate_email op db) !! i = Some c'
    /\ decision_step op i c c'.
Proof.
  intros Hc.
  assert (Hlt : i < length (companies db)) by by eapply lookup_lt_Some.
  assert (Hsame : forall db',
            companies db' = companies db ->
            exists c',
              companies db' !! i = Some c'
              /\ decision_step op i c c').
  { intros db' Heq. exists c. rewrite Heq. split; [done|by left]. }
  assert (Hflag : forall db',
            (forall j x, companies db !! j = Some x ->
               exists b, companies db' !! j
                         = Some (company_model.set_is_duplicate b x)) ->
            exists c',
              companies db' !! i = Some c'
              /\ decision_step op i c c').
  { intros db' Hrows. destruct (Hrows i c Hc) as [b Hb].
    eexists. split; [exact Hb|by left]. }
  assert (Hstore : forall id x,
            (id = i ->
             company_model.status x = company_model.status c
             /\ company_model.rejection_reason x
                = company_model.rejection_reason c) ->
            exists c',
              <[id := x]> (companies db) !! i = Some c'
              /\ decision_step op i c c').
  { intros id x Hx. destruct (decide (id = i)) as [->|Hne].
    - exists x. rewrite list_lookup_insert_eq by done.
      split; [done|]. left. by apply Hx.
    - exists c. rewrite list_lookup_insert_ne by done.
      split; [done|by left]. }
  destruct op; cbn [run].
  - (* create_company *)
    run_service. exists c. split; [by apply lookup_app_l_Some|by left].
  - (* update_company *)
    run_service.
    destruct (companies db !! company_id) as [x|] eqn:Hx; [|by apply Hsame].
    unfold company_service.apply_update.
    destruct (updated_not_null _ _); [|by apply Hsame].
    destruct (updated_not_null _ _); [|by apply Hsame]. simpl.
    apply Hstore. intros ->. rewrite Hc in Hx. by injection Hx as <-.
  - (* approve_company *)
    destruct (company_schema.validate_approval body) as [errs|a] eqn:Hv;
      [by apply Hsame|].
    pose proof Hv as Hv'.
    apply validate_approval_inr in Hv' as (_ & _ & Hnp & _).
    run_service.
    destruct (companies db !! company_id) as [x|] eqn:Hx; [|by apply Hsame].
    case_decide as Hs; [by apply Hsame|]. try apply dec_stable in Hs. simpl.
    destruct (decide (company_id = i)) as [->|Hne].
    + rewrite Hc in Hx. injection Hx as <-.
      eexists. rewrite list_lookup_insert_eq by done. split; [reflexivity|].
      right. split; [done|].
      split; [by destruct approved_by|].
      exists body, approved_by, now, a.
      split; [done|]. split; [done|]. by destruct approved_by.
    + exists c. rewrite list_lookup_insert_ne by done. split; [done|by left].
  - (* mark_company_duplicate *)
    run_service.
    destruct (companies db !! company_id) as [x|] eqn:Hx; [|by apply Hsame].
    simpl. apply Hstore. intros ->. rewrite Hc in Hx. by injection Hx as <-.
  - (* process_company_csv *)
    destruct (process_company_csv_spec int_of_str file segment_id created_by
                clock db)
      as (errs & b & new & mid & db' & Hrun & _ & Hmid & _ & _ & _ & Hdb').
    unfold exec. rewrite Hrun. simpl.
    assert (Hc1 : companies mid !! i = Some c)
      by (rewrite Hmid; by apply lookup_app_l_Some).
    destruct Hdb' as [-> | ->].
    + exists c. split; [done|by left].
    + destruct (detect_company_duplicates_frame segment_id mid)
        as (_ & _ & _ & Hrows).
      destruct (Hrows i c Hc1) as [flag Hflag'].
      eexists. split; [exact Hflag'|by left].
  - (* detect_company_duplicates *)
    apply Hflag.
    by destruct (detect_company_duplicates_frame segment_id db)
      as (_ & _ & _ & Hrows).
  - (* create_contact *)
    apply Hsame. run_service.
    by destruct (companies db !! contact_schema.company_id data).
  - (* update_contact *)
    apply Hsame. run_service. destruct (contacts db !! contact_id); [|done].
    by destruct (contact_service.apply_update _ _).
  - (* approve_contact *)
    apply Hsame. run_service. destruct (contacts db !! contact_id); [|done].
    by repeat case_decide.
  - (* assign_to_sdr *)
    apply Hsame. run_service. destruct (contacts db !! contact_id); [|done].
    by repeat case_decide.
  - (* bulk_assign_to_sdr *)
    apply Hsame. unfold contact_service.bulk_assign_to_sdr.
    by rewrite bulk_assign_loop_companies.
  - (* mark_meeting_scheduled *)
    apply Hsame. run_service. destruct (contacts db !! contact_id); [|done].
    by repeat case_decide.
  - (* mark_contact_duplicate *)
    apply Hsame. run_service. by destruct (contacts db !! contact_id).
  - (* process_contact_csv *)
    apply Hsame. unfold exec.
    destruct (upload_service.process_contact_csv _ _ _ _ _ _ _)
      as [r db'] eqn:Hrun.
    by apply process_contact_csv_spec in Hrun as (Hco & _).
  - (* detect_contact_duplicates *)
    apply Hsame.
    by destruct (detect_contact_duplicates_frame company_id db) as (-> & _).
Qed.

(** The status and the rejection reason of a stored company change in one
    way only: a validated decision of [approve_company] for that company,
    taken while it is pending, which gives it the status and the reason of
    the decision.  So a decision is final: once a company is approved or
    rejected, no sequence of operations on companies, contacts, uploads and
    detection runs changes its status or its rejection reason, and the
    company stays in the store. *)
Theorem company_decision_is_final :
  forall (int_of_str : string -> option Z)
         (validate_email : string -> option string),
    (forall (op : Operation) (db : DB) (i : nat) (c : company_model.Company),
       companies db !! i = Some c ->
       exists c',
         companies (run int_of_str validate_email op db) !! i = Some c'
         /\ decision_step op i c c')
    /\ (forall (ops : list Operation) (db : DB) (i : nat)
               (c : company_model.Company),
          companies db !! i = Some c ->
          company_model.status c <> company_model.PENDING ->
          exists c',
            companies (run_all int_of_str validate_email ops db) !! i = Some c'
            /\ company_model.status c' = company_model.status c
            /\ company_model.rejection_reason c'
               = company_model.rejection_reason c).
Proof.
  intros int_of_str validate_email. split.
  - intros op db i c Hc. by apply run_company_step.
  - intros ops. induction ops as [|op ops IH]; intros db i c Hc Hdecided.
    + by exists c.
    + unfold run_all. cbn [foldl].
      destruct (run_company_step int_of_str validate_email op db i c Hc)
        as (c1 & Hc1 & [[Hs Hr]|[Hpending _]]); [|done].
      destruct (IH (run int_of_str validate_email op db) i c1 Hc1)
        as (c' & Hc' & Hs' & Hr'); [congruence|].
      exists c'. split; [exact Hc'|]. split; congruence.
Qed.
